(** * Webhook orchestration core: deduplication, group tracking, delivery, pipeline

    A shallow embedding of
    - [services/webhook-helpers.js]   (message deduplication, history, test mode,
      look-back, rich content blocks, payload validation),
    - [services/multi-user-tracker.js] and [services/group-profile-storage.js]
      (group response tracking on top of the per-chat interview state file;
      profiles, matches and per-question responses),
    - [core/BaseA1ZapClient.js]       (construction, text and media delivery),
    - [core/BaseWebhook.js]           (the template-method request pipeline),
    - [webhooks/mandy-webhook.js]     (its [sendResponse]) and the group flow of
      [test-group-webhook-flow.js],
    together with the properties the specification states about them and
    further properties of the code.

    Conventions.  Times are [Date.now()] values in milliseconds, as [Z], and
    are passed to the functions that read the clock.  Module-level mutable
    state (the [processedMessages] map, the interview state file) is passed
    in and returned.  Calls of collaborators that the code awaits are nodes
    of a program tree; their outcomes come from an environment. *)

From Stdlib Require Import ZArith Lia Bool.
From stdpp Require Import gmap strings list fin_maps.

Local Open Scope string_scope.
Local Open Scope Z_scope.
Local Open Scope list_scope.

(** ** JavaScript values that occur in the modelled code *)

Module Js.

(** An optional string field of a JSON payload, as read through [a?.b]:
    the field is missing ([undefined]), [null], or a string.  Identifiers
    sent by the platform (chat, message, agent and user ids) are strings. *)
Inductive ostr : Type :=
  | Undefined
  | Null
  | Str (s : string).

Global Instance ostr_eq_dec : EqDecision ostr.
Proof. solve_decision. Defined.

(** [!!v]: [undefined], [null] and the empty string are falsy. *)
Definition truthy (v : ostr) : bool :=
  match v with
  | Str s => negb (String.eqb s "")
  | _ => false
  end.

(** [a || b] *)
Definition or_else (a b : ostr) : ostr := if truthy a then a else b.

(** The result of a call that may throw (of a promise that may reject). *)
Inductive outcome (E A : Type) : Type :=
  | Throw (e : E)
  | Return (a : A).
Arguments Throw {E A} e.
Arguments Return {E A} a.

(** [s.startsWith(p)] *)
Definition startsWith (p s : string) : bool := String.prefix p s.

End Js.

(** ** Message deduplication ([services/webhook-helpers.js], lines 16-48) *)

Module Dedup.
Import Js.

(** [processedMessages]: a [Map] from message id to the [Date.now()] of its
    marking, in milliseconds.  Only strings are ever used as keys. *)
Abbreviation processedMessages := (gmap string Z).

Definition MESSAGE_EXPIRY_MS : Z := 5 * 60 * 1000.

(** Period of the clean-up timer, [setInterval(..., 60 * 1000)]. *)
Definition SWEEP_INTERVAL_MS : Z := 60 * 1000.

(** One run of the [setInterval] callback at time [now]: every entry with
    [now - timestamp > MESSAGE_EXPIRY_MS] is deleted. *)
Definition sweep (now : Z) (pm : processedMessages) : processedMessages :=
  filter (λ kv : string * Z, ¬ (now - kv.2 > MESSAGE_EXPIRY_MS)) pm.

Definition isDuplicateMessage (messageId : ostr) (pm : processedMessages) : bool :=
  match messageId with
  | Str s => if truthy messageId then bool_decide (is_Some (pm !! s)) else false
  | _ => false
  end.

Definition markMessageProcessed (messageId : ostr) (now : Z)
    (pm : processedMessages) : processedMessages :=
  match messageId with
  | Str s => if truthy messageId then <[s := now]> pm else pm
  | _ => pm
  end.

(** Operations on the store by other parties between two observations of a
    message id [m]: markings of other ids and sweeps at arbitrary times. *)
Inductive other_op (m : string) : Type :=
  | OtherMark (k : string) (now : Z) (Hk : k ≠ m)
  | OtherSweep (now : Z).
Arguments OtherMark {m} k now Hk.
Arguments OtherSweep {m} now.

Definition run_other {m} (o : other_op m) (pm : processedMessages) : processedMessages :=
  match o with
  | OtherMark k now _ => markMessageProcessed (Str k) now pm
  | OtherSweep now => sweep now pm
  end.

Definition run_others {m} (os : list (other_op m)) (pm : processedMessages)
    : processedMessages :=
  foldl (λ acc o, run_other o acc) pm os.

End Dedup.

(** ** Group response tracking
    ([services/multi-user-tracker.js] over [services/group-profile-storage.js]) *)

Module Tracker.
Import Js.

(** The [questionResponseTracking] object of a chat. *)
Record tracking : Type := mkTracking {
  currentQuestionId : option string;       (* [null] or the question id *)
  currentQuestionTimestamp : option Z;
  expectedUserIds : list string;
  respondedUserIds : list string;
  questionCount : Z
}.

(** One entry of [interview-state.json]: the interview fields of the chat,
    which the tracker never reads, and the optional tracking object. *)
Record interviewState : Type := mkInterviewState {
  interviewFields : gmap string string;
  questionResponseTracking : option tracking
}.

(** The contents of [interview-state.json], keyed by chat id.  Every
    operation reloads the file, so no object is shared between two calls. *)
Abbreviation stateFile := (gmap string interviewState).

(** A message of the raw history returned by the platform. *)
Record rawSender : Type := mkRawSender {
  rs_senderId : ostr;
  rs_isAgent : bool
}.

(** **** group-profile-storage.js *)

(** [state[chatId] || null] *)
Definition getInterviewState (chatId : string) (f : stateFile) : option interviewState :=
  f !! chatId.

Definition setInterviewState (chatId : string) (st : interviewState) (f : stateFile)
    : stateFile :=
  <[chatId := st]> f.

Definition clearInterviewState (chatId : string) (f : stateFile) : stateFile :=
  delete chatId f.

(** **** multi-user-tracker.js *)

(** [Set.add] on a set kept in insertion order. *)
Definition set_add (x : string) (s : list string) : list string :=
  if bool_decide (x ∈ s) then s else s ++ [x].

(** [getUniqueUserIds(rawHistory, agentId)]; [Array.from] of the result
    lists the ids in insertion order. *)
Definition getUniqueUserIds (rawHistory : list rawSender) (agentId : ostr) : list string :=
  foldl (λ userIds msg,
           match rs_senderId msg with
           | Str s =>
               if truthy (rs_senderId msg)
                  && negb (bool_decide (rs_senderId msg = agentId))
                  && negb (rs_isAgent msg)
               then set_add s userIds else userIds
           | _ => userIds
           end) [] rawHistory.

Definition emptyTracking : tracking :=
  {| currentQuestionId := None;
     currentQuestionTimestamp := None;
     expectedUserIds := [];
     respondedUserIds := [];
     questionCount := 0 |}.

Definition getResponseState (chatId : string) (f : stateFile) : tracking :=
  match getInterviewState chatId f with
  | Some st =>
      match questionResponseTracking st with
      | Some t => t
      | None => emptyTracking
      end
  | None => emptyTracking
  end.

(** [getInterviewState(chatId) || {}] *)
Definition interviewStateOrEmpty (chatId : string) (f : stateFile) : interviewState :=
  match getInterviewState chatId f with
  | Some st => st
  | None => {| interviewFields := ∅; questionResponseTracking := None |}
  end.

Definition saveResponseState (chatId : string) (responseState : tracking) (f : stateFile)
    : stateFile :=
  let state := interviewStateOrEmpty chatId f in
  setInterviewState chatId
    {| interviewFields := interviewFields state;
       questionResponseTracking := Some responseState |} f.

(** [startQuestionTracking(chatId, expectedUserIds)].  [now] is [Date.now()]
    and [suffix] the text [`${Date.now()}_${Math.random()...}`] of the fresh
    question id. *)
Definition startQuestionTracking (chatId : string) (expected : list string)
    (now : Z) (suffix : string) (f : stateFile) : tracking * stateFile :=
  let responseState :=
    {| currentQuestionId := Some ("question_" +:+ suffix);
       currentQuestionTimestamp := Some now;
       expectedUserIds := expected;
       respondedUserIds := [];
       questionCount := questionCount (getResponseState chatId f) + 1 |} in
  (responseState, saveResponseState chatId responseState f).

(** [!responseState.currentQuestionId] *)
Definition noQuestion (t : tracking) : bool :=
  match currentQuestionId t with
  | None => true
  | Some q => String.eqb q ""
  end.

(** [expectedUserIds.length > 0 && expectedUserIds.every(id => respondedUserIds.includes(id))] *)
Definition allRespondedOf (t : tracking) : bool :=
  (0 <? length (expectedUserIds t))%nat
  && forallb (λ id, bool_decide (id ∈ respondedUserIds t)) (expectedUserIds t).

(** [recordUserResponse(chatId, userId)]: the returned
    [{ allResponded, responseState }] and the file afterwards. *)
Definition recordUserResponse (chatId userId : string) (f : stateFile)
    : (bool * tracking) * stateFile :=
  let responseState := getResponseState chatId f in
  if noQuestion responseState then ((false, responseState), f)
  else
    let '(responseState, f) :=
      if negb (bool_decide (userId ∈ respondedUserIds responseState)) then
        let pushed :=
          {| currentQuestionId := currentQuestionId responseState;
             currentQuestionTimestamp := currentQuestionTimestamp responseState;
             expectedUserIds := expectedUserIds responseState;
             respondedUserIds := respondedUserIds responseState ++ [userId];
             questionCount := questionCount responseState |} in
        (pushed, saveResponseState chatId pushed f)
      else (responseState, f) in
    ((allRespondedOf responseState, responseState), f).

Definition clearQuestionTracking (chatId : string) (f : stateFile) : stateFile :=
  let state := interviewStateOrEmpty chatId f in
  setInterviewState chatId
    {| interviewFields := interviewFields state;
       questionResponseTracking :=
         Some {| currentQuestionId := None;
                 currentQuestionTimestamp := None;
                 expectedUserIds := [];
                 respondedUserIds := [];
                 questionCount :=
                   match questionResponseTracking state with
                   | Some t => questionCount t
                   | None => 0
                   end |} |} f.

Definition isWaitingForResponses (chatId : string) (f : stateFile) : bool :=
  let responseState := getResponseState chatId f in
  bool_decide (currentQuestionId responseState ≠ None)
  && (0 <? length (expectedUserIds responseState))%nat
  && (length (respondedUserIds responseState)
        <? length (expectedUserIds responseState))%nat.

(** The calls a webhook makes on the tracker of one chat. *)
Inductive trackerOp : Type :=
  | OpStart (expected : list string) (now : Z) (suffix : string)
  | OpRecord (userId : string)
  | OpClear.

Definition runOp (chatId : string) (o : trackerOp) (f : stateFile) : stateFile :=
  match o with
  | OpStart expected now suffix => (startQuestionTracking chatId expected now suffix f).2
  | OpRecord userId => (recordUserResponse chatId userId f).2
  | OpClear => clearQuestionTracking chatId f
  end.

Definition runOps (chatId : string) (os : list trackerOp) (f : stateFile) : stateFile :=
  foldl (λ acc o, runOp chatId o acc) f os.

(** The inclusion the specification states for a [GroupTrackingState]. *)
Definition respondedWithinExpected (t : tracking) : Prop :=
  ∀ u, u ∈ respondedUserIds t → u ∈ expectedUserIds t.

(** [respondedUserIds ⊊ expectedUserIds], both read as sets. *)
Definition properSubset (t : tracking) : Prop :=
  respondedWithinExpected t
  ∧ ∃ u, u ∈ expectedUserIds t ∧ u ∉ respondedUserIds t.

End Tracker.

(** ** Outbound delivery ([core/BaseA1ZapClient.js]) *)

Module Client.
Import Js.

Record config : Type := mkConfig {
  apiKey : string;
  agentId : string;
  apiUrl : string;
  agentName : string
}.

(** What a delivery call throws: the error of [_validateApiKey], the error
    of [axios.post] with its [error.response?.status] and [error.code], or
    the still unset [lastError] of the statement after the retry loop. *)
Inductive error : Type :=
  | ApiKeyNotConfigured
  | AgentIdNotConfigured
  | AxiosError (status : option Z) (code : option string)
  | UnsetError.

Record media : Type := mkMedia {
  media_url : string;
  media_contentType : string;
  media_dimensions : option (Z * Z)
}.

Record payload : Type := mkPayload {
  p_chatId : string;
  p_content : string;
  p_richContentBlocks : option (list string);
  p_media : option media;
  p_source : string;
  p_messageType : option string
}.

(** The observable steps of a delivery call: an [axios.post] (with the
    number of the attempt and the request timeout, if one is set) and the
    [setTimeout] pause before a retry. *)
Inductive event : Type :=
  | Post (attempt : nat) (url : string) (body : payload) (timeout : option Z)
  | Sleep (ms : Z).

(** The platform as seen by one delivery call: the outcome of its [n]-th
    request, [response.data] or the error thrown. *)
Definition network : Type := nat → outcome error string.

(** [_validateApiKey()] *)
Definition isPlaceholder (v : string) : bool :=
  String.eqb v ""
  || startsWith "your_" v
  || startsWith "YOUR_" v
  || String.eqb v "undefined"
  || String.eqb v "null".

Definition validateApiKey (cfg : config) : option error :=
  if isPlaceholder (apiKey cfg) then Some ApiKeyNotConfigured
  else if isPlaceholder (agentId cfg) then Some AgentIdNotConfigured
  else None.

Definition sendUrl (cfg : config) : string :=
  apiUrl cfg +:+ "/" +:+ agentId cfg +:+ "/send".

Definition maxRetries : nat := 3.
Definition retryDelay : Z := 1000.
Definition requestTimeout : Z := 10000.

(** The retryable-error test of [sendMessage]. *)
Definition isRetryable (e : error) : bool :=
  match e with
  | AxiosError status code =>
      match status with Some st => (500 <=? st)%Z | None => false end
      || match status with Some st => (st =? 429)%Z | None => false end
      || bool_decide (code = Some "ECONNRESET")
      || bool_decide (code = Some "ETIMEDOUT")
      || bool_decide (code = Some "ENOTFOUND")
  | _ => false
  end.

(** The retry loop of [sendMessage],
    [for (let attempt = 1; attempt <= maxRetries; attempt++)], unrolled at
    most [fuel] times; [lastError] is what the statement after the loop
    throws. *)
Fixpoint sendLoop (fuel : nat) (attempt : nat) (lastError : option error)
    (url : string) (body : payload) (net : network)
    : outcome error string * list event :=
  match fuel with
  | O => (Throw (default UnsetError lastError), [])
  | S fuel' =>
      if (attempt <=? maxRetries)%nat then
        match net attempt with
        | Return data => (Return data, [Post attempt url body (Some requestTimeout)])
        | Throw e =>
            if isRetryable e && (attempt <? maxRetries)%nat then
              let delay := retryDelay * Z.of_nat attempt in
              let '(r, evs) := sendLoop fuel' (S attempt) (Some e) url body net in
              (r, Post attempt url body (Some requestTimeout) :: Sleep delay :: evs)
            else (Throw e, [Post attempt url body (Some requestTimeout)])
        end
      else (Throw (default UnsetError lastError), [])
  end.

(** The request body of a text message. *)
Definition textPayload (cfg : config) (chatId content : string)
    (richContentBlocks : option (list string)) : payload :=
  {| p_chatId := chatId;
     p_content := content;
     p_richContentBlocks :=
       match richContentBlocks with
       | Some (b :: bs) => Some (b :: bs)
       | _ => None
       end;
     p_media := None;
     p_source := agentName cfg +:+ "-agent";
     p_messageType := None |}.

(** [sendMessage(chatId, content, richContentBlocks = null)] *)
Definition sendMessage (cfg : config) (chatId content : string)
    (richContentBlocks : option (list string)) (net : network)
    : outcome error string * list event :=
  match validateApiKey cfg with
  | Some e => (Throw e, [])
  | None =>
      let body := textPayload cfg chatId content richContentBlocks in
      sendLoop maxRetries 1 None (sendUrl cfg) body net
  end.

Record mediaOptions : Type := mkMediaOptions {
  opt_width : option Z;
  opt_height : option Z;
  opt_contentType : ostr
}.

Definition truthyNumber (n : option Z) : bool :=
  match n with Some z => negb (z =? 0)%Z | None => false end.

(** [sendMediaMessage(chatId, content, mediaUrl, options = {})] *)
Definition sendMediaMessage (cfg : config) (chatId content mediaUrl : string)
    (options : mediaOptions) (net : network)
    : outcome error string * list event :=
  match validateApiKey cfg with
  | Some e => (Throw e, [])
  | None =>
      let m :=
        {| media_url := mediaUrl;
           media_contentType :=
             match or_else (opt_contentType options) (Str "image/png") with
             | Str s => s
             | _ => "image/png"
             end;
           media_dimensions :=
             match opt_width options, opt_height options with
             | Some w, Some h =>
                 if truthyNumber (Some w) && truthyNumber (Some h)
                 then Some (w, h) else None
             | _, _ => None
             end |} in
      let body :=
        {| p_chatId := chatId;
           p_content := content;
           p_richContentBlocks := None;
           p_media := Some m;
           p_source := agentName cfg +:+ "-agent";
           p_messageType := Some "media" |} in
      match net 1%nat with
      | Return data => (Return data, [Post 1 (sendUrl cfg) body None])
      | Throw e => (Throw e, [Post 1 (sendUrl cfg) body None])
      end
  end.

(** The retry policy a delivery call follows, read off its trace: how many
    requests it makes at most, how long it pauses after the failure of
    attempt [n], and which errors it retries. *)
Definition attempts (evs : list event) : list nat :=
  omap (λ e, match e with Post n _ _ _ => Some n | _ => None end) evs.

Definition sleeps (evs : list event) : list Z :=
  omap (λ e, match e with Sleep ms => Some ms | _ => None end) evs.

(** The trace of a call that needed [k] attempts under the policy "pause
    [retryDelay * n] after the failure of attempt [n], then try again". *)
Definition policyTrace (k : nat) (url : string) (body : payload) : list event :=
  flat_map (λ n, [Post n url body (Some requestTimeout);
                  Sleep (retryDelay * Z.of_nat n)]) (seq 1 (k - 1))
  ++ [Post k url body (Some requestTimeout)].

(** A network whose first requests have the listed outcomes and which
    answers every later request with [response.data = "ok"]. *)
Definition scripted (outs : list (outcome error string)) : network :=
  λ n, match n with
       | O => Return "ok"
       | S i => default (Return "ok") (outs !! i)
       end.

Definition http (status : Z) : outcome error string :=
  Throw (AxiosError (Some status) None).

End Client.

(** ** The request pipeline ([core/BaseWebhook.js] and the history, response
    and test-mode helpers of [services/webhook-helpers.js]) *)

Module Webhook.
Import Js Dedup.

(** *** Values, payloads and envelopes *)

(** The values of the fields of a processing result and of a response
    envelope. *)
Inductive jsval : Type :=
  | VUndefined
  | VNull
  | VBool (b : bool)
  | VStr (s : string)
  | VArray (items : list string).

Definition of_ostr (v : ostr) : jsval :=
  match v with
  | Undefined => VUndefined
  | Null => VNull
  | Str s => VStr s
  end.

Definition truthyV (v : jsval) : bool :=
  match v with
  | VBool b => b
  | VStr s => negb (String.eqb s "")
  | VArray _ => true
  | _ => false
  end.

(** [a || b] *)
Definition orV (a b : jsval) : jsval := if truthyV a then a else b.

(** A JavaScript object with scalar fields; [field o k] is [o.k]. *)
Abbreviation object := (gmap string jsval).

Definition field (o : object) (k : string) : jsval := default VUndefined (o !! k).

(** [req.body], flattened to the fields the pipeline reads:
    [event], [chat?.id], [agent?.id], [message?.id], [message?.content],
    [message?.media?.url], and for [chat.started] the root and
    [chatMetadata] variants of the chat id, the user name and the anonymity
    flag. *)
Record body : Type := mkBody {
  event : ostr;
  chat_id : ostr;
  agent_id : ostr;
  message_id : ostr;
  message_content : ostr;
  message_media_url : ostr;
  root_chatId : ostr;
  meta_chatId : ostr;
  root_userName : ostr;
  meta_userName : ostr;
  root_isAnonymous : jsval;
  meta_isAnonymous : jsval
}.

(** The object [extractWebhookData] returns when the payload is valid; its
    [chat], [message] and [agent] fields are those of [payload]. *)
Record data : Type := mkData {
  chatId : ostr;
  agentId : ostr;
  messageId : ostr;
  userMessage : ostr;
  imageUrl : ostr;
  payload : body
}.

Inductive extracted : Type :=
  | Invalid (error : string)
  | Valid (d : data).

(** [res.status(code).json(envelope)]; [res.json] alone answers 200. *)
Record response : Type := mkResponse {
  status : Z;
  envelope : object
}.

(** A message of the raw history. *)
Inductive msgContent : Type :=
  | ContentText (s : string)
  | ContentObject
  | ContentMissing.

Record rawMessage : Type := mkRawMessage {
  content : msgContent;
  isAgent : bool;
  senderId : ostr;
  senderName : ostr;
  mediaUrl : ostr
}.

Inductive role : Type := Assistant | User.

Record convMessage : Type := mkConvMessage {
  conv_role : role;
  conv_content : string;
  conv_imageUrl : option string
}.

(** The agent configuration the handler is built with. *)
Record agent : Type := mkAgent {
  agent_name : string;
  getWelcomeMessage : ostr → jsval → outcome string string
}.

(** *** Programs over the collaborators of the handler *)

(** Synchronous calls into the deduplication functions of
    [webhook-helpers.js]. *)
Inductive helperCall : Type :=
  | IsDuplicateMessage (messageId : ostr)
  | MarkMessageProcessed (messageId : ostr).

Definition helperReply (c : helperCall) : Type :=
  match c with
  | IsDuplicateMessage _ => bool
  | MarkMessageProcessed _ => unit
  end.

(** Awaited calls: the history collaborator and the delivery client
    ([this.client]), and the domain processing hook ([this.processRequest],
    abstract in the base class). *)
Inductive call : Type :=
  | GetMessageHistory (chatId : ostr) (limit : Z) (agentId : ostr)
  | ProcessRequest (d : data) (conversation : list convMessage)
  | SendMessage (chatId : ostr) (content : jsval) (richContentBlocks : jsval).

Definition reply (c : call) : Type :=
  match c with
  | GetMessageHistory _ _ _ => option (list rawMessage)
  | ProcessRequest _ _ => object
  | SendMessage _ _ _ => jsval
  end.

(** An [async] function body: it returns, calls a deduplication helper and
    goes on at once, or awaits a collaborator, whose promise resolves or
    rejects with an error message.  The [await] of an [async] method of the
    handler itself is the sequence of the awaits inside that method; when the
    method returns without awaiting anything, the body goes on in the same
    turn (the code that follows touches no shared state). *)
Inductive prog (R : Type) : Type :=
  | Ret (r : R)
  | Helper (c : helperCall) (k : helperReply c → prog R)
  | Await (c : call) (k : outcome string (reply c) → prog R).
Arguments Ret {R} r.
Arguments Helper {R} c k.
Arguments Await {R} c k.

Fixpoint bind {A B : Type} (m : prog A) (f : A → prog B) : prog B :=
  match m with
  | Ret a => f a
  | Helper c k => Helper c (λ x, bind (k x) f)
  | Await c k => Await c (λ x, bind (k x) f)
  end.

(** Bodies that may throw. *)
Definition throwing (A : Type) : Type := prog (outcome string A).

Definition ret {A} (a : A) : throwing A := Ret (Return a).

Definition andThen {A B} (m : throwing A) (f : A → throwing B) : throwing B :=
  bind m (λ o, match o with Throw e => Ret (Throw e) | Return a => f a end).

(** [try { m } catch (error) { h error }] *)
Definition tryCatch {A} (m : throwing A) (h : string → throwing A) : throwing A :=
  bind m (λ o, match o with Throw e => h e | Return a => Ret (Return a) end).

Definition helper (c : helperCall) : throwing (helperReply c) :=
  Helper c (λ x, Ret (Return x)).

(** [await c]: a rejection is thrown at the [await]. *)
Definition await (c : call) : throwing (reply c) := Await c (λ o, Ret o).

Declare Scope prog_scope.
Delimit Scope prog_scope with prog.
Notation "'let*' x ':=' m 'in' k" := (andThen m (λ x, k))
  (at level 10, x name, m at level 200, k at level 200) : prog_scope.
Local Open Scope prog_scope.

(** *** webhook-helpers.js: test mode, history, response sending *)

(** [chatId && chatId.startsWith('test-')] *)
Definition isTestChat (chatId : ostr) : jsval :=
  match chatId with
  | Str s => if truthy chatId then VBool (startsWith "test-" s) else VStr s
  | _ => of_ostr chatId
  end.

(** The white space [String.prototype.trim] removes, within ASCII. *)
Definition isWhitespace (c : Ascii.ascii) : bool :=
  let n := Ascii.nat_of_ascii c in
  ((9 <=? n) && (n <=? 13) || (n =? 32))%nat.

(** [!s.trim()] *)
Fixpoint isBlank (s : string) : bool :=
  match s with
  | EmptyString => true
  | String c s' => isWhitespace c && isBlank s'
  end.

Definition roleOf (msg : rawMessage) (agentId : ostr) : role :=
  if isAgent msg || bool_decide (senderId msg = agentId) then Assistant else User.

Definition imageOf (includeImages : bool) (msg : rawMessage) : option string :=
  match mediaUrl msg with
  | Str u => if includeImages && truthy (mediaUrl msg) then Some u else None
  | _ => None
  end.

(** The body of the [forEach] of [processMessageHistory]: the entry pushed
    for [msg], if any. *)
Definition processMessage (agentId : ostr) (includeImages : bool) (msg : rawMessage)
    : option convMessage :=
  match content msg with
  | ContentText s =>
      if negb (isBlank s) then
        Some {| conv_role := roleOf msg agentId;
                conv_content :=
                  match senderName msg with
                  | Str n =>
                      if truthy (senderName msg) && negb (isAgent msg)
                      then n +:+ ": " +:+ s else s
                  | _ => s
                  end;
                conv_imageUrl := imageOf includeImages msg |}
      else
        match imageOf includeImages msg with
        | Some u => Some {| conv_role := roleOf msg agentId;
                            conv_content := "[Image]";
                            conv_imageUrl := Some u |}
        | None => None
        end
  | _ =>
      match imageOf includeImages msg with
      | Some u => Some {| conv_role := roleOf msg agentId;
                          conv_content := "[Image]";
                          conv_imageUrl := Some u |}
      | None => None
      end
  end.

Definition processMessageHistory (messageHistory : list rawMessage) (agentId : ostr)
    (includeImages : bool) : list convMessage :=
  omap (processMessage agentId includeImages) messageHistory.

(** [fetchAndProcessHistory(client, chatId, agentId, limit, includeImages)] *)
Definition fetchAndProcessHistory (chatId agentId : ostr) (limit : Z)
    (includeImages : bool) : throwing (list convMessage) :=
  if negb (truthy chatId) || negb (truthy agentId) then ret []
  else
    tryCatch
      (let* history := await (GetMessageHistory chatId limit agentId) in
       match history with
       | Some (m :: ms) => ret (processMessageHistory (m :: ms) agentId includeImages)
       | _ => ret []
       end)
      (λ _, ret []).

(** [webhookHelpers.sendResponse(client, chatId, message, richContentBlocks)] *)
Definition helpersSendResponse (chatId : ostr) (message richContentBlocks : jsval)
    : throwing jsval :=
  if truthyV (isTestChat chatId) then ret VNull
  else
    tryCatch
      (let* result := await (SendMessage chatId message richContentBlocks) in
       ret result)
      (λ _, ret VNull).

(** *** BaseWebhook *)

Section BaseWebhook.

Variable this_agent : agent.

(** The responses of the pipeline:
    [res.status(400).json({ success: false, error })],
    [res.json({ success: true, skipped: true, reason: 'duplicate_message', messageId })],
    [res.json({ success: true, agent: this.agent.name, ...result, testMode })],
    [res.status(500).json({ success: false, error: error.message })],
    and those of the [chat.started] flow. *)
Definition validationResponse (error : string) : response :=
  {| status := 400;
     envelope := {[ "success" := VBool false; "error" := VStr error ]} |}.

Definition skippedEnvelope (messageId : ostr) : object :=
  {[ "success" := VBool true;
     "skipped" := VBool true;
     "reason" := VStr "duplicate_message";
     "messageId" := of_ostr messageId ]}.

Definition skippedResponse (messageId : ostr) : response :=
  {| status := 200; envelope := skippedEnvelope messageId |}.

Definition successEnvelope (chatId : ostr) (result : object) : object :=
  <[ "testMode" := isTestChat chatId ]>
    (result ∪ {[ "success" := VBool true; "agent" := VStr (agent_name this_agent) ]}).

Definition successResponse (chatId : ostr) (result : object) : response :=
  {| status := 200; envelope := successEnvelope chatId result |}.

Definition errorResponse (error : string) : response :=
  {| status := 500;
     envelope := {[ "success" := VBool false; "error" := VStr error ]} |}.

Definition chatStartedResponse (userName : ostr) : response :=
  {| status := 200;
     envelope := {[ "success" := VBool true;
                    "event" := VStr "chat.started";
                    "agent" := VStr (agent_name this_agent);
                    "welcomeMessageSent" := VBool true;
                    "userName" := of_ostr (or_else userName (Str "Anonymous")) ]} |}.

Definition chatStartedErrorResponse (error : string) : response :=
  {| status := 500;
     envelope := {[ "success" := VBool false;
                    "error" := VStr error;
                    "event" := VStr "chat.started" ]} |}.

(** The object [extractWebhookData] returns for a valid payload. *)
Definition dataOf (b : body) : data :=
  {| chatId := chat_id b;
     agentId := agent_id b;
     messageId := message_id b;
     userMessage := or_else (message_content b) (Str "");
     imageUrl := or_else (message_media_url b) Null;
     payload := b |}.

Definition extractWebhookData (b : body) : extracted :=
  if negb (truthy (chat_id b)) then Invalid "Missing chat.id in webhook payload"
  else Valid (dataOf b).

Definition shouldIncludeImagesInHistory : bool := false.
Definition getHistoryLimit : Z := 10.

Definition fetchConversationHistory (d : data) : throwing (list convMessage) :=
  fetchAndProcessHistory (chatId d) (agentId d)
    getHistoryLimit shouldIncludeImagesInHistory.

(** [sendResponse(chatId, result)] *)
Definition sendResponse (chatId : ostr) (result : object) : throwing unit :=
  if truthyV (isTestChat chatId) then ret tt
  else if truthyV (field result "sent") then ret tt
  else if truthyV (field result "imageUrl") then ret tt
  else if truthyV (field result "response") then
    let* _ := helpersSendResponse chatId (field result "response")
                (orV (field result "richContentBlocks") VNull) in
    ret tt
  else ret tt.

Definition getErrorMessage : string :=
  "I apologize, but I encountered an error processing your request. Please try again or contact support if the issue persists.".

(** [handleError(error, req, res)]: whatever the notification attempt
    throws is caught and logged. *)
Definition handleError (error : string) (b : body) : prog response :=
  bind
    (let chatId := chat_id b in
     if truthy chatId && negb (truthyV (isTestChat chatId)) then
       let* _ := await (SendMessage chatId (VStr getErrorMessage) VUndefined) in
       ret tt
     else ret tt)
    (λ _, Ret (errorResponse error)).

(** [handleChatStarted(req, res)] *)
Definition handleChatStarted (b : body) : prog response :=
  bind
    (let chatId := or_else (root_chatId b) (meta_chatId b) in
     let userName := or_else (root_userName b) (meta_userName b) in
     let isAnonymous := orV (root_isAnonymous b) (meta_isAnonymous b) in
     if negb (truthy chatId) then
       ret (validationResponse "Missing chatId in webhook payload")
     else
       let* welcomeMessage := Ret (getWelcomeMessage this_agent userName isAnonymous) in
       let* _ :=
         if negb (truthyV (isTestChat chatId)) then
           let* _ := await (SendMessage chatId (VStr welcomeMessage) VUndefined) in
           ret tt
         else ret tt in
       ret (chatStartedResponse userName))
    (λ o,
       match o with
       | Return r => Ret r
       | Throw error => Ret (chatStartedErrorResponse error)
       end).

(** The steps of [handle] after the duplicate check (steps 3 to 7). *)
Definition handleFresh (d : data) : throwing response :=
  let* _ := helper (MarkMessageProcessed (messageId d)) in
  let* conversation := fetchConversationHistory d in
  let* result := await (ProcessRequest d conversation) in
  let* _ := sendResponse (chatId d) result in
  ret (successResponse (chatId d) result).

(** The [try] block of [handle]. *)
Definition handleTry (b : body) : throwing response :=
  if bool_decide (event b = Str "chat.started") then
    bind (handleChatStarted b) ret
  else
    match extractWebhookData b with
    | Invalid error => ret (validationResponse error)
    | Valid d =>
        let* duplicate := helper (IsDuplicateMessage (messageId d)) in
        if duplicate then ret (skippedResponse (messageId d))
        else handleFresh d
    end.

(** [handle(req, res)] *)
Definition handle (b : body) : prog response :=
  bind (handleTry b)
    (λ o,
       match o with
       | Return r => Ret r
       | Throw error => handleError error b
       end).

End BaseWebhook.

Arguments validationResponse : simpl never.
Arguments skippedResponse : simpl never.
Arguments successResponse : simpl never.
Arguments errorResponse : simpl never.
Arguments chatStartedResponse : simpl never.
Arguments chatStartedErrorResponse : simpl never.
Arguments getErrorMessage : simpl never.

(** *** Running a handler *)

(** What an observer of one invocation sees: the deduplication helpers it
    calls and the collaborators it invokes. *)
Inductive observation : Type :=
  | CallsHelper (c : helperCall)
  | Invokes (c : call).

Definition helperExec (c : helperCall) (now : Z) (pm : processedMessages)
    : helperReply c * processedMessages :=
  match c with
  | IsDuplicateMessage messageId => (isDuplicateMessage messageId pm, pm)
  | MarkMessageProcessed messageId => (tt, markMessageProcessed messageId now pm)
  end.

(** One turn of the event loop: the body runs, at time [now], up to its
    next [await] or to its end.  The call it is suspended on has been made. *)
Fixpoint runSync {R} (now : Z) (pm : processedMessages) (p : prog R)
    : processedMessages * list observation * prog R :=
  match p with
  | Ret r => (pm, [], Ret r)
  | Helper c k =>
      let '(x, pm') := helperExec c now pm in
      let '(pm'', evs, p') := runSync now pm' (k x) in
      (pm'', CallsHelper c :: evs, p')
  | Await c k => (pm, [Invokes c], Await c k)
  end.

(** The collaborators as seen by one invocation: the outcome of its [n]-th
    awaited call. *)
Definition environment : Type := nat → ∀ c : call, outcome string (reply c).

(** A whole run of a body against an environment, from its [n]-th awaited
    call on: the store afterwards, the trace, the number of the next awaited
    call and the value returned. *)
Fixpoint runProg {R} (env : environment) (n : nat) (now : Z) (pm : processedMessages)
    (p : prog R) : processedMessages * list observation * nat * R :=
  match p with
  | Ret r => (pm, [], n, r)
  | Helper c k =>
      let '(x, pm') := helperExec c now pm in
      let '(pm'', evs, n', r) := runProg env n now pm' (k x) in
      (pm'', CallsHelper c :: evs, n', r)
  | Await c k =>
      let '(pm', evs, n', r) := runProg env (S n) now pm (k (env n c)) in
      (pm', Invokes c :: evs, n', r)
  end.

(** A whole invocation of [handle]. *)
Definition run (ag : agent) (env : environment) (now : Z) (pm : processedMessages)
    (b : body) : processedMessages * list observation * response :=
  let '(pm', evs, _, r) := runProg env 0 now pm (handle ag b) in (pm', evs, r).

Definition isHookCall (c : call) : bool :=
  match c with ProcessRequest _ _ => true | _ => false end.

Definition isDeliveryCall (c : call) : bool :=
  match c with SendMessage _ _ _ => true | _ => false end.

Definition isHistoryCall (c : call) : bool :=
  match c with GetMessageHistory _ _ _ => true | _ => false end.

Definition invoked (evs : list observation) : list call :=
  omap (λ e, match e with Invokes c => Some c | _ => None end) evs.

Definition helperCalls (evs : list observation) : list helperCall :=
  omap (λ e, match e with CallsHelper c => Some c | _ => None end) evs.

(** The calls of the domain hook, and of the delivery client, in a trace. *)
Definition hookCalls (evs : list observation) : list call :=
  List.filter isHookCall (invoked evs).

Definition deliveries (evs : list observation) : list call :=
  List.filter isDeliveryCall (invoked evs).

(** [sendResponse] hands the result to the delivery client. *)
Definition deliverable (chatId : ostr) (result : object) : bool :=
  negb (truthyV (isTestChat chatId))
  && negb (truthyV (field result "sent"))
  && negb (truthyV (field result "imageUrl"))
  && truthyV (field result "response").

(** The traces of the steps of the pipeline, for the statements below:
    the history step from the [n]-th awaited call on, with the number of the
    next awaited call and the conversation it yields; the delivery step; and
    the notification of [handleError]. *)
Definition historyStep (env : environment) (n : nat) (d : data)
    : list observation * nat * list convMessage :=
  if negb (truthy (chatId d)) || negb (truthy (agentId d)) then ([], n, [])
  else
    let c := GetMessageHistory (chatId d) getHistoryLimit (agentId d) in
    ([Invokes c], S n,
     match env n c with
     | Return (Some (m :: ms)) =>
         processMessageHistory (m :: ms) (agentId d) shouldIncludeImagesInHistory
     | _ => []
     end).

Definition deliveryTrace (chatId : ostr) (result : object) : list observation :=
  if deliverable chatId result then
    [Invokes (SendMessage chatId (field result "response")
                (orV (field result "richContentBlocks") VNull))]
  else [].

Definition notificationTrace (b : body) : list observation :=
  if truthy (chat_id b) && negb (truthyV (isTestChat (chat_id b))) then
    [Invokes (SendMessage (chat_id b) (VStr getErrorMessage) VUndefined)]
  else [].

(** Successive deliveries of the same request, each at its own time and
    against its own environment: the trace and the response of each. *)
Fixpoint deliverAll (ag : agent) (b : body) (ds : list (environment * Z))
    (pm : processedMessages) : list (list observation * response) :=
  match ds with
  | [] => []
  | (env, now) :: ds' =>
      let '(pm', evs, r) := run ag env now pm b in
      (evs, r) :: deliverAll ag b ds' pm'
  end.

(** Sample agent, requests and environments. *)
Definition sampleAgent : agent :=
  {| agent_name := "Mandy";
     getWelcomeMessage := λ _ _, Return "Hi! I am Mandy." |}.

Definition messageEvent (chat : ostr) (message : ostr) : body :=
  {| event := Str "message.received";
     chat_id := chat;
     agent_id := Str "agent-1";
     message_id := message;
     message_content := Str "hello";
     message_media_url := Undefined;
     root_chatId := Undefined;
     meta_chatId := Undefined;
     root_userName := Undefined;
     meta_userName := Undefined;
     root_isAnonymous := VUndefined;
     meta_isAnonymous := VUndefined |}.

(** Every collaborator answers; the hook replies with a text. *)
Definition answering : environment :=
  λ _ c,
    match c return outcome string (reply c) with
    | GetMessageHistory _ _ _ => Return None
    | ProcessRequest _ _ => Return {[ "response" := VStr "Hello!" ]}
    | SendMessage _ _ _ => Return VNull
    end.

(** The hook throws, and so does the delivery client. *)
Definition failing : environment :=
  λ _ c,
    match c return outcome string (reply c) with
    | GetMessageHistory _ _ _ => Return None
    | ProcessRequest _ _ => Throw "boom"
    | SendMessage _ _ _ => Throw "Request failed with status code 500"
    end.

(** Bodies without calls to the deduplication helpers. *)
Fixpoint asyncOnly {R} (p : prog R) : Prop :=
  match p with
  | Ret _ => True
  | Helper _ _ => False
  | Await _ k => ∀ x, asyncOnly (k x)
  end.

End Webhook.

(** ** Concurrent invocations on the event loop of the process *)

Module EventLoop.
Import Js Dedup Webhook.

(** An invocation of [handle]: the request, the time it arrived, and what
    is left to run ([Await]: suspended on a call; [Ret]: answered). *)
Record task : Type := mkTask {
  t_body : body;
  t_arrival : Z;
  t_code : prog response
}.

(** The process: its clock, the shared [processedMessages], the invocations
    in order of arrival, and what each has done so far. *)
Record system : Type := mkSystem {
  clock : Z;
  store : processedMessages;
  pool : list task;
  log : list (nat * observation)
}.

(** The turns of the event loop.  JavaScript runs each to completion before
    the next one starts: a request arrives and its handler runs up to its
    first [await]; the promise an invocation awaits settles and the
    invocation runs up to its next [await]; the clean-up timer fires; time
    passes (the clock never goes back). *)
Inductive action : Type :=
  | Arrive (b : body)
  | Resume (i : nat) (answer : ∀ c : call, outcome string (reply c))
  | Sweep
  | Tick (ms : nat).

Definition exec (ag : agent) (a : action) (s : system) : system :=
  match a with
  | Arrive b =>
      let '(pm, evs, p) := runSync (clock s) (store s) (handle ag b) in
      {| clock := clock s;
         store := pm;
         pool := pool s ++ [mkTask b (clock s) p];
         log := log s ++ (pair (length (pool s)) <$> evs) |}
  | Resume i answer =>
      match pool s !! i with
      | Some t =>
          match t_code t with
          | Await c k =>
              let '(pm, evs, p) := runSync (clock s) (store s) (k (answer c)) in
              {| clock := clock s;
                 store := pm;
                 pool := <[i := mkTask (t_body t) (t_arrival t) p]> (pool s);
                 log := log s ++ (pair i <$> evs) |}
          | _ => s
          end
      | None => s
      end
  | Sweep =>
      {| clock := clock s;
         store := sweep (clock s) (store s);
         pool := pool s;
         log := log s |}
  | Tick ms =>
      {| clock := clock s + Z.of_nat ms;
         store := store s;
         pool := pool s;
         log := log s |}
  end.

Definition execAll (ag : agent) (acts : list action) (s : system) : system :=
  foldl (λ acc a, exec ag a acc) s acts.

(** The process at start-up. *)
Definition initial (t0 : Z) : system :=
  {| clock := t0; store := ∅; pool := []; log := [] |}.

(** Invocation [i] has marked the message id [m] as processed. *)
Definition marked (s : system) (i : nat) (m : string) : Prop :=
  (i, CallsHelper (MarkMessageProcessed (Str m))) ∈ log s.

(** What holds of the process after every turn: arrivals lie in the past;
    what is left of an invocation calls no deduplication helper; the log
    speaks of invocations of the pool; the mark of a non-empty id stays in
    the store, with a timestamp that is not older, for the expiry period
    after the arrival of the invocation that set it; a message invocation has
    marked its id or has answered without calling any collaborator; and two
    invocations that marked the same id arrived more than the expiry period
    apart. *)
Record invariant (s : system) : Prop := mkInvariant {
  inv_arrival : ∀ i t, pool s !! i = Some t → t_arrival t ≤ clock s;
  inv_async : ∀ i t, pool s !! i = Some t → asyncOnly (t_code t);
  inv_log : ∀ i e, (i, e) ∈ log s → (i < length (pool s))%nat;
  inv_store : ∀ i t m,
    pool s !! i = Some t → marked s i m → m ≠ "" →
    clock s - t_arrival t ≤ MESSAGE_EXPIRY_MS →
    ∃ ts, store s !! m = Some ts ∧ t_arrival t ≤ ts;
  inv_gate : ∀ i t,
    pool s !! i = Some t → event (t_body t) ≠ Str "chat.started" →
    (i, CallsHelper (MarkMessageProcessed (message_id (t_body t)))) ∈ log s
    ∨ ((∃ r, t_code t = Ret r) ∧ ∀ c, (i, Invokes c) ∉ log s);
  inv_apart : ∀ i j ti tj m,
    i ≠ j → pool s !! i = Some ti → pool s !! j = Some tj →
    marked s i m → marked s j m → m ≠ "" →
    MESSAGE_EXPIRY_MS < Z.abs (t_arrival ti - t_arrival tj)
}.

(** Invocation [i] has called the domain hook or the delivery client. *)
Definition invokesHookOrDelivery (s : system) (i : nat) : Prop :=
  ∃ c, (i, Invokes c) ∈ log s ∧ (isHookCall c || isDeliveryCall c) = true.

End EventLoop.

(** ** The other helpers of [services/webhook-helpers.js]: statistics,
    image and request look-back, rich content blocks, payload validation *)

Module Helpers.
Import Js Dedup Webhook.

(** [getDeduplicationStats()] *)
Record stats : Type := mkStats {
  totalTracked : nat;
  expiryMs : Z
}.

Definition getDeduplicationStats (pm : processedMessages) : stats :=
  {| totalTracked := size pm; expiryMs := MESSAGE_EXPIRY_MS |}.

(** [array.slice(start)]: a negative [start] counts from the end, and both
    ends are clamped to the array. *)
Definition slice {A} (start : Z) (l : list A) : list A :=
  let len := Z.of_nat (length l) in
  let k := if start <? 0 then Z.max (len + start) 0 else Z.min start len in
  drop (Z.to_nat k) l.

(** The loop [for (let i = a.length - 1; i >= 0; i--)] that returns at the
    first element for which [f] gives a value, and [null] after the loop:
    [scan] walks the elements in the order the loop visits them. *)
Fixpoint scan {A B} (f : A → option B) (visited : list A) : option B :=
  match visited with
  | [] => None
  | msg :: rest =>
      match f msg with
      | Some b => Some b
      | None => scan f rest
      end
  end.

Definition scanBackwards {A B} (f : A → option B) (a : list A) : option B :=
  scan f (reverse a).

(** [msg.role === 'user' && msg.imageUrl] *)
Definition userImage (msg : convMessage) : option string :=
  match conv_role msg with
  | User =>
      match conv_imageUrl msg with
      | Some u => if negb (String.eqb u "") then Some u else None
      | None => None
      end
  | Assistant => None
  end.

(** [findRecentImage(conversation, lookbackLimit = 5)]; a missing
    conversation is [None]. *)
Definition findRecentImage (conversation : option (list convMessage))
    (lookbackLimit : Z) : option string :=
  match conversation with
  | None => None
  | Some [] => None
  | Some conv => scanBackwards userImage (slice (- lookbackLimit) conv)
  end.

(** [s.includes(keyword)] *)
Definition includes (keyword s : string) : bool :=
  match String.index 0 keyword s with
  | Some _ => true
  | None => false
  end.

(** A link handed to [createSocialShareBlocks], and a rich content block. *)
Record link : Type := mkLink {
  link_platform : ostr;
  link_url : ostr
}.

Record block : Type := mkBlock {
  block_type : string;
  block_platform : string;
  block_url : ostr;
  block_order : nat
}.

(** The result of [validateWebhookPayload]. *)
Record validated : Type := mkValidated {
  v_chatId : ostr;
  v_agentId : ostr;
  v_messageId : ostr;
  v_userMessage : ostr;
  v_payload : body
}.

Record validation : Type := mkValidation {
  valid : bool;
  error : option string;
  validData : option validated
}.

Section CaseFolding.

(** [String.prototype.toLowerCase]. *)
Variable toLowerCase : string → string.

(** The test [isSubstantive] of [extractPreviousMakeupRequest], on the
    lower-cased content. *)
Definition isSubstantive (content : string) : bool :=
  (10 <? String.length content)%nat
  || includes "makeup" content
  || includes "lipstick" content
  || includes "eye" content
  || includes "glam" content
  || includes "natural" content
  || includes "dramatic" content
  || includes "blue" content
  || includes "red" content
  || includes "pink" content
  || includes "slim" content.

(** The body of the loop of [extractPreviousMakeupRequest]. *)
Definition makeupRequest (msg : convMessage) : option string :=
  match conv_role msg with
  | User =>
      if negb (String.eqb (conv_content msg) "")
         && negb (String.eqb (conv_content msg) "[Image]")
      then
        let content := toLowerCase (conv_content msg) in
        if isSubstantive content then Some (conv_content msg) else None
      else None
  | Assistant => None
  end.

(** [extractPreviousMakeupRequest(conversation, lookbackLimit = 10)] *)
Definition extractPreviousMakeupRequest (conversation : option (list convMessage))
    (lookbackLimit : Z) : option string :=
  match conversation with
  | None => None
  | Some [] => None
  | Some conv => scanBackwards makeupRequest (slice (- lookbackLimit) conv)
  end.

(** [createSocialShareBlock(platform, url, order = 0)] *)
Definition createSocialShareBlock (platform : string) (url : ostr) (order : nat) : block :=
  {| block_type := "social_share";
     block_platform := toLowerCase platform;
     block_url := url;
     block_order := order |}.

(** [link.platform || defaultPlatform] *)
Definition platformOf (l : link) (defaultPlatform : string) : string :=
  match link_platform l with
  | Str p => if truthy (link_platform l) then p else defaultPlatform
  | _ => defaultPlatform
  end.

(** [createSocialShareBlocks(links, defaultPlatform = 'tiktok')]; missing
    links are [None]. *)
Definition createSocialShareBlocks (links : option (list link))
    (defaultPlatform : string) : list block :=
  match links with
  | None => []
  | Some [] => []
  | Some ls =>
      imap (λ index l,
              createSocialShareBlock (platformOf l defaultPlatform) (link_url l) index)
           ls
  end.

End CaseFolding.

(** Lower case within ASCII. *)
Definition asciiLower (c : Ascii.ascii) : Ascii.ascii :=
  let n := Ascii.nat_of_ascii c in
  if ((65 <=? n) && (n <=? 90))%nat then Ascii.ascii_of_nat (n + 32) else c.

Fixpoint asciiToLowerCase (s : string) : string :=
  match s with
  | EmptyString => EmptyString
  | String c s' => String (asciiLower c) (asciiToLowerCase s')
  end.

(** [validateWebhookPayload(body)] *)
Definition validateWebhookPayload (b : body) : validation :=
  if negb (truthy (chat_id b)) then
    {| valid := false;
       error := Some "Missing chat.id in webhook payload";
       validData := None |}
  else if negb (truthy (message_content b)) then
    {| valid := false;
       error := Some "Missing message.content in webhook payload";
       validData := None |}
  else
    {| valid := true;
       error := None;
       validData := Some {| v_chatId := chat_id b;
                            v_agentId := agent_id b;
                            v_messageId := message_id b;
                            v_userMessage := message_content b;
                            v_payload := b |} |}.

(** An entry without its [imageUrl]. *)
Definition forgetImage (e : convMessage) : convMessage :=
  {| conv_role := conv_role e; conv_content := conv_content e; conv_imageUrl := None |}.

End Helpers.

(** ** Profiles, matches and per-question responses
    ([services/group-profile-storage.js]) *)

Module Storage.
Import Js.

(** The three JSON files are read and written without error; each function
    gets the contents of its file and returns the contents it writes. *)

(** A group profile of [group-profiles.json]: the fields the storage reads
    or writes, and the other fields of the object ([answers], [metadata],
    ...), which it copies. *)
Record profile : Type := mkProfile {
  groupName : ostr;
  profile_chatId : ostr;
  profile_id : ostr;
  profile_createdAt : ostr;
  profileVersion : ostr;
  profile_fields : gmap string string
}.

(** A match of [matches.json].  [compatibility] is [None] when the field is
    missing or [null]. *)
Record matchResult : Type := mkMatchResult {
  group1Name : string;
  group2Name : string;
  matchedAt : ostr;
  match_id : ostr;
  compatibility : option string;
  match_fields : gmap string string
}.

(** The [groupResponseState] object of a chat: [responses] maps a question
    number to the object that maps a user id to the response text. *)
Record groupResponseState : Type := mkGroupResponseState {
  groupSize : Z;
  userIds : list string;
  currentQuestionNumber : Z;
  responses : gmap Z (gmap string string)
}.

(** An entry of [interview-state.json] as the functions below see it: the
    part the tracker works on, and the [groupResponseState] object. *)
Record chatEntry : Type := mkChatEntry {
  interview : Tracker.interviewState;
  entry_groupResponseState : option groupResponseState
}.

Abbreviation interviewFile := (gmap string chatEntry).

(** What the per-question [recordUserResponse] returns; [respondedUsers]
    is [Object.keys] of the responses, as a set. *)
Record recorded : Type := mkRecorded {
  allResponded : bool;
  remainingCount : Z;
  respondedUsers : option (gset string)
}.

(** The error of reading a property of [undefined] or [null]. *)
Inductive storageError : Type := TypeError.

(** [array.findIndex(p)]: the first index, [None] for [-1]. *)
Fixpoint findIndex {A} (p : A → bool) (l : list A) : option nat :=
  match l with
  | [] => None
  | x :: l' => if p x then Some O else S <$> findIndex p l'
  end.

(** *** Profiles *)

Definition saveGroupProfile (p : profile) (suffix nowIso : string)
    (groups : list profile) : profile * list profile :=
  let fullProfile :=
    {| groupName := groupName p;
       profile_chatId := profile_chatId p;
       profile_id := Str ("group_" +:+ suffix);
       profile_createdAt := Str nowIso;
       profileVersion := Str "1.0";
       profile_fields := profile_fields p |} in
  (fullProfile, groups ++ [fullProfile]).

Definition getAllProfiles (groups : list profile) : list profile := groups.

(** [profiles.groups.find(g => g.chatId === chatId) || null] *)
Definition getProfileByChatId (chatId : string) (groups : list profile)
    : option profile :=
  List.find (λ g, bool_decide (profile_chatId g = Str chatId)) groups.

(** *** Responses per question *)

Definition getGroupResponseState (chatId : string) (f : interviewFile)
    : option groupResponseState :=
  match f !! chatId with
  | Some e => entry_groupResponseState e
  | None => None
  end.

Definition setGroupResponseState (chatId : string) (responseState : groupResponseState)
    (f : interviewFile) : interviewFile :=
  let e :=
    match f !! chatId with
    | Some e => e
    | None =>
        {| interview := {| Tracker.interviewFields := ∅;
                           Tracker.questionResponseTracking := None |};
           entry_groupResponseState := None |}
    end in
  <[chatId := {| interview := interview e;
                 entry_groupResponseState := Some responseState |}]> f.


Definition recordUserResponse (chatId userId response : string) (f : interviewFile)
    : recorded * interviewFile :=
  match getGroupResponseState chatId f with
  | None =>
      ({| allResponded := false; remainingCount := -1; respondedUsers := None |}, f)
  | Some responseState =>
      let questionNum := currentQuestionNumber responseState in
      let answers :=
        <[userId := response]> (default ∅ (responses responseState !! questionNum)) in
      let responseState :=
        {| groupSize := groupSize responseState;
           userIds := userIds responseState;
           currentQuestionNumber := questionNum;
           responses := <[questionNum := answers]> (responses responseState) |} in
      let remainingCount := groupSize responseState - Z.of_nat (size answers) in
      ({| allResponded := remainingCount <=? 0;
          remainingCount := remainingCount;
          respondedUsers := Some (dom answers) |},
       setGroupResponseState chatId responseState f)
  end.






(** *** Matches *)

(** The test of [saveMatch] for "same pair". *)
Definition samePair (match_ m : matchResult) : bool :=
  (String.eqb (group1Name m) (group1Name match_)
   && String.eqb (group2Name m) (group2Name match_))
  || (String.eqb (group1Name m) (group2Name match_)
      && String.eqb (group2Name m) (group1Name match_)).

(** The object [matchToSave] of [saveMatch]. *)
Definition matchToSave (match_ : matchResult) (nowIso suffix : string) : matchResult :=
  {| group1Name := group1Name match_;
     group2Name := group2Name match_;
     matchedAt := or_else (matchedAt match_) (Str nowIso);
     match_id := or_else (match_id match_) (Str ("match_" +:+ suffix));
     compatibility := compatibility match_;
     match_fields := match_fields match_ |}.

(** [saveMatch(match)]: what the call returns and the file afterwards.  The
    closing log line reads [match.compatibility.percentage], so that the
    call throws, after the file has been written, when [compatibility] is
    missing. *)
Definition saveMatch (match_ : matchResult) (nowIso suffix : string)
    (matches : list matchResult) : outcome storageError matchResult * list matchResult :=
  let existingIndex := findIndex (samePair match_) matches in
  let matchToSave := matchToSave match_ nowIso suffix in
  let matches :=
    match existingIndex with
    | Some i => <[i := matchToSave]> matches
    | None => matches ++ [matchToSave]
    end in
  (match compatibility match_ with
   | Some _ => Return matchToSave
   | None => Throw TypeError
   end,
   matches).

Definition getAllMatches (matches : list matchResult) : list matchResult := matches.

Section CaseFolding.

(** [String.prototype.toLowerCase]. *)
Variable toLowerCase : string → string.

(** [g.groupName && g.groupName.toLowerCase() === groupName.toLowerCase()] *)
Definition named (name : string) (g : profile) : bool :=
  match groupName g with
  | Str n =>
      truthy (groupName g) && String.eqb (toLowerCase n) (toLowerCase name)
  | _ => false
  end.

Definition groupNameExists (name : string) (groups : list profile) : bool :=
  existsb (named name) groups.

Definition getProfileByGroupName (name : string) (groups : list profile)
    : option profile :=
  List.find (named name) groups.

Definition getMatchesForGroup (name : string) (matches : list matchResult)
    : list matchResult :=
  List.filter
    (λ m, String.eqb (toLowerCase (group1Name m)) (toLowerCase name)
          || String.eqb (toLowerCase (group2Name m)) (toLowerCase name))
    (getAllMatches matches).

End CaseFolding.

(** No two entries of the file are for the same pair of groups. *)
Definition onePerPair (ms : list matchResult) : Prop :=
  ∀ i j mi mj,
    ms !! i = Some mi → ms !! j = Some mj → samePair mi mj = true → i = j.




End Storage.

(** ** The tracker as the statements below read it *)

Module TrackerViews.
Import Js Tracker.

(** The body of the [forEach] of [getUniqueUserIds]. *)
Definition countSender (agentId : ostr) (userIds : list string) (msg : rawSender)
    : list string :=
  match rs_senderId msg with
  | Str s =>
      if truthy (rs_senderId msg)
         && negb (bool_decide (rs_senderId msg = agentId))
         && negb (rs_isAgent msg)
      then set_add s userIds else userIds
  | _ => userIds
  end.

(** A message counts for the user id [u]. *)
Definition sentBy (agentId : ostr) (u : string) (msg : rawSender) : Prop :=
  rs_senderId msg = Str u ∧ u ≠ "" ∧ Str u ≠ agentId ∧ rs_isAgent msg = false.

(** The ids that answered, in the order of their first answer. *)
Definition answered (us : list string) : list string :=
  foldl (λ acc u, set_add u acc) [] us.

(** The calls that ask a question. *)
Definition isStart (o : trackerOp) : bool :=
  match o with OpStart _ _ _ => true | _ => false end.

(** A question is being tracked for [chatId]: [expected] are the ids it
    waits for, [responded] those that have answered. *)
Definition asking (chatId : string) (expected responded : list string)
    (f : stateFile) : Prop :=
  ∃ q ts n,
    q ≠ ""
    ∧ getResponseState chatId f =
      {| currentQuestionId := Some q;
         currentQuestionTimestamp := ts;
         expectedUserIds := expected;
         respondedUserIds := responded;
         questionCount := n |}.

End TrackerViews.

(** ** Callers: the group flow of [test-group-webhook-flow.js], the
    [sendResponse] of [webhooks/mandy-webhook.js], and the construction of
    the client ([core/BaseA1ZapClient.js]) *)

Module GroupFlow.
Import Js Tracker.

Inductive reason : Type :=
  | Individual
  | Waiting
  | AllResponded
  | QuestionAsked.

(** The object [simulateWebhookProcessing] returns. *)
Record decision : Type := mkDecision {
  shouldRespond : bool;
  why : reason;
  remainingCount : option Z;
  startedTracking : bool
}.

(** [simulateWebhookProcessing(webhookData)] for a message of [senderId]
    in [chatId] with the raw history [rawHistory]; [agentId] is the
    constant [AGENT_ID], [now] and [suffix] are what
    [startQuestionTracking] reads from the clock and the random source. *)
Definition simulateWebhookProcessing (agentId : ostr) (chatId senderId : string)
    (rawHistory : list rawSender) (now : Z) (suffix : string) (f : stateFile)
    : decision * stateFile :=
  let uniqueUserIds := getUniqueUserIds rawHistory agentId in
  let groupSize := length uniqueUserIds in
  let isGroup := (1 <? groupSize)%nat in
  if negb isGroup then
    ({| shouldRespond := true; why := Individual;
        remainingCount := None; startedTracking := false |}, f)
  else if isWaitingForResponses chatId f then
    let '((allResponded, _), f) := recordUserResponse chatId senderId f in
    let state := getResponseState chatId f in
    let remaining :=
      Z.of_nat (length (expectedUserIds state))
      - Z.of_nat (length (respondedUserIds state)) in
    if negb allResponded then
      ({| shouldRespond := false; why := Waiting;
          remainingCount := Some remaining; startedTracking := false |}, f)
    else
      ({| shouldRespond := true; why := AllResponded;
          remainingCount := None; startedTracking := false |},
       clearQuestionTracking chatId f)
  else
    let userIdsArray := uniqueUserIds in
    ({| shouldRespond := true; why := QuestionAsked;
        remainingCount := None; startedTracking := true |},
     (startQuestionTracking chatId userIdsArray now suffix f).2).

(** The messages of a chat, one after the other: the sender of each, with
    the clock and the random text its handling may read.  The decisions are
    listed in the order of the messages. *)
Fixpoint simulateAll (agentId : ostr) (chatId : string) (rawHistory : list rawSender)
    (messages : list (string * Z * string)) (f : stateFile)
    : list decision * stateFile :=
  match messages with
  | [] => ([], f)
  | (senderId, now, suffix) :: rest =>
      let '(d, f) := simulateWebhookProcessing agentId chatId senderId rawHistory now suffix f in
      let '(ds, f) := simulateAll agentId chatId rawHistory rest f in
      (d :: ds, f)
  end.

End GroupFlow.

Module Mandy.
Import Js Dedup Webhook.
Local Open Scope prog_scope.

Definition retryMessage : string :=
  "I'm having trouble right now, but I'm here! Could you repeat that? 😊".

Definition fallbackMessage : string :=
  "Hmm, I'm having a moment! Could you say that again? 😅".

(** [MandyWebhook.sendResponse(chatId, result)], the override of
    [BaseWebhook.sendResponse]. *)
Definition sendResponse (chatId : ostr) (result : object) : throwing unit :=
  if truthyV (isTestChat chatId) then ret tt
  else if truthyV (field result "sent") then ret tt
  else if truthyV (field result "imageUrl") then ret tt
  else if truthyV (field result "response") then
    tryCatch
      (let* _ := helpersSendResponse chatId (field result "response")
                   (orV (field result "richContentBlocks") VNull) in
       ret tt)
      (λ _,
         tryCatch
           (let* _ := helpersSendResponse chatId (VStr retryMessage) VNull in
            ret tt)
           (λ _, ret tt))
  else
    tryCatch
      (let* _ := helpersSendResponse chatId (VStr fallbackMessage) VNull in
       ret tt)
      (λ _, ret tt).

(** The call of the delivery client that [sendResponse] makes for a result
    it has to send: the response of the result with its rich content
    blocks, or the fallback text when the result has no response. *)
Definition delivery (chatId : ostr) (result : object) : call :=
  if truthyV (field result "response") then
    SendMessage chatId (field result "response")
      (orV (field result "richContentBlocks") VNull)
  else SendMessage chatId (VStr fallbackMessage) VNull.

End Mandy.

Module ClientSetup.
Import Js Client.

(** The [config] object handed to the constructor. *)
Record options : Type := mkOptions {
  opt_apiKey : ostr;
  opt_agentId : ostr;
  opt_apiUrl : ostr;
  opt_agentName : ostr
}.

Definition text (v : ostr) : string :=
  match v with
  | Str s => s
  | _ => ""
  end.

(** [new BaseA1ZapClient(config)] *)
Definition construct (config : options) : outcome string Client.config :=
  if negb (truthy (opt_apiKey config)) then Throw "A1Zap API key is required"
  else if negb (truthy (opt_agentId config)) then Throw "A1Zap agent ID is required"
  else if negb (truthy (opt_apiUrl config)) then Throw "A1Zap API URL is required"
  else
    Return {| apiKey := text (opt_apiKey config);
              agentId := text (opt_agentId config);
              apiUrl := text (opt_apiUrl config);
              agentName := text (or_else (opt_agentName config) (Str "unknown")) |}.

(** The placeholder texts [_validateApiKey] looks for in a value that is
    not empty. *)
Definition placeholderText (v : string) : bool :=
  startsWith "your_" v
  || startsWith "YOUR_" v
  || String.eqb v "undefined"
  || String.eqb v "null".

(** A configured client. *)
Definition configured : config :=
  {| apiKey := "k-0123456789abcdef";
     agentId := "agent-1";
     apiUrl := "https://api.a1zap.com/v1/messages/individual";
     agentName := "mandy" |}.

End ClientSetup.

(** * Properties *)

(** ** Truthiness *)

Module JsFacts.
Import Js.

Lemma truthy_Str s : truthy (Str s) = true ↔ s ≠ "".
Proof.
  simpl. rewrite negb_true_iff. split.
  - intros H ->. by rewrite String.eqb_refl in H.
  - intros H. by apply String.eqb_neq.
Qed.

Lemma truthy_inv v : truthy v = true → ∃ s, v = Str s ∧ s ≠ "".
Proof.
  destruct v as [| |s]; simpl; try discriminate.
  intros H. exists s. split; [done|]. by apply truthy_Str.
Qed.

End JsFacts.

(** ** Deduplication store *)

Module DedupFacts.
Import Js JsFacts Dedup.

Lemma sweep_lookup now pm k :
  sweep now pm !! k =
  match pm !! k with
  | Some ts => if decide (now - ts > MESSAGE_EXPIRY_MS) then None else Some ts
  | None => None
  end.
Proof.
  unfold sweep. rewrite map_lookup_filter.
  destruct (pm !! k) as [ts|] eqn:E; simpl; [|done].
  case_guard; case_decide; simpl in *; try done; lia.
Qed.

Lemma isDuplicate_Str s pm :
  s ≠ "" → isDuplicateMessage (Str s) pm = bool_decide (is_Some (pm !! s)).
Proof.
  intros Hs. unfold isDuplicateMessage.
  by rewrite (proj2 (truthy_Str s) Hs).
Qed.

Lemma mark_Str s now pm :
  s ≠ "" → markMessageProcessed (Str s) now pm = <[s := now]> pm.
Proof.
  intros Hs. unfold markMessageProcessed.
  by rewrite (proj2 (truthy_Str s) Hs).
Qed.

Lemma isDuplicate_falsy v pm : truthy v = false → isDuplicateMessage v pm = false.
Proof. destruct v; simpl; try done. by intros ->. Qed.

Lemma mark_falsy v now pm : truthy v = false → markMessageProcessed v now pm = pm.
Proof. destruct v; simpl; try done. by intros ->. Qed.

Lemma mark_lookup_ne k m now pm :
  k ≠ m → markMessageProcessed (Str k) now pm !! m = pm !! m.
Proof.
  intros Hk. unfold markMessageProcessed.
  destruct (truthy (Str k)); [by rewrite lookup_insert_ne|done].
Qed.

Lemma run_other_lookup_None m (o : other_op m) pm :
  pm !! m = None → run_other o pm !! m = None.
Proof.
  intros Hm. destruct o as [k now Hk|now]; cbn [run_other].
  - by rewrite mark_lookup_ne.
  - by rewrite sweep_lookup, Hm.
Qed.

Lemma run_others_lookup_None m (os : list (other_op m)) pm :
  pm !! m = None → run_others os pm !! m = None.
Proof.
  revert pm. induction os as [|o os IH]; intros pm Hm; simpl; [done|].
  by apply IH, run_other_lookup_None.
Qed.

(** The entry of [m] is never refreshed by foreign operations: it keeps its
    timestamp or disappears. *)
Lemma run_others_lookup m (os : list (other_op m)) pm ts :
  pm !! m = Some ts →
  run_others os pm !! m = Some ts ∨ run_others os pm !! m = None.
Proof.
  revert pm. induction os as [|o os IH]; intros pm Hm; simpl; [by left|].
  destruct (run_other o pm !! m) as [ts'|] eqn:E.
  - assert (ts' = ts) as ->; [|by apply IH].
    destruct o as [k now Hk|now]; cbn [run_other] in E.
    + rewrite mark_lookup_ne in E by done. congruence.
    + rewrite sweep_lookup, Hm in E. case_decide; congruence.
  - right. by apply run_others_lookup_None.
Qed.

End DedupFacts.

(** ** Group response tracking *)

Module TrackerFacts.
Import Js Tracker.

Lemma getResponseState_save c t f :
  getResponseState c (saveResponseState c t f) = t.
Proof.
  unfold getResponseState, saveResponseState, getInterviewState, setInterviewState.
  by rewrite lookup_insert_eq.
Qed.

Lemma getResponseState_save_ne c c' t f :
  c ≠ c' → getResponseState c' (saveResponseState c t f) = getResponseState c' f.
Proof.
  intros Hne.
  unfold getResponseState, saveResponseState, getInterviewState, setInterviewState.
  by rewrite lookup_insert_ne.
Qed.

Lemma getResponseState_start c expected now suffix f :
  getResponseState c (startQuestionTracking c expected now suffix f).2 =
  (startQuestionTracking c expected now suffix f).1.
Proof. unfold startQuestionTracking. simpl. apply getResponseState_save. Qed.

Lemma getResponseState_clear c f :
  getResponseState c (clearQuestionTracking c f) =
  {| currentQuestionId := None;
     currentQuestionTimestamp := None;
     expectedUserIds := [];
     respondedUserIds := [];
     questionCount := questionCount (getResponseState c f) |}.
Proof.
  unfold clearQuestionTracking, getResponseState at 1, getInterviewState,
    setInterviewState.
  rewrite lookup_insert_eq. simpl. f_equal.
  unfold getResponseState, interviewStateOrEmpty, getInterviewState.
  destruct (f !! c) as [st|]; simpl; [|done].
  by destruct (questionResponseTracking st).
Qed.

(** What [recordUserResponse] leaves in the file for its chat. *)
Lemma getResponseState_record c u f :
  getResponseState c (recordUserResponse c u f).2 =
  let t := getResponseState c f in
  if noQuestion t then t
  else if bool_decide (u ∈ respondedUserIds t) then t
  else {| currentQuestionId := currentQuestionId t;
          currentQuestionTimestamp := currentQuestionTimestamp t;
          expectedUserIds := expectedUserIds t;
          respondedUserIds := respondedUserIds t ++ [u];
          questionCount := questionCount t |}.
Proof.
  unfold recordUserResponse. simpl.
  destruct (noQuestion (getResponseState c f)); simpl; [done|].
  destruct (bool_decide (u ∈ respondedUserIds (getResponseState c f))); simpl; [done|].
  apply getResponseState_save.
Qed.

(** The value [recordUserResponse] returns describes the stored state. *)
Lemma recordUserResponse_returns_stored c u f :
  (recordUserResponse c u f).1.2 = getResponseState c (recordUserResponse c u f).2.
Proof.
  rewrite getResponseState_record. unfold recordUserResponse. simpl.
  destruct (noQuestion (getResponseState c f)); simpl; [done|].
  by destruct (bool_decide (u ∈ respondedUserIds (getResponseState c f))).
Qed.

(** *** Inclusion of the responded ids in the expected ids *)

Lemma start_respondedWithinExpected c expected now suffix f :
  respondedWithinExpected
    (getResponseState c (startQuestionTracking c expected now suffix f).2).
Proof.
  rewrite getResponseState_start. intros u Hu. simpl in Hu. by apply elem_of_nil in Hu.
Qed.

Lemma clear_respondedWithinExpected c f :
  respondedWithinExpected (getResponseState c (clearQuestionTracking c f)).
Proof.
  rewrite getResponseState_clear. intros u Hu. simpl in Hu. by apply elem_of_nil in Hu.
Qed.

(** A response of an expected participant keeps the inclusion. *)
Lemma record_expected_respondedWithinExpected c u f :
  respondedWithinExpected (getResponseState c f) →
  u ∈ expectedUserIds (getResponseState c f) →
  respondedWithinExpected (getResponseState c (recordUserResponse c u f).2).
Proof.
  intros Hinv Hu. rewrite getResponseState_record. simpl.
  destruct (noQuestion _); [done|].
  destruct (bool_decide _); [done|].
  intros v Hv. simpl in *. apply elem_of_app in Hv as [Hv|Hv]; [by apply Hinv|].
  apply list_elem_of_singleton in Hv. by subst.
Qed.

(** A response of anybody else, while a question is active, breaks it. *)
Lemma record_outsider_not_within c u f :
  noQuestion (getResponseState c f) = false →
  u ∉ expectedUserIds (getResponseState c f) →
  ¬ respondedWithinExpected (getResponseState c (recordUserResponse c u f).2).
Proof.
  intros Hq Hu Hinv. rewrite getResponseState_record in Hinv. simpl in Hinv.
  rewrite Hq in Hinv.
  destruct (bool_decide (u ∈ respondedUserIds (getResponseState c f))) eqn:E.
  - apply bool_decide_eq_true in E. by apply Hu, Hinv.
  - apply Hu. specialize (Hinv u). simpl in Hinv. apply Hinv.
    apply elem_of_app. right. by apply list_elem_of_singleton.
Qed.

(** The responded list never holds an id twice. *)
Lemma runOp_NoDup_responded c o f :
  NoDup (respondedUserIds (getResponseState c f)) →
  NoDup (respondedUserIds (getResponseState c (runOp c o f))).
Proof.
  intros Hnd. destruct o as [expected now suffix|u|]; cbn [runOp].
  - rewrite getResponseState_start. simpl. constructor.
  - rewrite getResponseState_record. simpl.
    destruct (noQuestion _); [done|].
    destruct (bool_decide _) eqn:E; [done|]. simpl.
    apply bool_decide_eq_false in E.
    apply NoDup_app. split_and!; [done| |apply NoDup_singleton].
    intros v Hv Hv'. apply list_elem_of_singleton in Hv'. by subst.
  - rewrite getResponseState_clear. simpl. constructor.
Qed.

Lemma runOps_NoDup_responded c os f :
  NoDup (respondedUserIds (getResponseState c f)) →
  NoDup (respondedUserIds (getResponseState c (runOps c os f))).
Proof.
  revert f. induction os as [|o os IH]; intros f Hnd; simpl; [done|].
  by apply IH, runOp_NoDup_responded.
Qed.

(** [getUniqueUserIds] lists every id once, so the webhook's
    [Array.from(uniqueUserIds)] is a duplicate-free expected list. *)
Lemma set_add_NoDup x s : NoDup s → NoDup (set_add x s).
Proof.
  intros Hs. unfold set_add. case_bool_decide; [done|].
  apply NoDup_app. split_and!; [done| |apply NoDup_singleton].
  intros v Hv Hv'. apply list_elem_of_singleton in Hv'. by subst.
Qed.

Lemma getUniqueUserIds_NoDup rawHistory agentId :
  NoDup (getUniqueUserIds rawHistory agentId).
Proof.
  unfold getUniqueUserIds.
  assert (∀ acc, NoDup acc → NoDup (foldl (λ userIds msg,
           match rs_senderId msg with
           | Str s =>
               if truthy (rs_senderId msg)
                  && negb (bool_decide (rs_senderId msg = agentId))
                  && negb (rs_isAgent msg)
               then set_add s userIds else userIds
           | _ => userIds
           end) acc rawHistory)) as H; [|apply H; constructor].
  induction rawHistory as [|msg l IH]; intros acc Hacc; simpl; [done|].
  apply IH. destruct (rs_senderId msg); try done.
  destruct (_ && _); [by apply set_add_NoDup|done].
Qed.

(** *** Waiting *)

Lemma isWaitingForResponses_counts c f :
  isWaitingForResponses c f = true ↔
  currentQuestionId (getResponseState c f) ≠ None
  ∧ (0 < length (expectedUserIds (getResponseState c f)))%nat
  ∧ (length (respondedUserIds (getResponseState c f))
       < length (expectedUserIds (getResponseState c f)))%nat.
Proof.
  unfold isWaitingForResponses. simpl.
  rewrite !andb_true_iff, bool_decide_eq_true, !Nat.ltb_lt. tauto.
Qed.

(** On duplicate-free lists that satisfy the inclusion, comparing the
    lengths decides proper inclusion. *)
Lemma length_lt_properSubset t :
  respondedWithinExpected t →
  NoDup (expectedUserIds t) →
  NoDup (respondedUserIds t) →
  (length (respondedUserIds t) < length (expectedUserIds t))%nat ↔ properSubset t.
Proof.
  intros Hinc Hexp Hresp. split.
  - intros Hlt. split; [done|].
    destruct (decide (Forall (λ u, u ∈ respondedUserIds t) (expectedUserIds t)))
      as [Hall|Hex].
    + exfalso. rewrite Forall_forall in Hall.
      assert (length (expectedUserIds t) ≤ length (respondedUserIds t))%nat; [|lia].
      apply submseteq_length, NoDup_submseteq; [done|].
      intros u Hu. by apply Hall.
    + apply not_Forall_Exists in Hex; [|apply _].
      apply Exists_exists in Hex as (u & Hu & Hn). by exists u.
  - intros [_ (u & Hu & Hn)].
    assert (length (u :: respondedUserIds t) ≤ length (expectedUserIds t))%nat
      as Hle; [|simpl in Hle; lia].
    apply submseteq_length, NoDup_submseteq.
    + by constructor.
    + intros v Hv. apply elem_of_cons in Hv as [->|Hv]; [done|by apply Hinc].
Qed.

End TrackerFacts.

(** ** Group response tracking: the specified properties *)

Module TrackerSpec.
Import Js Tracker TrackerFacts.

(** The chat of the examples: a question posed to the participants [A] and
    [B], then a message of [X], who joined after the question was posed. *)
Definition asked : stateFile :=
  (startQuestionTracking "chat" ["A"; "B"] 0 "0_abc" ∅).2.

Definition askedThenOutsider : stateFile :=
  (recordUserResponse "chat" "X" asked).2.

Lemma askedThenOutsider_state :
  getResponseState "chat" askedThenOutsider =
  {| currentQuestionId := Some "question_0_abc";
     currentQuestionTimestamp := Some 0;
     expectedUserIds := ["A"; "B"];
     respondedUserIds := ["X"];
     questionCount := 1 |}.
Proof. vm_compute. reflexivity. Qed.

(** C2, at the failing input.  [startQuestionTracking] yields a state in
    which every responded id is an expected id, but
    [recordUserResponse(chatId, "X")] for a user [X] outside
    [expectedUserIds = [A, B]] stores [respondedUserIds = [X]]: the responded
    ids are no longer among the expected ids. *)
Theorem recordUserResponse_unexpected_user_breaks_inclusion :
  respondedWithinExpected (getResponseState "chat" asked)
  ∧ (recordUserResponse "chat" "X" asked).1.1 = false
  ∧ expectedUserIds (getResponseState "chat" askedThenOutsider) = ["A"; "B"]
  ∧ respondedUserIds (getResponseState "chat" askedThenOutsider) = ["X"]
  ∧ ¬ respondedWithinExpected (getResponseState "chat" askedThenOutsider).
Proof.
  split_and!.
  - apply start_respondedWithinExpected.
  - vm_compute. reflexivity.
  - by rewrite askedThenOutsider_state.
  - by rewrite askedThenOutsider_state.
  - rewrite askedThenOutsider_state. intros H.
    assert ("X" ∉ ["A"; "B"]) as Hout by compute_done.
    apply Hout, H. simpl. compute_done.
Qed.

(** C3, counterexample.  After a question to [A] and [B] and a message of
    the outsider [X], [isWaitingForResponses] returns [true] although
    [respondedUserIds = [X]] is not a subset of [expectedUserIds = [A, B]]. *)
Lemma isWaitingForResponses_not_proper_subset :
  ¬ (isWaitingForResponses "chat" askedThenOutsider = true ↔
     currentQuestionId (getResponseState "chat" askedThenOutsider) ≠ None
     ∧ properSubset (getResponseState "chat" askedThenOutsider)).
Proof.
  intros [Hwait _].
  destruct Hwait as [_ [Hinc _]]; [vm_compute; reflexivity|].
  rewrite askedThenOutsider_state in Hinc.
  assert ("X" ∉ ["A"; "B"]) as Hout by compute_done.
  apply Hout, Hinc. simpl. compute_done.
Qed.

(** C3, as amended.  For every chat whose stored [respondedUserIds] and
    [expectedUserIds] list each id once and in which every responded id is
    an expected id, [isWaitingForResponses(chatId)] returns [true] if and
    only if a question is active ([currentQuestionId] is not [null]) and
    [respondedUserIds] is a proper subset of [expectedUserIds]; and whenever
    [expectedUserIds] is empty it returns [false], whatever
    [respondedUserIds] holds and whatever calls produced the state. *)
Theorem isWaitingForResponses_spec (chatId : string) (f : stateFile) :
  let t := getResponseState chatId f in
  (respondedWithinExpected t →
   NoDup (expectedUserIds t) →
   NoDup (respondedUserIds t) →
   (isWaitingForResponses chatId f = true ↔
      currentQuestionId t ≠ None ∧ properSubset t))
  ∧ (expectedUserIds t = [] → isWaitingForResponses chatId f = false).
Proof.
  intros t. split.
  - intros Hinc Hexp Hresp.
    rewrite isWaitingForResponses_counts. fold t.
    rewrite <- (length_lt_properSubset t) by done.
    split; [tauto|]. intros [? ?]. split_and!; [done|lia|done].
  - intros Hexp. unfold isWaitingForResponses. fold t. rewrite Hexp. simpl.
    by rewrite andb_false_r.
Qed.

(** The amended C3 on a chat in which [A] of the expected [A], [B] has
    answered: the tracker waits, and [[A]] is a proper subset of [[A; B]];
    on a chat that was never tracked it does not wait. *)
Lemma isWaitingForResponses_spec_witness :
  let f := (recordUserResponse "chat" "A" asked).2 in
  (isWaitingForResponses "chat" f = true ↔
     currentQuestionId (getResponseState "chat" f) ≠ None
     ∧ properSubset (getResponseState "chat" f))
  ∧ isWaitingForResponses "chat" f = true
  ∧ isWaitingForResponses "other" f = false.
Proof.
  intros f.
  assert (getResponseState "chat" f =
          {| currentQuestionId := Some "question_0_abc";
             currentQuestionTimestamp := Some 0;
             expectedUserIds := ["A"; "B"];
             respondedUserIds := ["A"];
             questionCount := 1 |}) as Hst by (vm_compute; reflexivity).
  destruct (isWaitingForResponses_spec "chat" f) as (Hset & _).
  destruct (isWaitingForResponses_spec "other" f) as (_ & Hempty).
  split_and!.
  - apply Hset; rewrite Hst; simpl.
    + intros u Hu. apply list_elem_of_singleton in Hu as ->. compute_done.
    + compute_done.
    + compute_done.
  - vm_compute. reflexivity.
  - apply Hempty. vm_compute. reflexivity.
Defined.

(** C10.  If no question is tracked for a chat ([currentQuestionId] is
    [null]), [recordUserResponse(chatId, userId)] returns
    [allResponded: false] together with the unchanged tracking state, and
    leaves the state file as it was: no user is added and nothing is saved. *)
Theorem recordUserResponse_no_question (chatId userId : string) (f : stateFile) :
  currentQuestionId (getResponseState chatId f) = None →
  recordUserResponse chatId userId f = ((false, getResponseState chatId f), f).
Proof.
  intros Hq. unfold recordUserResponse, noQuestion. by rewrite Hq.
Qed.

Lemma recordUserResponse_no_question_witness :
  currentQuestionId (getResponseState "chat" (clearQuestionTracking "chat" asked)) = None
  ∧ recordUserResponse "chat" "A" (clearQuestionTracking "chat" asked) =
    ((false, getResponseState "chat" (clearQuestionTracking "chat" asked)),
     clearQuestionTracking "chat" asked).
Proof.
  assert (currentQuestionId
            (getResponseState "chat" (clearQuestionTracking "chat" asked)) = None)
    as H by (rewrite getResponseState_clear; reflexivity).
  split; [exact H|].
  exact (recordUserResponse_no_question "chat" "A" _ H).
Defined.

End TrackerSpec.

(** ** Outbound delivery *)

Module ClientFacts.
Import Js Client.

(** The errors [sendMessage] classifies as transient. *)
Lemma isRetryable_spec status code :
  isRetryable (AxiosError status code) = true ↔
  (∃ st, status = Some st ∧ (500 ≤ st ∨ st = 429))
  ∨ code = Some "ECONNRESET" ∨ code = Some "ETIMEDOUT" ∨ code = Some "ENOTFOUND".
Proof.
  unfold isRetryable.
  rewrite !orb_true_iff, !bool_decide_eq_true. split.
  - intros [[[[H|H]|H]|H]|H]; try tauto.
    + destruct status as [st|]; [|done]. left. exists st. split; [done|]. left. lia.
    + destruct status as [st|]; [|done]. left. exists st. split; [done|]. right. lia.
  - intros [(st & -> & [H|H])|[H|[H|H]]]; try tauto.
    + left. left. left. left. lia.
    + left. left. left. right. lia.
Qed.

(** On HTTP status codes, the transient ones are the 5xx and 429. *)
Lemma isRetryable_status st :
  100 ≤ st < 600 →
  isRetryable (AxiosError (Some st) None) = true ↔ 500 ≤ st ≤ 599 ∨ st = 429.
Proof.
  intros Hst. rewrite isRetryable_spec. split.
  - intros [(st' & [= <-] & H)|[H|[H|H]]]; try done. lia.
  - intros H. left. exists st. split; [done|]. lia.
Qed.

(** A 4xx response other than 429 is not retried. *)
Lemma isRetryable_4xx st :
  400 ≤ st < 500 → st ≠ 429 → isRetryable (AxiosError (Some st) None) = false.
Proof.
  intros Hst Hne. apply not_true_is_false. rewrite isRetryable_spec.
  intros [(st' & [= <-] & H)|[H|[H|H]]]; try done. lia.
Qed.

(** The loop never runs out of iterations: more fuel changes nothing. *)
Lemma sendLoop_fuel fuel fuel' attempt lastError url body net :
  (maxRetries + 1 - attempt ≤ fuel)%nat →
  (maxRetries + 1 - attempt ≤ fuel')%nat →
  (1 ≤ attempt)%nat →
  sendLoop fuel attempt lastError url body net =
  sendLoop fuel' attempt lastError url body net.
Proof.
  revert fuel' attempt lastError.
  induction fuel as [|fuel IH]; intros fuel' attempt lastError H1 H2 H3.
  - destruct fuel' as [|fuel']; [done|]. simpl.
    destruct (attempt <=? maxRetries)%nat eqn:E; [|done].
    apply Nat.leb_le in E. lia.
  - destruct fuel' as [|fuel'].
    + simpl. destruct (attempt <=? maxRetries)%nat eqn:E; [|done].
      apply Nat.leb_le in E. lia.
    + simpl. destruct (attempt <=? maxRetries)%nat eqn:E; [|done].
      destruct (net attempt) as [e|data]; [|done].
      destruct (isRetryable e && (attempt <? maxRetries)%nat) eqn:E'; [|done].
      rewrite (IH fuel' (S attempt) (Some e)); [done|lia..].
Qed.

(** [sendMediaMessage] makes one request and never pauses. *)
Lemma sendMediaMessage_single_attempt cfg chatId content mediaUrl options net :
  (length (attempts (sendMediaMessage cfg chatId content mediaUrl options net).2) ≤ 1)%nat
  ∧ sleeps (sendMediaMessage cfg chatId content mediaUrl options net).2 = [].
Proof.
  unfold sendMediaMessage.
  destruct (validateApiKey cfg); simpl; [split; [lia|done]|].
  destruct (net 1%nat); simpl; split; (lia || done).
Qed.

End ClientFacts.

(** ** Outbound delivery: the specified properties *)

Module ClientSpec.
Import Js Client ClientFacts.

Definition mandy : config :=
  {| apiKey := "k-0123456789abcdef";
     agentId := "agent-1";
     apiUrl := "https://api.a1zap.com/v1/messages/individual";
     agentName := "mandy" |}.

(** C5.  [sendMessage] throws at once, without any request, when the
    credentials are placeholders.  Otherwise it makes the attempts [1..k] for
    some [k ≤ 3]; every attempt before the last failed with an error
    classified transient (status [>= 500], status [429], [ECONNRESET],
    [ETIMEDOUT] or [ENOTFOUND]) and was followed by a pause of
    [1000 * attemptNumber] ms; the call ends with the outcome of attempt [k],
    which is a success, a non-retryable error, or the third failure.  Hence
    the first non-retryable error is thrown to the caller with no further
    attempt, and with attempts 1 and 2 answered by HTTP 500 and attempt 3 by
    a success the call succeeds after exactly two retries. *)
Theorem sendMessage_retry_policy (cfg : config) (chatId content : string)
    (richContentBlocks : option (list string)) (net : network) :
  let '(r, evs) := sendMessage cfg chatId content richContentBlocks net in
  (∀ status code,
      isRetryable (AxiosError status code) = true ↔
      (∃ st, status = Some st ∧ (500 ≤ st ∨ st = 429))
      ∨ code = Some "ECONNRESET" ∨ code = Some "ETIMEDOUT" ∨ code = Some "ENOTFOUND")
  ∧ (∀ st, 400 ≤ st < 500 → st ≠ 429 → isRetryable (AxiosError (Some st) None) = false)
  ∧ match validateApiKey cfg with
    | Some e => r = Throw e ∧ evs = []
    | None =>
        (∃ k : nat,
            (1 ≤ k ≤ 3)%nat
            ∧ evs = policyTrace k (sendUrl cfg)
                      (textPayload cfg chatId content richContentBlocks)
            ∧ (∀ n, (1 ≤ n < k)%nat → ∃ e, net n = Throw e ∧ isRetryable e = true)
            ∧ r = net k
            ∧ match net k with
              | Return _ => True
              | Throw e => isRetryable e = false ∨ k = 3%nat
              end)
        ∧ (∀ n e,
            (1 ≤ n ≤ 3)%nat →
            (∀ i, (1 ≤ i < n)%nat → ∃ e', net i = Throw e' ∧ isRetryable e' = true) →
            net n = Throw e →
            isRetryable e = false →
            r = Throw e
            ∧ attempts evs = seq 1 n
            ∧ sleeps evs = (λ i, retryDelay * Z.of_nat i) <$> seq 1 (n - 1))
        ∧ (net 1%nat = http 500 → net 2%nat = http 500 → net 3%nat = Return "ok" →
            r = Return "ok"
            ∧ attempts evs = [1; 2; 3]%nat
            ∧ sleeps evs = [1000; 2000])
    end.
Proof.
  unfold sendMessage.
  destruct (validateApiKey cfg) as [e|] eqn:Hcfg.
  { split_and!; [apply isRetryable_spec|apply isRetryable_4xx|done|done]. }
  set (url := sendUrl cfg). set (body := textPayload cfg chatId content richContentBlocks).
  destruct (sendLoop maxRetries 1 None url body net) as [r evs] eqn:Hloop.
  split; [apply isRetryable_spec|]. split; [apply isRetryable_4xx|].
  split_and!.
  - revert Hloop. unfold maxRetries. simpl.
    destruct (net 1%nat) as [e1|d1] eqn:N1;
      [destruct (isRetryable e1) eqn:R1; simpl;
       [destruct (net 2%nat) as [e2|d2] eqn:N2;
        [destruct (isRetryable e2) eqn:R2; simpl;
         [destruct (net 3%nat) as [e3|d3] eqn:N3;
          [rewrite andb_false_r|]|]|]|]|];
      intros [= <- <-];
      [exists 3%nat; rewrite N3 | exists 3%nat; rewrite N3
      |exists 2%nat; rewrite N2 | exists 2%nat; rewrite N2
      |exists 1%nat; rewrite N1 | exists 1%nat; rewrite N1];
      (split_and!;
       [lia
       |lia
       |reflexivity
       |intros n Hn;
        first [lia
              |assert (n = 1)%nat as -> by lia; eauto
              |assert (n = 1 ∨ n = 2)%nat as [->| ->] by lia; eauto]
       |reflexivity
       |first [exact I | by left | by right]]).
  - intros n e Hn Hbefore Nn Rn. revert Hloop. unfold maxRetries. simpl.
    assert (n = 1 ∨ n = 2 ∨ n = 3)%nat as [->|[->| ->]] by lia.
    + rewrite Nn, Rn. simpl. by intros [= <- <-].
    + destruct (Hbefore 1%nat ltac:(lia)) as (e1 & N1 & R1).
      rewrite N1, R1, Nn, Rn. simpl. by intros [= <- <-].
    + destruct (Hbefore 1%nat ltac:(lia)) as (e1 & N1 & R1).
      destruct (Hbefore 2%nat ltac:(lia)) as (e2 & N2 & R2).
      rewrite N1, R1, N2, R2, Nn, Rn. simpl. by intros [= <- <-].
  - intros N1 N2 N3. revert Hloop. unfold maxRetries. simpl.
    rewrite N1, N2, N3. simpl. by intros [= <- <-].
Qed.

(** Scenario C on a configured client: HTTP 500, HTTP 500, success. *)
Lemma sendMessage_retry_policy_witness :
  (sendMessage mandy "chat-1" "hello" None
     (scripted [http 500; http 500; Return "ok"])).1 = Return "ok"
  ∧ sleeps (sendMessage mandy "chat-1" "hello" None
       (scripted [http 500; http 500; Return "ok"])).2 = [1000; 2000].
Proof.
  pose proof (sendMessage_retry_policy mandy "chat-1" "hello" None
                (scripted [http 500; http 500; Return "ok"])) as H.
  destruct (sendMessage mandy "chat-1" "hello" None
              (scripted [http 500; http 500; Return "ok"])) as [r evs].
  change (validateApiKey mandy) with (@None error) in H.
  destruct H as (_ & _ & _ & _ & H).
  destruct H as (Hr & _ & Hs); [reflexivity..|].
  split; [exact Hr|exact Hs].
Defined.

(** C6, at the failing input.  On a network that answers the first request
    with HTTP 500 and the second with a success, [sendMessage] pauses 1000 ms,
    retries and succeeds, while [sendMediaMessage] makes a single request,
    without a timeout, and throws the HTTP 500 error to its caller: the media
    variant retries no error at all. *)
Theorem sendMediaMessage_does_not_retry :
  let net := scripted [http 500; Return "ok"] in
  let text := sendMessage mandy "chat-1" "hello" None net in
  let media :=
    sendMediaMessage mandy "chat-1" "hello" "https://img/1.png"
      {| opt_width := None; opt_height := None; opt_contentType := Undefined |} net in
  isRetryable (AxiosError (Some 500) None) = true
  ∧ text.1 = Return "ok"
  ∧ attempts text.2 = [1; 2]%nat
  ∧ sleeps text.2 = [1000]
  ∧ media.1 = Throw (AxiosError (Some 500) None)
  ∧ attempts media.2 = [1%nat]
  ∧ sleeps media.2 = [].
Proof. vm_compute. by split_and!. Qed.

End ClientSpec.

(** ** The request pipeline *)

Module WebhookFacts.
Import Js JsFacts Dedup DedupFacts Webhook.

(** *** Runs of composed bodies *)

Lemma runProg_bind {A B} env n now pm (m : prog A) (f : A → prog B) :
  runProg env n now pm (bind m f) =
  let '(pm1, evs1, n1, a) := runProg env n now pm m in
  let '(pm2, evs2, n2, b) := runProg env n1 now pm1 (f a) in
  (pm2, evs1 ++ evs2, n2, b).
Proof.
  revert n pm. induction m as [a|c k IH|c k IH]; intros n pm; simpl.
  - by destruct (runProg env n now pm (f a)) as [[[pm2 evs2] n2] b].
  - destruct (helperExec c now pm) as [x pm'].
    rewrite IH.
    destruct (runProg env n now pm' (k x)) as [[[pm1 evs1] n1] a].
    by destruct (runProg env n1 now pm1 (f a)) as [[[pm2 evs2] n2] b].
  - rewrite IH.
    destruct (runProg env (S n) now pm (k (env n c))) as [[[pm1 evs1] n1] a].
    by destruct (runProg env n1 now pm1 (f a)) as [[[pm2 evs2] n2] b].
Qed.

Lemma asyncOnly_bind {A B} (m : prog A) (f : A → prog B) :
  asyncOnly m → (∀ a, asyncOnly (f a)) → asyncOnly (bind m f).
Proof.
  intros Hm Hf. induction m as [a|c k IH|c k IH]; simpl in *; [done|done|].
  intros x. by apply IH.
Qed.

Lemma asyncOnly_ret {A} (a : A) : asyncOnly (ret a).
Proof. exact I. Qed.

Lemma asyncOnly_await c : asyncOnly (await c).
Proof. intros x. exact I. Qed.

Lemma asyncOnly_andThen {A B} (m : throwing A) (f : A → throwing B) :
  asyncOnly m → (∀ a, asyncOnly (f a)) → asyncOnly (andThen m f).
Proof.
  intros Hm Hf. apply asyncOnly_bind; [done|]. intros [e|a]; [exact I|done].
Qed.

Lemma asyncOnly_tryCatch {A} (m : throwing A) (h : string → throwing A) :
  asyncOnly m → (∀ e, asyncOnly (h e)) → asyncOnly (tryCatch m h).
Proof.
  intros Hm Hh. apply asyncOnly_bind; [done|]. intros [e|a]; [done|exact I].
Qed.

Ltac async :=
  repeat first
    [ apply asyncOnly_ret
    | apply asyncOnly_await
    | exact I
    | apply asyncOnly_andThen; [|intros ?]
    | apply asyncOnly_tryCatch; [|intros ?]
    | apply asyncOnly_bind; [|intros ?]
    | match goal with
      | |- asyncOnly (if ?c then _ else _) => destruct c
      | |- asyncOnly (match ?o with Throw _ => _ | Return _ => _ end) => destruct o
      | |- asyncOnly (match ?o with Some _ => _ | None => _ end) => destruct o
      | |- asyncOnly (match ?o with [] => _ | _ :: _ => _ end) => destruct o
      end ].

Lemma asyncOnly_fetchConversationHistory d : asyncOnly (fetchConversationHistory d).
Proof.
  unfold fetchConversationHistory, fetchAndProcessHistory. async.
Qed.

Lemma asyncOnly_sendResponse chatId result : asyncOnly (sendResponse chatId result).
Proof. unfold sendResponse, helpersSendResponse. async. Qed.

Lemma asyncOnly_handleError e b : asyncOnly (handleError e b).
Proof. unfold handleError. async. Qed.

Lemma asyncOnly_handleChatStarted ag b : asyncOnly (handleChatStarted ag b).
Proof. unfold handleChatStarted. async. Qed.

(** A turn of a body without helper calls leaves the store alone and ends
    at its first [await] or at its end. *)
Lemma runSync_asyncOnly {R} now pm (p : prog R) :
  asyncOnly p →
  runSync now pm p =
  (pm, match p with Await c _ => [Invokes c] | _ => [] end, p).
Proof. by destruct p. Qed.

(** *** The steps of the pipeline *)

Lemma runProg_ret {A} env n now pm (a : A) :
  runProg env n now pm (ret a) = (pm, [], n, Return a).
Proof. done. Qed.

Lemma runProg_andThen {A B} env n now pm (m : throwing A) (f : A → throwing B) :
  runProg env n now pm (andThen m f) =
  let '(pm1, evs1, n1, o) := runProg env n now pm m in
  match o with
  | Throw e => (pm1, evs1, n1, Throw e)
  | Return a =>
      let '(pm2, evs2, n2, b) := runProg env n1 now pm1 (f a) in
      (pm2, evs1 ++ evs2, n2, b)
  end.
Proof.
  unfold andThen. rewrite runProg_bind.
  destruct (runProg env n now pm m) as [[[pm1 evs1] n1] [e|a]]; simpl; [|done].
  by rewrite app_nil_r.
Qed.

Lemma runProg_helper env n now pm c :
  runProg env n now pm (helper c) =
  ((helperExec c now pm).2, [CallsHelper c], n, Return (helperExec c now pm).1).
Proof. unfold helper. simpl. by destruct (helperExec c now pm). Qed.

Lemma runProg_await env n now pm c :
  runProg env n now pm (await c) = (pm, [Invokes c], S n, env n c).
Proof. done. Qed.

(** The history step never throws: a failure of the history collaborator
    degrades to an empty conversation. *)
Lemma runProg_fetchConversationHistory env n now pm d :
  runProg env n now pm (fetchConversationHistory d) =
  let '(evs, n', conversation) := historyStep env n d in
  (pm, evs, n', Return conversation).
Proof.
  unfold fetchConversationHistory, fetchAndProcessHistory, historyStep.
  destruct (negb (truthy (chatId d)) || negb (truthy (agentId d))); [done|].
  simpl.
  destruct (env n (GetMessageHistory (chatId d) getHistoryLimit (agentId d)))
    as [e|[[|m ms]|]]; done.
Qed.

(** The delivery step never throws: a failure of the delivery client is
    logged and dropped. *)
Lemma runProg_sendResponse env n now pm chatId result :
  runProg env n now pm (sendResponse chatId result) =
  (pm, deliveryTrace chatId result,
   (n + length (deliveryTrace chatId result))%nat, Return tt).
Proof.
  unfold sendResponse, deliveryTrace, deliverable, helpersSendResponse.
  destruct (truthyV (isTestChat chatId)); simpl; [by rewrite Nat.add_0_r|].
  destruct (truthyV (field result "sent")); simpl; [by rewrite Nat.add_0_r|].
  destruct (truthyV (field result "imageUrl")); simpl; [by rewrite Nat.add_0_r|].
  destruct (truthyV (field result "response")); simpl; [|by rewrite Nat.add_0_r].
  rewrite Nat.add_1_r.
  by destruct (env n _) as [e|v].
Qed.

(** [handleError] attempts the notification of a chat that is not a test
    chat, whatever becomes of it, and answers 500. *)
Lemma runProg_handleError env n now pm error b :
  runProg env n now pm (handleError error b) =
  (pm, notificationTrace b, (n + length (notificationTrace b))%nat, errorResponse error).
Proof.
  unfold handleError, notificationTrace.
  destruct (truthy (chat_id b) && negb (truthyV (isTestChat (chat_id b)))); simpl.
  - rewrite Nat.add_1_r. by destruct (env n _) as [e|v].
  - by rewrite Nat.add_0_r.
Qed.

(** The steps after the duplicate check. *)
Lemma runProg_handleFresh ag env n now pm d :
  runProg env n now pm (handleFresh ag d) =
  let '(hevs, n1, conversation) := historyStep env n d in
  let pm' := markMessageProcessed (messageId d) now pm in
  let hook := ProcessRequest d conversation in
  match env n1 hook with
  | Throw e =>
      (pm', CallsHelper (MarkMessageProcessed (messageId d)) :: hevs ++ [Invokes hook],
       S n1, Throw e)
  | Return result =>
      (pm',
       CallsHelper (MarkMessageProcessed (messageId d))
         :: hevs ++ [Invokes hook] ++ deliveryTrace (chatId d) result,
       (S n1 + length (deliveryTrace (chatId d) result))%nat,
       Return (successResponse ag (chatId d) result))
  end.
Proof.
  unfold handleFresh.
  rewrite runProg_andThen, runProg_helper.
  rewrite runProg_andThen, runProg_fetchConversationHistory.
  destruct (historyStep env n d) as [[hevs n1] conversation].
  rewrite runProg_andThen, runProg_await.
  destruct (env n1 (ProcessRequest d conversation)) as [e|result]; [done|].
  rewrite runProg_andThen, runProg_sendResponse, runProg_ret. simpl.
  by rewrite app_nil_r.
Qed.

(** *** [handle] *)

Lemma extractWebhookData_valid b :
  truthy (chat_id b) = true → extractWebhookData b = Valid (dataOf b).
Proof. intros H. unfold extractWebhookData. by rewrite H. Qed.

Lemma extractWebhookData_invalid b :
  truthy (chat_id b) = false →
  extractWebhookData b = Invalid "Missing chat.id in webhook payload".
Proof. intros H. unfold extractWebhookData. by rewrite H. Qed.

(** Without [chat.id] the handler is the 400 response and nothing else. *)
Lemma handle_invalid ag b :
  event b ≠ Str "chat.started" →
  truthy (chat_id b) = false →
  handle ag b = Ret (validationResponse "Missing chat.id in webhook payload").
Proof.
  intros Hev Hc. unfold handle, handleTry.
  rewrite bool_decide_eq_false_2 by done.
  by rewrite extractWebhookData_invalid.
Qed.

(** A whole invocation on a validated message event. *)
Lemma runProg_handle ag env n now pm b :
  event b ≠ Str "chat.started" →
  truthy (chat_id b) = true →
  runProg env n now pm (handle ag b) =
  let d := dataOf b in
  let check := CallsHelper (IsDuplicateMessage (message_id b)) in
  let mark := CallsHelper (MarkMessageProcessed (message_id b)) in
  if isDuplicateMessage (message_id b) pm then
    (pm, [check], n, skippedResponse (message_id b))
  else
    let '(hevs, n1, conversation) := historyStep env n d in
    let pm' := markMessageProcessed (message_id b) now pm in
    let hook := ProcessRequest d conversation in
    match env n1 hook with
    | Throw e =>
        (pm', check :: mark :: hevs ++ [Invokes hook] ++ notificationTrace b,
         (S n1 + length (notificationTrace b))%nat, errorResponse e)
    | Return result =>
        (pm', check :: mark :: hevs ++ [Invokes hook] ++ deliveryTrace (chat_id b) result,
         (S n1 + length (deliveryTrace (chat_id b) result))%nat,
         successResponse ag (chat_id b) result)
    end.
Proof.
  intros Hev Hc. unfold handle, handleTry.
  rewrite bool_decide_eq_false_2 by done.
  rewrite extractWebhookData_valid by done.
  rewrite runProg_bind, runProg_andThen, runProg_helper.
  cbn [helperExec fst snd messageId dataOf].
  destruct (isDuplicateMessage (message_id b) pm) eqn:Hdup.
  - by rewrite runProg_ret.
  - rewrite runProg_handleFresh.
    cbn [messageId chatId dataOf].
    destruct (historyStep env n (dataOf b)) as [[hevs n1] conversation].
    cbn zeta.
    destruct (env n1 (ProcessRequest (dataOf b) conversation)) as [e|result].
    + rewrite runProg_handleError. cbn [app]. by rewrite <- app_assoc.
    + cbn [runProg app]. by rewrite app_nil_r.
Qed.

Lemma asyncOnly_handle_chatStarted ag b :
  event b = Str "chat.started" → asyncOnly (handle ag b).
Proof.
  intros Hev. unfold handle, handleTry.
  rewrite bool_decide_eq_true_2 by done.
  apply asyncOnly_bind.
  - apply asyncOnly_bind; [apply asyncOnly_handleChatStarted|]. intros r. exact I.
  - intros [e|r]; [apply asyncOnly_handleError|exact I].
Qed.

(** The steps of [handle] that follow the marking. *)
Lemma handle_valid ag b :
  event b ≠ Str "chat.started" →
  truthy (chat_id b) = true →
  ∃ rest : prog response,
    asyncOnly rest
    ∧ (∃ c k, rest = Await c k ∧ (isHistoryCall c || isHookCall c) = true)
    ∧ handle ag b =
      Helper (IsDuplicateMessage (message_id b))
        (λ duplicate : bool,
           bind (if duplicate then ret (skippedResponse (message_id b))
                 else handleFresh ag (dataOf b))
                (λ o, match o with
                      | Return r => Ret r
                      | Throw error => handleError error b
                      end))
    ∧ bind (handleFresh ag (dataOf b))
        (λ o, match o with
              | Return r => Ret r
              | Throw error => handleError error b
              end)
      = Helper (MarkMessageProcessed (message_id b)) (λ _, rest).
Proof.
  intros Hev Hc.
  set (catch := λ o : outcome string response,
                  match o with
                  | Return r => Ret r
                  | Throw error => handleError error b
                  end).
  exists (bind
            (let* conversation := fetchConversationHistory (dataOf b) in
             let* result := await (ProcessRequest (dataOf b) conversation) in
             let* _ := sendResponse (chatId (dataOf b)) result in
             ret (successResponse ag (chatId (dataOf b)) result))%prog
            catch).
  split_and!.
  - apply asyncOnly_bind.
    + apply asyncOnly_andThen; [apply asyncOnly_fetchConversationHistory|].
      intros conversation. apply asyncOnly_andThen; [apply asyncOnly_await|].
      intros result. apply asyncOnly_andThen; [apply asyncOnly_sendResponse|].
      intros _. apply asyncOnly_ret.
    + intros [e|r]; [apply asyncOnly_handleError|exact I].
  - unfold fetchConversationHistory, fetchAndProcessHistory.
    cbn [chatId agentId dataOf]. rewrite Hc. cbn [negb orb].
    destruct (truthy (agent_id b)); cbn;
      match goal with
      | |- ∃ c k, Await ?c0 ?k0 = _ ∧ _ => exists c0, k0; split; reflexivity
      end.
  - unfold handle, handleTry.
    rewrite bool_decide_eq_false_2 by done.
    by rewrite extractWebhookData_valid.
  - done.
Qed.

(** The first turn of an invocation: what it does to the store, and what
    it leaves to run. *)
Lemma runSync_handle_shape ag b now pm :
  ∃ pm' evs p',
    runSync now pm (handle ag b) = (pm', evs, p')
    ∧ asyncOnly p'
    ∧ (∀ m, CallsHelper (MarkMessageProcessed (Str m)) ∈ evs → m ≠ "" →
         pm !! m = None ∧ pm' = <[m := now]> pm)
    ∧ (pm' = pm ∨ ∃ m, m ≠ "" ∧ pm !! m = None ∧ pm' = <[m := now]> pm)
    ∧ (event b ≠ Str "chat.started" →
         CallsHelper (MarkMessageProcessed (message_id b)) ∈ evs
         ∨ ((∃ r, p' = Ret r) ∧ ∀ c, Invokes c ∉ evs)).
Proof.
  destruct (decide (event b = Str "chat.started")) as [Hev|Hev].
  { pose proof (asyncOnly_handle_chatStarted ag b Hev) as Ha.
    eexists _, _, _. split; [by apply runSync_asyncOnly|].
    split_and!; [done| |by left|done].
    intros m Hm _. exfalso. destruct (handle ag b); [|done|];
      repeat (apply elem_of_cons in Hm as [Hm|Hm]; [discriminate|]);
      by apply elem_of_nil in Hm. }
  destruct (truthy (chat_id b)) eqn:Hc; last first.
  { rewrite handle_invalid by done. simpl.
    eexists _, _, _. split; [done|].
    split_and!; [exact I| |by left|].
    - intros m Hm. by apply elem_of_nil in Hm.
    - intros _. right. split; [eauto|]. intros c Hc'. by apply elem_of_nil in Hc'. }
  destruct (handle_valid ag b Hev Hc) as (rest & Hrest & (c & k & -> & Hck) & -> & Hfresh).
  cbn [runSync helperExec].
  destruct (isDuplicateMessage (message_id b) pm) eqn:Hdup.
  - cbn. eexists _, _, _. split; [done|].
    split_and!; [exact I| |by left|].
    + intros m Hm. apply list_elem_of_singleton in Hm. discriminate.
    + intros _. right. split; [eauto|].
      intros c' Hc'. apply list_elem_of_singleton in Hc'. discriminate.
  - rewrite Hfresh. cbn [runSync helperExec].
    eexists _, _, _. split; [done|].
    split_and!; [done| | |].
    + intros m Hm Hne.
      apply elem_of_cons in Hm as [Hm|Hm]; [discriminate|].
      apply elem_of_cons in Hm as [Hm|Hm];
        [|apply list_elem_of_singleton in Hm; discriminate].
      injection Hm as Hm. rewrite <- Hm in *.
      rewrite isDuplicate_Str in Hdup by done.
      apply bool_decide_eq_false in Hdup.
      split; [by apply eq_None_not_Some|by rewrite mark_Str].
    + destruct (message_id b) as [| |m] eqn:Hm; [by left..|].
      destruct (decide (m = "")) as [->|Hne]; [by left|].
      right. exists m. rewrite isDuplicate_Str in Hdup by done.
      apply bool_decide_eq_false in Hdup.
      split_and!; [done|by apply eq_None_not_Some|by rewrite mark_Str].
    + intros _. left. apply elem_of_cons. right. apply elem_of_cons. by left.
Qed.

End WebhookFacts.

(** ** Concurrent invocations *)

Module EventLoopFacts.
Import Js JsFacts Dedup DedupFacts Webhook WebhookFacts EventLoop.

Lemma invariant_initial t0 : invariant (initial t0).
Proof.
  split; simpl; try done.
  intros i e H. by apply elem_of_nil in H.
Qed.

Lemma lookup_snoc_Some {A} (l : list A) (x y : A) i :
  (l ++ [x]) !! i = Some y →
  l !! i = Some y ∨ (i = length l ∧ y = x).
Proof.
  intros H. apply lookup_app_Some in H as [H|[Hle H]]; [by left|right].
  destruct (i - length l)%nat as [|i'] eqn:E; simpl in H; [|done].
  split; [lia|congruence].
Qed.

Lemma elem_of_tagged (i j : nat) (e : observation) (evs : list observation) :
  (i, e) ∈ (pair j <$> evs) ↔ i = j ∧ e ∈ evs.
Proof.
  rewrite list_elem_of_fmap. split.
  - intros (e' & [= -> ->] & He). done.
  - intros [-> He]. by exists e.
Qed.

Lemma invariant_arrive ag b s : invariant s → invariant (exec ag (Arrive b) s).
Proof.
  intros [Harr Hasync Hlog Hstore Hgate Hapart].
  destruct (runSync_handle_shape ag b (clock s) (store s))
    as (pm' & evs & p' & Hrun & Hp' & Hmark & Hkeep & Hb).
  unfold exec. rewrite Hrun.
  set (n := length (pool s)).
  assert (∀ i e, (i, e) ∈ log s → i ≠ n) as Hfresh.
  { intros i e Hi. apply Hlog in Hi. unfold n. lia. }
  assert (∀ i t, pool s !! i = Some t → i ≠ n) as Hold.
  { intros i t Hi. apply lookup_lt_Some in Hi. unfold n. lia. }
  split; cbn [clock store pool log]; unfold marked; cbn [log].
  - intros i t Hi. apply lookup_snoc_Some in Hi as [Hi|[-> ->]]; [by eapply Harr|].
    simpl. lia.
  - intros i t Hi. apply lookup_snoc_Some in Hi as [Hi|[-> ->]]; [by eapply Hasync|done].
  - intros i e Hi. rewrite length_app. simpl.
    apply elem_of_app in Hi as [Hi|Hi]; [apply Hlog in Hi; lia|].
    apply elem_of_tagged in Hi as [-> _]. fold n. lia.
  - intros i t m Hi Hm Hne Hwin.
    apply lookup_snoc_Some in Hi as [Hi|[-> ->]].
    + apply elem_of_app in Hm as [Hm|Hm];
        [|apply elem_of_tagged in Hm as [-> _]; by apply Hold in Hi].
      destruct (Hstore i t m Hi Hm Hne Hwin) as (ts & Hts & Hle).
      destruct Hkeep as [->|(m' & Hne' & Hnone & ->)]; [by exists ts|].
      destruct (decide (m' = m)) as [->|Hmm]; [congruence|].
      exists ts. by rewrite lookup_insert_ne.
    + apply elem_of_app in Hm as [Hm|Hm]; [by apply Hfresh in Hm|].
      apply elem_of_tagged in Hm as [_ Hm].
      destruct (Hmark m Hm Hne) as [_ ->].
      exists (clock s). rewrite lookup_insert_eq. simpl. split; [done|lia].
  - intros i t Hi Hev.
    apply lookup_snoc_Some in Hi as [Hi|[-> ->]].
    + destruct (Hgate i t Hi Hev) as [Hm|[Hr Hnone]].
      * left. apply elem_of_app. by left.
      * right. split; [done|]. intros c Hc.
        apply elem_of_app in Hc as [Hc|Hc]; [by eapply Hnone|].
        apply elem_of_tagged in Hc as [-> _]. by apply Hold in Hi.
    + simpl in *. destruct (Hb Hev) as [Hm|[Hr Hnone]].
      * left. apply elem_of_app. right. by apply elem_of_tagged.
      * right. split; [done|]. intros c Hc.
        apply elem_of_app in Hc as [Hc|Hc]; [by apply Hfresh in Hc|].
        apply elem_of_tagged in Hc as [_ Hc]. by eapply Hnone.
  - intros i j ti tj m Hij Hi Hj Hmi Hmj Hne.
    apply lookup_snoc_Some in Hi as [Hi|[-> ->]];
      apply lookup_snoc_Some in Hj as [Hj|[-> ->]]; [| | |done].
    + apply elem_of_app in Hmi as [Hmi|Hmi];
        [|apply elem_of_tagged in Hmi as [-> _]; by apply Hold in Hi].
      apply elem_of_app in Hmj as [Hmj|Hmj];
        [|apply elem_of_tagged in Hmj as [-> _]; by apply Hold in Hj].
      by eapply Hapart.
    + apply elem_of_app in Hmi as [Hmi|Hmi];
        [|apply elem_of_tagged in Hmi as [-> _]; by apply Hold in Hi].
      apply elem_of_app in Hmj as [Hmj|Hmj]; [by apply Hfresh in Hmj|].
      apply elem_of_tagged in Hmj as [_ Hmj].
      destruct (Hmark m Hmj Hne) as [Hnone _].
      pose proof (Harr i ti Hi) as Hle. simpl.
      destruct (decide (clock s - t_arrival ti ≤ MESSAGE_EXPIRY_MS)) as [Hwin|Hout]; [|lia].
      destruct (Hstore i ti m Hi Hmi Hne Hwin) as (ts & Hts & _). congruence.
    + apply elem_of_app in Hmj as [Hmj|Hmj];
        [|apply elem_of_tagged in Hmj as [-> _]; by apply Hold in Hj].
      apply elem_of_app in Hmi as [Hmi|Hmi]; [by apply Hfresh in Hmi|].
      apply elem_of_tagged in Hmi as [_ Hmi].
      destruct (Hmark m Hmi Hne) as [Hnone _].
      pose proof (Harr j tj Hj) as Hle. simpl.
      destruct (decide (clock s - t_arrival tj ≤ MESSAGE_EXPIRY_MS)) as [Hwin|Hout]; [|lia].
      destruct (Hstore j tj m Hj Hmj Hne Hwin) as (ts & Hts & _). congruence.
Qed.

Lemma invariant_resume ag i answer s :
  invariant s → invariant (exec ag (Resume i answer) s).
Proof.
  intros Hinv. unfold exec.
  destruct (pool s !! i) as [t|] eqn:Hi; [|done].
  destruct (t_code t) as [r|c k|c k] eqn:Hcode; [done..|].
  destruct Hinv as [Harr Hasync Hlog Hstore Hgate Hapart].
  pose proof (Hasync i t Hi) as Ha. rewrite Hcode in Ha. simpl in Ha.
  rewrite (runSync_asyncOnly _ _ _ (Ha (answer c))).
  set (p := k (answer c)).
  set (evs := match p with Await c0 _ => [Invokes c0] | _ => [] end).
  assert (∀ m, CallsHelper (MarkMessageProcessed m) ∉ evs) as Hnomark.
  { intros m Hm. unfold evs in Hm. destruct p;
      repeat (apply elem_of_cons in Hm as [Hm|Hm]; [discriminate|]);
      by apply elem_of_nil in Hm. }
  assert (∀ j m, (j, CallsHelper (MarkMessageProcessed m)) ∈ log s ++ (pair i <$> evs) →
                 (j, CallsHelper (MarkMessageProcessed m)) ∈ log s) as Hmarks.
  { intros j m Hm. apply elem_of_app in Hm as [Hm|Hm]; [done|].
    apply elem_of_tagged in Hm as [_ Hm]. by apply Hnomark in Hm. }
  assert (∀ j tj, <[i := mkTask (t_body t) (t_arrival t) p]> (pool s) !! j = Some tj →
            ∃ tj', pool s !! j = Some tj'
                   ∧ t_body tj = t_body tj' ∧ t_arrival tj = t_arrival tj'
                   ∧ (j ≠ i → tj = tj') ∧ (j = i → t_code tj = p ∧ tj' = t)) as Hpool.
  { intros j tj Hj. apply list_lookup_insert_Some in Hj as [(-> & <- & _)|[Hne Hj]].
    - exists t. by split_and!.
    - exists tj. by split_and!. }
  split; cbn [clock store pool log]; unfold marked; cbn [log].
  - intros j tj Hj. destruct (Hpool j tj Hj) as (tj' & Hj' & _ & -> & _). by eapply Harr.
  - intros j tj Hj. destruct (Hpool j tj Hj) as (tj' & Hj' & _ & _ & Hne & Heq).
    destruct (decide (j = i)) as [->|Hji].
    + destruct (Heq eq_refl) as [-> _]. apply Ha.
    + rewrite (Hne Hji). by eapply Hasync.
  - intros j e Hj. rewrite length_insert.
    apply elem_of_app in Hj as [Hj|Hj]; [by apply Hlog in Hj|].
    apply elem_of_tagged in Hj as [-> _]. by apply lookup_lt_Some in Hi.
  - intros j tj m Hj Hm Hne Hwin.
    destruct (Hpool j tj Hj) as (tj' & Hj' & _ & Harr' & _). rewrite Harr' in *.
    apply Hmarks in Hm. by eapply Hstore.
  - intros j tj Hj Hev.
    destruct (Hpool j tj Hj) as (tj' & Hj' & Hbody & _ & Hne & Heq). rewrite Hbody in *.
    destruct (Hgate j tj' Hj' Hev) as [Hm|[[r Hr] Hnone]].
    + left. apply elem_of_app. by left.
    + destruct (decide (j = i)) as [->|Hji].
      * destruct (Heq eq_refl) as [_ ->]. congruence.
      * right. rewrite (Hne Hji). split; [eauto|].
        intros c' Hc'. apply elem_of_app in Hc' as [Hc'|Hc']; [by eapply Hnone|].
        by apply elem_of_tagged in Hc' as [-> _].
  - intros j1 j2 t1 t2 m Hj Hj1 Hj2 Hm1 Hm2 Hne.
    destruct (Hpool j1 t1 Hj1) as (t1' & Hj1' & _ & -> & _).
    destruct (Hpool j2 t2 Hj2) as (t2' & Hj2' & _ & -> & _).
    apply Hmarks in Hm1, Hm2. by eapply Hapart.
Qed.

Lemma invariant_sweep ag s : invariant s → invariant (exec ag Sweep s).
Proof.
  intros [Harr Hasync Hlog Hstore Hgate Hapart].
  split; cbn [exec clock store pool log]; unfold marked; cbn [log]; try done.
  intros i t m Hi Hm Hne Hwin.
  destruct (Hstore i t m Hi Hm Hne Hwin) as (ts & Hts & Hle).
  exists ts. rewrite sweep_lookup, Hts. split; [|done].
  case_decide; [lia|done].
Qed.

Lemma invariant_tick ag ms s : invariant s → invariant (exec ag (Tick ms) s).
Proof.
  intros [Harr Hasync Hlog Hstore Hgate Hapart].
  split; cbn [exec clock store pool log]; unfold marked; cbn [log]; try done.
  - intros i t Hi. specialize (Harr i t Hi). lia.
  - intros i t m Hi Hm Hne Hwin. apply (Hstore i t m Hi Hm Hne). lia.
Qed.

Lemma invariant_exec ag a s : invariant s → invariant (exec ag a s).
Proof.
  destruct a; [apply invariant_arrive|apply invariant_resume
              |apply invariant_sweep|apply invariant_tick].
Qed.

Lemma invariant_execAll ag acts s : invariant s → invariant (execAll ag acts s).
Proof.
  revert s. induction acts as [|a acts IH]; intros s Hs; simpl; [done|].
  by apply IH, invariant_exec.
Qed.

(** Two message invocations that arrive within the expiry period of each
    other and carry the same non-empty message id do not both reach the
    domain hook or the delivery client. *)
Lemma at_most_once_invariant s i j ti tj m :
  invariant s →
  i ≠ j →
  pool s !! i = Some ti →
  pool s !! j = Some tj →
  event (t_body ti) ≠ Str "chat.started" →
  event (t_body tj) ≠ Str "chat.started" →
  message_id (t_body ti) = Str m →
  message_id (t_body tj) = Str m →
  m ≠ "" →
  Z.abs (t_arrival ti - t_arrival tj) ≤ MESSAGE_EXPIRY_MS →
  ¬ (invokesHookOrDelivery s i ∧ invokesHookOrDelivery s j).
Proof.
  intros [Harr Hasync Hlog Hstore Hgate Hapart] Hij Hi Hj Hevi Hevj Hmi Hmj Hne Hwin
    [(ci & Hci & _) (cj & Hcj & _)].
  destruct (Hgate i ti Hi Hevi) as [Hi'|[_ Hnone]]; [|by eapply Hnone].
  destruct (Hgate j tj Hj Hevj) as [Hj'|[_ Hnone]]; [|by eapply Hnone].
  rewrite Hmi in Hi'. rewrite Hmj in Hj'.
  pose proof (Hapart i j ti tj m Hij Hi Hj Hi' Hj' Hne). lia.
Qed.

End EventLoopFacts.
(** ** Deduplication store: the specified properties *)

Module DedupSpec.
Import Js JsFacts Dedup DedupFacts.

(** A sweep leaves an entry alone until its expiry period has passed. *)
Lemma sweep_within_ttl m t0 now pm :
  now - t0 ≤ MESSAGE_EXPIRY_MS →
  pm !! m = Some t0 →
  sweep now pm !! m = Some t0.
Proof.
  intros Hwin Hm. rewrite sweep_lookup, Hm. case_decide; [lia|done].
Qed.

(** C4.  For a message id [m] (a non-empty string; other ids are the
    subject of C9) that is not in the store, [isDuplicateMessage(m)] is
    [false]; right after [markMessageProcessed(m)] at time [t0] it is [true];
    and after any markings of other ids and sweeps, once a sweep runs at a
    time [t1] more than [MESSAGE_EXPIRY_MS] (5 minutes) after [t0], it is
    [false] again. *)
Theorem dedup_ttl_lifecycle (m : string) (pm : processedMessages) (t0 t1 : Z)
    (others : list (other_op m)) :
  m ≠ "" →
  pm !! m = None →
  MESSAGE_EXPIRY_MS = 300000
  ∧ isDuplicateMessage (Str m) pm = false
  ∧ isDuplicateMessage (Str m) (markMessageProcessed (Str m) t0 pm) = true
  ∧ (MESSAGE_EXPIRY_MS < t1 - t0 →
     isDuplicateMessage (Str m)
       (sweep t1 (run_others others (markMessageProcessed (Str m) t0 pm))) = false).
Proof.
  intros Hm Hfresh. split_and!.
  - reflexivity.
  - rewrite isDuplicate_Str by done. apply bool_decide_eq_false.
    rewrite Hfresh. by intros [? ?].
  - rewrite isDuplicate_Str, mark_Str by done. apply bool_decide_eq_true.
    rewrite lookup_insert_eq. eauto.
  - intros Hlate. rewrite isDuplicate_Str, mark_Str by done.
    apply bool_decide_eq_false. rewrite sweep_lookup.
    destruct (run_others_lookup m others (<[m := t0]> pm) t0) as [-> | ->].
    + apply lookup_insert_eq.
    + case_decide; [by intros [? ?]|lia].
    + by intros [? ?].
Qed.

(** Scenario B: ["m1"] marked at 0 s is a duplicate at 0 s and no longer one
    after the sweep at 301 s. *)
Lemma dedup_ttl_lifecycle_witness :
  isDuplicateMessage (Str "m1") ∅ = false
  ∧ isDuplicateMessage (Str "m1") (markMessageProcessed (Str "m1") 0 ∅) = true
  ∧ isDuplicateMessage (Str "m1")
      (sweep 301000 (markMessageProcessed (Str "m1") 0 ∅)) = false.
Proof.
  assert ("m1" ≠ "") as Hm by discriminate.
  assert ((∅ : processedMessages) !! "m1" = None) as Hfresh by apply lookup_empty.
  destruct (dedup_ttl_lifecycle "m1" ∅ 0 301000 [] Hm Hfresh) as (Httl & H0 & H1 & H2).
  split_and!; [exact H0|exact H1|].
  apply H2. rewrite Httl. lia.
Defined.

End DedupSpec.

(** ** The request pipeline: the specified properties *)

Module WebhookSpec.
Import Js JsFacts Dedup DedupFacts Webhook WebhookFacts EventLoop EventLoopFacts.

Lemma run_eq ag env now pm b :
  run ag env now pm b =
  ((runProg env 0 now pm (handle ag b)).1.1.1,
   (runProg env 0 now pm (handle ag b)).1.1.2,
   (runProg env 0 now pm (handle ag b)).2).
Proof.
  unfold run. by destruct (runProg env 0 now pm (handle ag b)) as [[[pm' evs] n] r].
Qed.

Lemma hookCalls_app evs1 evs2 : hookCalls (evs1 ++ evs2) = hookCalls evs1 ++ hookCalls evs2.
Proof. unfold hookCalls, invoked. by rewrite omap_app, List.filter_app. Qed.

Lemma deliveries_app evs1 evs2 :
  deliveries (evs1 ++ evs2) = deliveries evs1 ++ deliveries evs2.
Proof. unfold deliveries, invoked. by rewrite omap_app, List.filter_app. Qed.

Lemma helperCalls_app evs1 evs2 :
  helperCalls (evs1 ++ evs2) = helperCalls evs1 ++ helperCalls evs2.
Proof. unfold helperCalls. by rewrite omap_app. Qed.

(** The history step calls neither the hook nor the delivery client. *)
Lemma historyStep_calls env n d :
  hookCalls (historyStep env n d).1.1 = []
  ∧ deliveries (historyStep env n d).1.1 = []
  ∧ helperCalls (historyStep env n d).1.1 = [].
Proof.
  unfold historyStep.
  by destruct (negb (truthy (chatId d)) || negb (truthy (agentId d))).
Qed.

Lemma deliveryTrace_calls chatId result :
  hookCalls (deliveryTrace chatId result) = []
  ∧ helperCalls (deliveryTrace chatId result) = []
  ∧ deliveries (deliveryTrace chatId result) =
    if deliverable chatId result then
      [SendMessage chatId (field result "response")
         (orV (field result "richContentBlocks") VNull)]
    else [].
Proof. unfold deliveryTrace. by destruct (deliverable chatId result). Qed.

Lemma notificationTrace_calls b :
  hookCalls (notificationTrace b) = []
  ∧ helperCalls (notificationTrace b) = []
  ∧ deliveries (notificationTrace b) =
    if truthy (chat_id b) && negb (truthyV (isTestChat (chat_id b))) then
      [SendMessage (chat_id b) (VStr getErrorMessage) VUndefined]
    else [].
Proof.
  unfold notificationTrace.
  by destruct (truthy (chat_id b) && negb (truthyV (isTestChat (chat_id b)))).
Qed.

(** The calls of a whole invocation on a validated message event that is
    no duplicate. *)
Lemma run_fresh ag env now pm b :
  event b ≠ Str "chat.started" →
  truthy (chat_id b) = true →
  isDuplicateMessage (message_id b) pm = false →
  let '(hevs, n1, conversation) := historyStep env 0 (dataOf b) in
  let hook := ProcessRequest (dataOf b) conversation in
  let '(pm', evs, r) := run ag env now pm b in
  pm' = markMessageProcessed (message_id b) now pm
  ∧ helperCalls evs = [IsDuplicateMessage (message_id b);
                       MarkMessageProcessed (message_id b)]
  ∧ hookCalls evs = [hook]
  ∧ match env n1 hook with
    | Throw e =>
        r = errorResponse e
        ∧ deliveries evs =
          if truthyV (isTestChat (chat_id b)) then []
          else [SendMessage (chat_id b) (VStr getErrorMessage) VUndefined]
    | Return result =>
        r = successResponse ag (chat_id b) result
        ∧ deliveries evs =
          if deliverable (chat_id b) result then
            [SendMessage (chat_id b) (field result "response")
               (orV (field result "richContentBlocks") VNull)]
          else []
    end.
Proof.
  intros Hev Hc Hdup.
  pose proof (runProg_handle ag env 0 now pm b Hev Hc) as Hrun.
  rewrite Hdup in Hrun. cbn zeta in Hrun.
  pose proof (historyStep_calls env 0 (dataOf b)) as (Hh1 & Hh2 & Hh3).
  destruct (historyStep env 0 (dataOf b)) as [[hevs n1] conversation].
  cbn [fst snd] in Hh1, Hh2, Hh3. cbn zeta.
  rewrite run_eq.
  destruct (env n1 (ProcessRequest (dataOf b) conversation)) as [e|result];
    rewrite Hrun; cbn [fst snd].
  - pose proof (notificationTrace_calls b) as (Hn1 & Hn3 & Hn2). rewrite Hc in Hn2.
    split_and!; [done| | | |].
    + change (?a :: ?b :: ?l) with ([a; b] ++ l).
      rewrite !helperCalls_app, Hh3, Hn3. done.
    + change (?a :: ?b :: ?l) with ([a; b] ++ l).
      rewrite !hookCalls_app, Hh1, Hn1. done.
    + done.
    + change (?a :: ?b :: ?l) with ([a; b] ++ l).
      rewrite !deliveries_app, Hh2, Hn2. cbn.
      by destruct (truthyV (isTestChat (chat_id b))).
  - pose proof (deliveryTrace_calls (chat_id b) result) as (Hd1 & Hd3 & Hd2).
    split_and!; [done| | | |].
    + change (?a :: ?b :: ?l) with ([a; b] ++ l).
      rewrite !helperCalls_app, Hh3, Hd3. done.
    + change (?a :: ?b :: ?l) with ([a; b] ++ l).
      rewrite !hookCalls_app, Hh1, Hd1. done.
    + done.
    + change (?a :: ?b :: ?l) with ([a; b] ++ l).
      rewrite !deliveries_app, Hh2, Hd2. done.
Qed.

(** C7.  For a request that is no [chat.started] event and has no
    [chat.id] (missing, [null] or empty), [handle] is the response
    [400 { success: false, error: "Missing chat.id in webhook payload" }] and
    nothing else: run against any store and any collaborators, it leaves the
    store as it was and its trace is empty, so neither deduplication helper
    is called and neither the history collaborator, the processing hook nor
    the delivery client is invoked. *)
Theorem missing_chat_id_is_rejected (ag : agent) (b : body) (env : environment)
    (now : Z) (pm : processedMessages) :
  event b ≠ Str "chat.started" →
  truthy (chat_id b) = false →
  let r := validationResponse "Missing chat.id in webhook payload" in
  handle ag b = Ret r
  ∧ run ag env now pm b = (pm, [], r)
  ∧ status r = 400
  ∧ field (envelope r) "success" = VBool false
  ∧ field (envelope r) "error" = VStr "Missing chat.id in webhook payload".
Proof.
  intros Hev Hc r.
  split_and!; [by apply handle_invalid| |done..].
  unfold run. by rewrite handle_invalid.
Qed.

Lemma missing_chat_id_is_rejected_witness :
  run sampleAgent answering 0 {[ "m1" := 0 ]} (messageEvent Undefined (Str "m1")) =
  ({[ "m1" := 0 ]}, [], validationResponse "Missing chat.id in webhook payload").
Proof.
  assert (event (messageEvent Undefined (Str "m1")) ≠ Str "chat.started") as Hev
    by discriminate.
  assert (truthy (chat_id (messageEvent Undefined (Str "m1"))) = false) as Hc
    by reflexivity.
  exact (proj1 (proj2 (missing_chat_id_is_rejected sampleAgent _ answering 0
                         {[ "m1" := 0 ]} Hev Hc))).
Defined.

(** C8, counterexample.  In a test chat (chat id ["test-chat"]) whose
    processing hook throws, [handle] answers 500 without any call of the
    delivery client: no error notification is attempted. *)
Lemma test_chat_error_is_not_notified :
  let b := messageEvent (Str "test-chat") (Str "m1") in
  hookCalls (run sampleAgent failing 0 ∅ b).1.2 = [ProcessRequest (dataOf b) []]
  ∧ (run sampleAgent failing 0 ∅ b).2 = errorResponse "boom"
  ∧ length (deliveries (run sampleAgent failing 0 ∅ b).1.2) ≠ 1%nat.
Proof. vm_compute. split_and!; [reflexivity|reflexivity|discriminate]. Qed.

(** C8, as amended.  On a validated message event that is no duplicate,
    whatever the history collaborator and the delivery client do, the only
    exception that reaches the boundary of [handle] is the one of the
    processing hook (failures of the history fetch and of the reply delivery
    are caught where they occur).  When the hook throws [e], [handle] calls
    the delivery client once with the error message if the chat is not a
    test chat, and not at all if it is one (chat id starting with ["test-"]),
    ignores the outcome of that call, and answers
    [500 { success: false, error: e }]; otherwise it answers 200.  Every
    invocation ends with a response. *)
Theorem handle_error_boundary (ag : agent) (b : body) (env : environment)
    (now : Z) (pm : processedMessages) :
  event b ≠ Str "chat.started" →
  truthy (chat_id b) = true →
  isDuplicateMessage (message_id b) pm = false →
  let '(hevs, n1, conversation) := historyStep env 0 (dataOf b) in
  let '(pm', evs, r) := run ag env now pm b in
  hookCalls evs = [ProcessRequest (dataOf b) conversation]
  ∧ match env n1 (ProcessRequest (dataOf b) conversation) with
    | Throw e =>
        r = errorResponse e
        ∧ status r = 500
        ∧ field (envelope r) "success" = VBool false
        ∧ field (envelope r) "error" = VStr e
        ∧ deliveries evs =
          if truthyV (isTestChat (chat_id b)) then []
          else [SendMessage (chat_id b) (VStr getErrorMessage) VUndefined]
    | Return result =>
        r = successResponse ag (chat_id b) result ∧ status r = 200
    end.
Proof.
  intros Hev Hc Hdup.
  pose proof (run_fresh ag env now pm b Hev Hc Hdup) as H.
  destruct (historyStep env 0 (dataOf b)) as [[hevs n1] conversation].
  cbn zeta in H.
  destruct (run ag env now pm b) as [[pm' evs] r].
  destruct H as (_ & _ & Hhook & H). split; [done|].
  destruct (env n1 (ProcessRequest (dataOf b) conversation)) as [e|result].
  - destruct H as [-> Hd]. by split_and!.
  - destruct H as [-> _]. by split_and!.
Qed.

(** The hook throws in a chat that is not a test chat, and the notification
    fails too: it was attempted once, and the answer is the 500 envelope. *)
Lemma handle_error_boundary_witness :
  let b := messageEvent (Str "chat-1") (Str "m1") in
  (run sampleAgent failing 0 ∅ b).2 = errorResponse "boom"
  ∧ deliveries (run sampleAgent failing 0 ∅ b).1.2 =
    [SendMessage (Str "chat-1") (VStr getErrorMessage) VUndefined].
Proof.
  intros b.
  assert (event b ≠ Str "chat.started") as Hev by discriminate.
  assert (truthy (chat_id b) = true) as Hc by reflexivity.
  assert (isDuplicateMessage (message_id b) ∅ = false) as Hdup by reflexivity.
  pose proof (handle_error_boundary sampleAgent b failing 0 ∅ Hev Hc Hdup) as H.
  assert (historyStep failing 0 (dataOf b) =
          ([Invokes (GetMessageHistory (Str "chat-1") getHistoryLimit (Str "agent-1"))],
           1%nat, [])) as Hh by reflexivity.
  rewrite Hh in H. cbn [failing] in H.
  destruct (run sampleAgent failing 0 ∅ b) as [[pm' evs] r].
  destruct H as (_ & Hr & _ & _ & _ & Hd).
  split; [exact Hr|exact Hd].
Defined.

Lemma falsy_cases v :
  v = Undefined ∨ v = Null ∨ v = Str "" ↔ truthy v = false.
Proof.
  split.
  - by intros [->|[->| ->]].
  - destruct v as [| |s]; [tauto..|]. intros H. right. right. f_equal.
    destruct (decide (s = "")) as [->|Hne]; [done|].
    apply truthy_Str in Hne. congruence.
Qed.

(** C9.  For an event whose [message.id] is missing, [null] or empty:
    [isDuplicateMessage] is [false] on every store and
    [markMessageProcessed] leaves every store as it is; hence a validated
    message event with such an id is never answered as a duplicate: every
    invocation leaves the store unchanged, calls the processing hook once
    and, when the hook returns a result, hands it to the delivery step (the
    delivery client is called if the result is deliverable) and answers with
    the success envelope.  The same holds for each of any number of
    deliveries of the event in a row. *)
Theorem falsy_message_id_bypasses_dedup (ag : agent) (b : body) :
  event b ≠ Str "chat.started" →
  truthy (chat_id b) = true →
  message_id b = Undefined ∨ message_id b = Null ∨ message_id b = Str "" →
  (∀ pm, isDuplicateMessage (message_id b) pm = false)
  ∧ (∀ now pm, markMessageProcessed (message_id b) now pm = pm)
  ∧ (∀ env now pm,
       let '(hevs, n1, conversation) := historyStep env 0 (dataOf b) in
       let '(pm', evs, r) := run ag env now pm b in
       pm' = pm
       ∧ hookCalls evs = [ProcessRequest (dataOf b) conversation]
       ∧ match env n1 (ProcessRequest (dataOf b) conversation) with
         | Throw e => r = errorResponse e
         | Return result =>
             r = successResponse ag (chat_id b) result
             ∧ deliveries evs =
               if deliverable (chat_id b) result then
                 [SendMessage (chat_id b) (field result "response")
                    (orV (field result "richContentBlocks") VNull)]
               else []
         end)
  ∧ (∀ ds pm,
       length (deliverAll ag b ds pm) = length ds
       ∧ Forall (λ er, length (hookCalls er.1) = 1%nat) (deliverAll ag b ds pm)).
Proof.
  intros Hev Hc Hfalsy. apply falsy_cases in Hfalsy.
  assert (∀ pm, isDuplicateMessage (message_id b) pm = false) as Hdup
    by (intros pm; by apply isDuplicate_falsy).
  assert (∀ now pm, markMessageProcessed (message_id b) now pm = pm) as Hmark
    by (intros now pm; by apply mark_falsy).
  split_and!; [done|done| |].
  - intros env now pm.
    pose proof (run_fresh ag env now pm b Hev Hc (Hdup pm)) as H.
    destruct (historyStep env 0 (dataOf b)) as [[hevs n1] conversation].
    cbn zeta in H.
    destruct (run ag env now pm b) as [[pm' evs] r].
    destruct H as (-> & _ & Hhook & H). rewrite Hmark.
    split_and!; [done|done|].
    destruct (env n1 (ProcessRequest (dataOf b) conversation)) as [e|result]; [|done].
    by destruct H.
  - intros ds. induction ds as [|[env now] ds IH]; intros pm; simpl; [done|].
    pose proof (run_fresh ag env now pm b Hev Hc (Hdup pm)) as H.
    destruct (historyStep env 0 (dataOf b)) as [[hevs n1] conversation].
    cbn zeta in H.
    destruct (run ag env now pm b) as [[pm' evs] r].
    destruct H as (-> & _ & Hhook & _). rewrite Hmark.
    destruct (IH pm) as [Hlen Hall]. simpl. split; [by rewrite Hlen|].
    constructor; [cbn [fst]; by rewrite Hhook|done].
Qed.

(** An event without [message.id], delivered twice: both deliveries call
    the hook and the delivery client. *)
Lemma falsy_message_id_bypasses_dedup_witness :
  let b := messageEvent (Str "chat-1") Undefined in
  Forall (λ er, length (hookCalls er.1) = 1%nat)
    (deliverAll sampleAgent b [(answering, 0); (answering, 1000)] ∅)
  ∧ (deliveries <$> (fst <$> deliverAll sampleAgent b [(answering, 0); (answering, 1000)] ∅))
    = [[SendMessage (Str "chat-1") (VStr "Hello!") VNull];
       [SendMessage (Str "chat-1") (VStr "Hello!") VNull]].
Proof.
  intros b.
  assert (event b ≠ Str "chat.started") as Hev by discriminate.
  assert (truthy (chat_id b) = true) as Hc by reflexivity.
  assert (message_id b = Undefined ∨ message_id b = Null ∨ message_id b = Str "")
    as Hid by (left; reflexivity).
  destruct (falsy_message_id_bypasses_dedup sampleAgent b Hev Hc Hid) as (_ & _ & _ & H).
  split; [apply H|].
  vm_compute. reflexivity.
Defined.

(** C1.  For a validated message event (no [chat.started] event, with a
    [chat.id]) that carries the non-empty message id [m]:
    - if [m] is in the store, [handle] only asks [isDuplicateMessage] and
      answers 200 with [skipped: true] and [reason: "duplicate_message"]; it
      calls no collaborator, so neither the processing hook nor the delivery
      client; and a mark stays in the store through every sweep within
      [MESSAGE_EXPIRY_MS] of its time;
    - if [m] is not in the store, the first turn of [handle] asks
      [isDuplicateMessage], marks [m] with the current time and only then
      makes its first awaited call, all before any other code of the process
      can run;
    - hence, however the turns of any number of invocations, sweeps and
      clock ticks interleave from the start of the process, of two
      invocations that carry [m] and arrive within [MESSAGE_EXPIRY_MS] of
      each other at most one calls the processing hook or the delivery
      client. *)
Theorem duplicate_message_handled_at_most_once (ag : agent) (b : body) (m : string) :
  event b ≠ Str "chat.started" →
  truthy (chat_id b) = true →
  message_id b = Str m →
  m ≠ "" →
  (∀ env now pm,
     is_Some (pm !! m) →
     run ag env now pm b =
     (pm, [CallsHelper (IsDuplicateMessage (Str m))], skippedResponse (Str m)))
  ∧ (status (skippedResponse (Str m)) = 200
     ∧ field (envelope (skippedResponse (Str m))) "success" = VBool true
     ∧ field (envelope (skippedResponse (Str m))) "skipped" = VBool true
     ∧ field (envelope (skippedResponse (Str m))) "reason" = VStr "duplicate_message"
     ∧ field (envelope (skippedResponse (Str m))) "messageId" = VStr m)
  ∧ (∀ t0 now pm,
       now - t0 ≤ MESSAGE_EXPIRY_MS →
       is_Some (sweep now (markMessageProcessed (Str m) t0 pm) !! m))
  ∧ (∀ now pm,
       pm !! m = None →
       ∃ c k,
         runSync now pm (handle ag b) =
         (<[m := now]> pm,
          [CallsHelper (IsDuplicateMessage (Str m));
           CallsHelper (MarkMessageProcessed (Str m));
           Invokes c],
          Await c k))
  ∧ (∀ t0 acts i j ti tj,
       let s := execAll ag acts (initial t0) in
       i ≠ j →
       pool s !! i = Some ti →
       pool s !! j = Some tj →
       event (t_body ti) ≠ Str "chat.started" →
       event (t_body tj) ≠ Str "chat.started" →
       message_id (t_body ti) = Str m →
       message_id (t_body tj) = Str m →
       Z.abs (t_arrival ti - t_arrival tj) ≤ MESSAGE_EXPIRY_MS →
       ¬ (invokesHookOrDelivery s i ∧ invokesHookOrDelivery s j)).
Proof.
  intros Hev Hc Hid Hm. split_and!; try done.
  - intros env now pm Hin.
    pose proof (runProg_handle ag env 0 now pm b Hev Hc) as H.
    rewrite Hid in H. rewrite isDuplicate_Str in H by done.
    rewrite bool_decide_eq_true_2 in H by done. cbn zeta in H.
    unfold run. by rewrite H.
  - intros t0 now pm Hwin. rewrite mark_Str by done.
    exists t0. apply DedupSpec.sweep_within_ttl; [done|]. apply lookup_insert_eq.
  - intros now pm Hfresh.
    destruct (handle_valid ag b Hev Hc)
      as (rest & Hrest & (c & k & -> & Hck) & -> & Hrestart).
    exists c, k. rewrite Hid in *. cbn [runSync helperExec].
    rewrite isDuplicate_Str by done.
    rewrite bool_decide_eq_false_2 by (rewrite Hfresh; by intros [? ?]).
    rewrite Hrestart. cbn [runSync helperExec].
    by rewrite mark_Str.
  - intros t0 acts i j ti tj s Hij Hi Hj Hevi Hevj Hmi Hmj Hwin.
    eapply at_most_once_invariant; try done.
    apply invariant_execAll, invariant_initial.
Qed.

(** Scenario E: the event with message id ["m42"] arrives twice in a row;
    the second invocation is answered as a duplicate, and not both of them
    call the hook or the delivery client. *)
Lemma duplicate_message_handled_at_most_once_witness :
  let b := messageEvent (Str "chat-1") (Str "m42") in
  let s := execAll sampleAgent [Arrive b; Arrive b] (initial 0) in
  run sampleAgent answering 5 {[ "m42" := 0 ]} b =
    ({[ "m42" := 0 ]}, [CallsHelper (IsDuplicateMessage (Str "m42"))],
     skippedResponse (Str "m42"))
  ∧ t_code <$> pool s !! 1%nat = Some (Ret (skippedResponse (Str "m42")))
  ∧ ¬ (invokesHookOrDelivery s 0 ∧ invokesHookOrDelivery s 1).
Proof.
  intros b s.
  assert (event b ≠ Str "chat.started") as Hev by discriminate.
  assert (truthy (chat_id b) = true) as Hc by reflexivity.
  assert (message_id b = Str "m42") as Hid by reflexivity.
  assert ("m42" ≠ "") as Hm by discriminate.
  destruct (duplicate_message_handled_at_most_once sampleAgent b "m42" Hev Hc Hid Hm)
    as (Hskip & _ & _ & _ & Honce).
  split_and!.
  - apply Hskip. rewrite lookup_singleton_eq. eauto.
  - vm_compute. reflexivity.
  - assert (0%nat ≠ 1%nat) as H01 by discriminate.
    assert (∃ t, pool s !! 0%nat = Some t ∧ t_body t = b ∧ t_arrival t = 0)
      as (ta & Ha & Hba & Hta) by (eexists; split_and!; reflexivity).
    assert (∃ t, pool s !! 1%nat = Some t ∧ t_body t = b ∧ t_arrival t = 0)
      as (tb & Hb & Hbb & Htb) by (eexists; split_and!; reflexivity).
    apply (Honce 0 [Arrive b; Arrive b] 0%nat 1%nat ta tb H01 Ha Hb).
    + by rewrite Hba.
    + by rewrite Hbb.
    + by rewrite Hba.
    + by rewrite Hbb.
    + rewrite Hta, Htb. unfold MESSAGE_EXPIRY_MS. lia.
Defined.

End WebhookSpec.

(** ** The tests of the repository and the scenarios of the specification,
    replayed on the model *)

Module Replay.
Import Js Dedup Tracker Client Webhook EventLoop.

(** *** [test-group-tracking.js] *)

Definition USER_1 : string := "user1-abc".
Definition USER_2 : string := "user2-def".
Definition USER_3 : string := "user3-ghi".
Definition USER_4 : string := "user4-jkl".
Definition CHAT : string := "test-group-chat-123".

Definition record (u : string) (f : stateFile) : stateFile :=
  (recordUserResponse CHAT u f).2.

Definition start (expected : list string) (f : stateFile) : stateFile :=
  (startQuestionTracking CHAT expected 0 "0_abc" f).2.

(** Test 1: two users are detected, the agent is not counted. *)
Example test_group_detection :
  getUniqueUserIds
    [ {| rs_senderId := Str USER_1; rs_isAgent := false |};
      {| rs_senderId := Str USER_2; rs_isAgent := false |};
      {| rs_senderId := Str "test-agent-id"; rs_isAgent := true |};
      {| rs_senderId := Str USER_1; rs_isAgent := false |} ]
    (Str "test-agent-id")
  = [USER_1; USER_2].
Proof. vm_compute. reflexivity. Qed.

(** Tests 2 to 5: start, first response, waiting, second response. *)
Example test_question_round :
  let f0 := start [USER_1; USER_2] ∅ in
  let f1 := record USER_1 f0 in
  let f2 := record USER_2 f1 in
  currentQuestionId (getResponseState CHAT f0) ≠ None
  ∧ respondedUserIds (getResponseState CHAT f0) = []
  ∧ (recordUserResponse CHAT USER_1 f0).1.1 = false
  ∧ respondedUserIds (getResponseState CHAT f1) = [USER_1]
  ∧ isWaitingForResponses CHAT f1 = true
  ∧ (recordUserResponse CHAT USER_2 f1).1.1 = true
  ∧ respondedUserIds (getResponseState CHAT f2) = [USER_1; USER_2]
  ∧ isWaitingForResponses CHAT f2 = false.
Proof. vm_compute. by split_and!. Qed.

(** Test 6: clearing resets the round and keeps the count; the next
    question increments it. *)
Example test_clear_and_restart :
  let f := clearQuestionTracking CHAT (record USER_2 (record USER_1 (start [USER_1; USER_2] ∅))) in
  currentQuestionId (getResponseState CHAT f) = None
  ∧ respondedUserIds (getResponseState CHAT f) = []
  ∧ questionCount (getResponseState CHAT f) = 1
  ∧ questionCount (getResponseState CHAT (start [USER_1; USER_2; USER_3] f)) = 2.
Proof. vm_compute. by split_and!. Qed.

(** Test 7: four users. *)
Example test_four_users :
  let f := record USER_3 (record USER_2 (record USER_1
             (start [USER_1; USER_2; USER_3; USER_4] ∅))) in
  (recordUserResponse CHAT USER_3
     (record USER_2 (record USER_1 (start [USER_1; USER_2; USER_3; USER_4] ∅)))).1.1 = false
  ∧ (recordUserResponse CHAT USER_4 f).1.1 = true.
Proof. vm_compute. by split_and!. Qed.

(** Test 8: the same user answering twice counts once. *)
Example test_duplicate_response :
  let f := record USER_1 (start [USER_1; USER_2] ∅) in
  (recordUserResponse CHAT USER_1 f).1.1 = false
  ∧ respondedUserIds (getResponseState CHAT (record USER_1 f)) = [USER_1]
  ∧ (recordUserResponse CHAT USER_2 (record USER_1 f)).1.1 = true.
Proof. vm_compute. by split_and!. Qed.

(** *** A request through the pipeline *)

(** A message in a regular chat: the id is checked and marked, the history
    is fetched, the hook is called with the (empty) conversation, and its
    reply is delivered. *)
Example run_message :
  let b := messageEvent (Str "chat-1") (Str "m1") in
  run sampleAgent answering 7 ∅ b =
  ({[ "m1" := 7 ]},
   [ CallsHelper (IsDuplicateMessage (Str "m1"));
     CallsHelper (MarkMessageProcessed (Str "m1"));
     Invokes (GetMessageHistory (Str "chat-1") 10 (Str "agent-1"));
     Invokes (ProcessRequest (dataOf b) []);
     Invokes (SendMessage (Str "chat-1") (VStr "Hello!") VNull) ],
   successResponse sampleAgent (Str "chat-1") {[ "response" := VStr "Hello!" ]}).
Proof. vm_compute. reflexivity. Qed.

(** The same message in a test chat: nothing is delivered. *)
Example run_test_chat :
  let b := messageEvent (Str "test-1") (Str "m1") in
  deliveries (run sampleAgent answering 7 ∅ b).1.2 = []
  ∧ hookCalls (run sampleAgent answering 7 ∅ b).1.2 = [ProcessRequest (dataOf b) []]
  ∧ field (envelope (run sampleAgent answering 7 ∅ b).2) "testMode" = VBool true.
Proof. vm_compute. by split_and!. Qed.

(** A [chat.started] event: the welcome message is sent, the store is not
    touched. *)
Example run_chat_started :
  let b := {| event := Str "chat.started";
              chat_id := Undefined;
              agent_id := Undefined;
              message_id := Undefined;
              message_content := Undefined;
              message_media_url := Undefined;
              root_chatId := Undefined;
              meta_chatId := Str "chat-1";
              root_userName := Undefined;
              meta_userName := Str "Ann";
              root_isAnonymous := VUndefined;
              meta_isAnonymous := VBool false |} in
  run sampleAgent answering 7 ∅ b =
  (∅,
   [ Invokes (SendMessage (Str "chat-1") (VStr "Hi! I am Mandy.") VUndefined) ],
   chatStartedResponse sampleAgent (Str "Ann")).
Proof. vm_compute. reflexivity. Qed.

(** *** Delivery *)

(** Three transient failures exhaust the attempts: the last error is
    thrown. *)
Example sendMessage_exhausted :
  sendMessage ClientSpec.mandy "chat-1" "hello" None
    (scripted [http 503; http 503; http 503; Return "ok"])
  = (http 503,
     policyTrace 3 (sendUrl ClientSpec.mandy)
       (textPayload ClientSpec.mandy "chat-1" "hello" None)).
Proof. vm_compute. reflexivity. Qed.

(** A 404 is thrown at once. *)
Example sendMessage_permanent :
  sendMessage ClientSpec.mandy "chat-1" "hello" None (scripted [http 404; Return "ok"])
  = (http 404,
     policyTrace 1 (sendUrl ClientSpec.mandy)
       (textPayload ClientSpec.mandy "chat-1" "hello" None)).
Proof. vm_compute. reflexivity. Qed.

(** Placeholder credentials: no request is made. *)
Example sendMessage_placeholder_key :
  sendMessage {| Client.apiKey := "your_api_key_here"; Client.agentId := "agent-1";
                 Client.apiUrl := "https://api.a1zap.com"; Client.agentName := "mandy" |}
    "chat-1" "hello" None (scripted [])
  = (Throw ApiKeyNotConfigured, []).
Proof. vm_compute. reflexivity. Qed.

End Replay.

(** * Further properties of the code *)

(** ** The deduplication store: sweeps and statistics *)

Module DedupLaws.
Import Js JsFacts Dedup DedupFacts Helpers.

(** X1.  A later run of the clean-up timer subsumes an earlier one: for
    [t1 <= t2], sweeping at [t1] and then at [t2] leaves exactly what a
    single sweep at [t2] leaves, so the contents after a run of the timer
    depend only on the marks and on the time of that run, not on the runs
    before it. *)
Theorem sweep_subsumes_earlier_sweep (t1 t2 : Z) (pm : processedMessages) :
  t1 ≤ t2 → sweep t2 (sweep t1 pm) = sweep t2 pm.
Proof.
  intros Ht. apply map_eq. intros k. rewrite !sweep_lookup.
  destruct (pm !! k) as [ts|]; [|done].
  repeat case_decide; try done; lia.
Qed.

Lemma sweep_subsumes_earlier_sweep_witness :
  let pm : processedMessages := {[ "m1" := 0; "m2" := 200000 ]} in
  60000 ≤ 360000
  ∧ sweep 360000 (sweep 60000 pm) = sweep 360000 pm.
Proof.
  split; [lia|]. apply (sweep_subsumes_earlier_sweep 60000 360000). lia.
Defined.

(** X2.  [getDeduplicationStats().totalTracked] counts the distinct ids
    that are marked: marking an id that [isDuplicateMessage] does not report
    adds one, marking an id it reports (the timestamp is overwritten) or an
    id that is missing, [null] or empty adds nothing, and a run of the
    clean-up timer never increases the count; [expiryMs] is five minutes. *)
Theorem totalTracked_counts_marked_ids (messageId : ostr) (now : Z)
    (pm : processedMessages) :
  totalTracked (getDeduplicationStats (markMessageProcessed messageId now pm)) =
    (if negb (truthy messageId) || isDuplicateMessage messageId pm
     then totalTracked (getDeduplicationStats pm)
     else S (totalTracked (getDeduplicationStats pm)))
  ∧ (totalTracked (getDeduplicationStats (sweep now pm))
       ≤ totalTracked (getDeduplicationStats pm))%nat
  ∧ expiryMs (getDeduplicationStats pm) = 300000.
Proof.
  split_and!; [| |done].
  - destruct (truthy messageId) eqn:Ht; cbn [negb orb].
    + destruct (truthy_inv _ Ht) as (s & -> & Hs).
      rewrite mark_Str, isDuplicate_Str by done.
      unfold getDeduplicationStats; cbn [totalTracked].
      case_bool_decide as Hin.
      * by rewrite map_size_insert_Some.
      * apply eq_None_not_Some in Hin. by rewrite map_size_insert_None.
    + by rewrite mark_falsy.
  - unfold getDeduplicationStats, sweep; cbn [totalTracked].
    apply map_size_filter.
Qed.

End DedupLaws.

(** ** History processing, look-back, blocks and validation *)

Module HelpersFacts.
Import Js JsFacts Dedup Webhook WebhookFacts Helpers.

(** *** The backwards loop *)

Lemma scan_Some {A B} (f : A → option B) (l : list A) (b : B) :
  scan f l = Some b ↔
  ∃ pre x post, l = pre ++ x :: post ∧ f x = Some b ∧ Forall (λ y, f y = None) pre.
Proof.
  induction l as [|y l IH]; simpl.
  - split; [done|]. intros (pre & x & post & H & _). by destruct pre.
  - destruct (f y) as [b'|] eqn:Hy.
    + split.
      * intros [= ->]. by exists [], y, l.
      * intros (pre & x & post & H & Hx & Hpre).
        destruct pre as [|z pre]; simpl in H; injection H as <- ->.
        -- congruence.
        -- apply Forall_cons in Hpre as [Hz _]. congruence.
    + rewrite IH. split.
      * intros (pre & x & post & -> & Hx & Hpre).
        exists (y :: pre), x, post. split_and!; [done|done|by constructor].
      * intros (pre & x & post & H & Hx & Hpre).
        destruct pre as [|z pre]; simpl in H; injection H as <- ->.
        -- congruence.
        -- apply Forall_cons in Hpre as [_ Hpre]. by exists pre, x, post.
Qed.

Lemma scanBackwards_Some {A B} (f : A → option B) (l : list A) (b : B) :
  scanBackwards f l = Some b ↔
  ∃ pre x post, l = pre ++ x :: post ∧ f x = Some b ∧ Forall (λ y, f y = None) post.
Proof.
  unfold scanBackwards. rewrite scan_Some. split.
  - intros (pre & x & post & H & Hx & Hpre).
    exists (reverse post), x, (reverse pre). split_and!; [|done|by apply Forall_reverse].
    apply (inj reverse). by rewrite H, reverse_app, reverse_cons, !reverse_involutive,
      <- app_assoc.
  - intros (pre & x & post & -> & Hx & Hpost).
    exists (reverse post), x, (reverse pre). split_and!; [|done|by apply Forall_reverse].
    by rewrite reverse_app, reverse_cons, <- app_assoc.
Qed.

Lemma scanBackwards_elem_of {A B} (f : A → option B) (l : list A) (b : B) :
  scanBackwards f l = Some b → ∃ x, x ∈ l ∧ f x = Some b.
Proof.
  intros (pre & x & post & -> & Hx & _)%scanBackwards_Some.
  exists x. split; [|done]. apply elem_of_app. right. by left.
Qed.

(** What [slice] keeps is a suffix of the array. *)
Lemma slice_suffix {A} (start : Z) (l : list A) :
  ∃ n, slice start l = drop n l.
Proof. unfold slice. eauto. Qed.

(** [a.slice(-k)] for a positive [k]: the last [k] elements. *)
Lemma slice_last {A} (k : Z) (l : list A) :
  0 < k → slice (- k) l = drop (length l - Z.to_nat k) l.
Proof.
  intros Hk. unfold slice.
  destruct (Z.ltb_spec (- k) 0); [|lia]. f_equal. lia.
Qed.

(** The messages of a window of the last [k] elements, seen from the whole
    array. *)
Lemma scanBackwards_slice_last {A B} (f : A → option B) (k : Z) (l : list A) (b : B) :
  0 < k →
  scanBackwards f (slice (- k) l) = Some b ↔
  ∃ pre x post,
    l = pre ++ x :: post ∧ Z.of_nat (length post) < k
    ∧ f x = Some b ∧ Forall (λ y, f y = None) post.
Proof.
  intros Hk. rewrite slice_last by done. rewrite scanBackwards_Some. split.
  - intros (pre & x & post & H & Hx & Hpost).
    exists (take (length l - Z.to_nat k) l ++ pre), x, post.
    split_and!; [|  |done|done].
    + by rewrite <- app_assoc, <- H, take_drop.
    + apply (f_equal length) in H.
      rewrite length_drop, length_app in H. simpl in H. lia.
  - intros (pre & x & post & -> & Hlen & Hx & Hpost).
    exists (drop (length (pre ++ x :: post) - Z.to_nat k) pre), x, post.
    split_and!; [|done|done].
    rewrite drop_app. f_equal.
    rewrite length_app. simpl.
    replace (length pre + S (length post) - Z.to_nat k - length pre)%nat with O by lia.
    done.
Qed.

(** *** Entries of a processed history *)

Lemma omap_length_le {A B} (f : A → option B) (l : list A) :
  (length (omap f l) ≤ length l)%nat.
Proof.
  induction l as [|x l IH]; simpl; [done|].
  change (list_omap A B f l) with (omap f l).
  destruct (f x); simpl; lia.
Qed.

Lemma processMessage_inv agentId includeImages msg e :
  processMessage agentId includeImages msg = Some e →
  conv_role e = roleOf msg agentId
  ∧ conv_imageUrl e = imageOf includeImages msg.
Proof.
  unfold processMessage. intros H.
  destruct (content msg) as [s| |];
    [destruct (negb (isBlank s))|..];
    try (destruct (imageOf includeImages msg) eqn:Hi); by simplify_eq/=.
Qed.

Lemma imageOf_false msg : imageOf false msg = None.
Proof. unfold imageOf. by destruct (mediaUrl msg). Qed.

Lemma imageOf_Some includeImages msg u :
  imageOf includeImages msg = Some u →
  includeImages = true ∧ mediaUrl msg = Str u ∧ u ≠ "".
Proof.
  unfold imageOf. destruct (mediaUrl msg) as [| |s] eqn:Hm; try done.
  destruct includeImages; simpl; [|done].
  destruct (negb (String.eqb s "")) eqn:Hs; [|done].
  intros [= ->]. split_and!; [done|done|].
  apply negb_true_iff in Hs. by apply String.eqb_neq.
Qed.

Lemma roleOf_User msg agentId :
  roleOf msg agentId = User ↔ isAgent msg = false ∧ senderId msg ≠ agentId.
Proof.
  unfold roleOf. destruct (isAgent msg); simpl.
  - split; [done|]. by intros [? _].
  - case_bool_decide; split; try done. by intros [_ ?].
Qed.

Lemma processMessage_text agentId includeImages msg e :
  processMessage agentId false msg = Some e →
  ∃ e', processMessage agentId includeImages msg = Some e' ∧ forgetImage e' = e.
Proof.
  unfold processMessage. rewrite !imageOf_false.
  destruct (content msg) as [s| |]; [|done..].
  destruct (negb (isBlank s)); [|done].
  intros [= <-]. eexists. split; [done|]. done.
Qed.

End HelpersFacts.

Module HelpersLaws.
Import Js JsFacts Dedup Webhook WebhookFacts Helpers HelpersFacts.

(** X3.  [processMessageHistory] without image tracking yields no entry
    with an [imageUrl] and never more entries than messages; switching image
    tracking on only adds: the conversation built without images is, entry
    by entry and in order, a sub-list of the conversation built with images
    once the [imageUrl] fields are dropped.  Processing goes message by
    message: the conversation of two histories put together is the two
    conversations put together. *)
Theorem processMessageHistory_images_only_add (h1 h2 : list rawMessage)
    (agentId : ostr) (includeImages : bool) :
  Forall (λ e, conv_imageUrl e = None) (processMessageHistory h1 agentId false)
  ∧ (length (processMessageHistory h1 agentId includeImages) ≤ length h1)%nat
  ∧ sublist (processMessageHistory h1 agentId false)
      (forgetImage <$> processMessageHistory h1 agentId true)
  ∧ processMessageHistory (h1 ++ h2) agentId includeImages =
    processMessageHistory h1 agentId includeImages
    ++ processMessageHistory h2 agentId includeImages.
Proof.
  unfold processMessageHistory. split_and!.
  - apply Forall_forall. intros e (msg & _ & He)%list_elem_of_omap.
    apply processMessage_inv in He as [_ ->]. apply imageOf_false.
  - apply omap_length_le.
  - induction h1 as [|msg h IH]; [done|].
    cbn [omap list_omap].
    change (list_omap _ _ ?f ?l) with (omap f l) in *.
    destruct (processMessage agentId false msg) as [e|] eqn:He.
    + destruct (processMessage_text agentId true msg e He) as (e' & -> & <-).
      rewrite fmap_cons. by apply sublist_skip.
    + destruct (processMessage agentId true msg) as [e'|]; [|done].
      rewrite fmap_cons. by apply sublist_cons.
  - apply omap_app.
Qed.

(** X4.  The two helpers that talk to the platform never throw and never
    touch the deduplication store.  [fetchAndProcessHistory] calls nobody
    and yields the empty conversation when the chat id or the agent id is
    missing; otherwise it calls [client.getMessageHistory(chatId, limit,
    agentId)] exactly once and yields the processed history when the call
    resolves to a non-empty array, and the empty conversation when it
    rejects or resolves to an empty array, [null] or [undefined].
    [sendResponse] calls nobody and returns [null] for a test chat;
    otherwise it calls [client.sendMessage(chatId, message,
    richContentBlocks)] exactly once and returns what the call resolves to,
    or [null] when it rejects. *)
Theorem history_and_delivery_helpers_never_throw (env : environment) (n : nat)
    (now : Z) (pm : processedMessages) (chatId agentId : ostr) (limit : Z)
    (includeImages : bool) (message richContentBlocks : jsval) :
  runProg env n now pm (fetchAndProcessHistory chatId agentId limit includeImages) =
    (if truthy chatId && truthy agentId then
       (pm, [Invokes (GetMessageHistory chatId limit agentId)], S n,
        Return match env n (GetMessageHistory chatId limit agentId) with
               | Return (Some (m :: ms)) =>
                   processMessageHistory (m :: ms) agentId includeImages
               | _ => []
               end)
     else (pm, [], n, Return []))
  ∧ runProg env n now pm (helpersSendResponse chatId message richContentBlocks) =
    (if truthyV (isTestChat chatId) then (pm, [], n, Return VNull)
     else
       (pm, [Invokes (SendMessage chatId message richContentBlocks)], S n,
        Return match env n (SendMessage chatId message richContentBlocks) with
               | Return result => result
               | Throw _ => VNull
               end)).
Proof.
  split.
  - unfold fetchAndProcessHistory.
    destruct (truthy chatId), (truthy agentId); cbn [negb orb andb]; try done.
    simpl. by destruct (env n _) as [e|[[|m ms]|]].
  - unfold helpersSendResponse.
    destruct (truthyV (isTestChat chatId)); [done|].
    simpl. by destruct (env n _) as [e|v].
Qed.

(** X5.  [findRecentImage(conversation, k)] with a positive [k] returns
    the image of the most recent user entry that has one among the last [k]
    entries: it returns [u] exactly when the conversation splits into
    [pre ++ msg :: post] with fewer than [k] entries in [post], [msg] a user
    entry with the non-empty image URL [u], and no user entry with an image
    in [post]. *)
Theorem findRecentImage_most_recent_in_window (conv : list convMessage) (k : Z)
    (u : string) :
  0 < k →
  findRecentImage (Some conv) k = Some u ↔
  ∃ pre msg post,
    conv = pre ++ msg :: post
    ∧ Z.of_nat (length post) < k
    ∧ conv_role msg = User ∧ conv_imageUrl msg = Some u ∧ u ≠ ""
    ∧ Forall (λ m, userImage m = None) post.
Proof.
  intros Hk.
  assert (∀ msg, userImage msg = Some u ↔
            conv_role msg = User ∧ conv_imageUrl msg = Some u ∧ u ≠ "") as Himg.
  { intros msg. unfold userImage.
    destruct (conv_role msg); [split; [done|by intros [? _]]|].
    destruct (conv_imageUrl msg) as [v|]; [|split; [done|by intros (_ & ? & _)]].
    destruct (String.eqb_spec v ""); simpl.
    - split; [done|]. intros (_ & [= ->] & ?). done.
    - split; [by intros [= ->]|]. by intros (_ & [= ->] & _). }
  transitivity (scanBackwards userImage (slice (- k) conv) = Some u).
  { unfold findRecentImage. destruct conv as [|m conv]; [|done].
    unfold slice. by rewrite drop_nil. }
  rewrite scanBackwards_slice_last by done.
  split; intros (pre & msg & post & H1 & H2 & H3 & H4);
    exists pre, msg, post.
  - apply Himg in H3 as (? & ? & ?). done.
  - destruct H4 as (? & ? & ?). split_and!; [done..| |done]. by apply Himg.
Qed.

Lemma findRecentImage_most_recent_in_window_witness :
  let conv :=
    [ {| conv_role := User; conv_content := "[Image]";
         conv_imageUrl := Some "https://example.com/image2.jpg" |};
      {| conv_role := User; conv_content := "[Image]";
         conv_imageUrl := Some "https://example.com/image3.jpg" |};
      {| conv_role := Assistant; conv_content := "Shall I go on?";
         conv_imageUrl := None |};
      {| conv_role := User; conv_content := "Yes"; conv_imageUrl := None |} ] in
  0 < 5
  ∧ (findRecentImage (Some conv) 5 = Some "https://example.com/image3.jpg" ↔
     ∃ pre msg post,
       conv = pre ++ msg :: post
       ∧ Z.of_nat (length post) < 5
       ∧ conv_role msg = User
       ∧ conv_imageUrl msg = Some "https://example.com/image3.jpg"
       ∧ "https://example.com/image3.jpg" ≠ ""
       ∧ Forall (λ m, userImage m = None) post).
Proof.
  split; [lia|]. apply (findRecentImage_most_recent_in_window _ 5). lia.
Defined.

(** X6.  The bounds of the look-back.  A [lookbackLimit] of [0] does not
    switch the search off: [slice(-0)] keeps the whole array, so the result
    is that of a limit as long as the conversation, and so is the result of
    every limit that is at least that long. *)
Theorem findRecentImage_zero_limit_is_unbounded (conv : list convMessage) (k : Z) :
  Z.of_nat (length conv) ≤ k →
  findRecentImage (Some conv) 0 = findRecentImage (Some conv) k
  ∧ findRecentImage (Some conv) k =
    findRecentImage (Some conv) (Z.of_nat (length conv)).
Proof.
  intros Hk.
  assert (∀ j, Z.of_nat (length conv) ≤ j ∨ j = 0 →
            findRecentImage (Some conv) j = scanBackwards userImage conv) as H.
  { intros j Hj. unfold findRecentImage. destruct conv as [|m conv]; [done|].
    f_equal. unfold slice.
    destruct (Z.ltb_spec (- j) 0).
    - replace (Z.to_nat _) with O by lia. done.
    - replace (Z.to_nat _) with O by lia. done. }
  rewrite !H by lia. done.
Qed.

Lemma findRecentImage_zero_limit_is_unbounded_witness :
  let conv :=
    [ {| conv_role := User; conv_content := "[Image]";
         conv_imageUrl := Some "https://example.com/image1.jpg" |};
      {| conv_role := Assistant; conv_content := "Done."; conv_imageUrl := None |};
      {| conv_role := User; conv_content := "Thanks"; conv_imageUrl := None |} ] in
  Z.of_nat (length conv) ≤ 3
  ∧ findRecentImage (Some conv) 0 = findRecentImage (Some conv) 3
  ∧ findRecentImage (Some conv) 3 =
    findRecentImage (Some conv) (Z.of_nat (length conv)).
Proof.
  split; [simpl; lia|]. apply (findRecentImage_zero_limit_is_unbounded _ 3).
  simpl. lia.
Defined.

(** X7.  History processing and image look-back together.  On a history
    processed without image tracking, [findRecentImage] finds nothing,
    whatever the limit.  On a history processed with image tracking, the URL
    it returns is the non-empty [media.url] of a message of the raw history
    that is not flagged [isAgent] and whose [senderId] is not the agent id:
    an image sent by the agent is never taken for the user's. *)
Theorem findRecentImage_on_processed_history (h : list rawMessage) (agentId : ostr)
    (k : Z) :
  findRecentImage (Some (processMessageHistory h agentId false)) k = None
  ∧ ∀ u,
      findRecentImage (Some (processMessageHistory h agentId true)) k = Some u →
      ∃ msg, msg ∈ h ∧ mediaUrl msg = Str u ∧ u ≠ ""
             ∧ isAgent msg = false ∧ senderId msg ≠ agentId.
Proof.
  assert (∀ includeImages u,
            findRecentImage (Some (processMessageHistory h agentId includeImages)) k
              = Some u →
            ∃ msg, msg ∈ h ∧ imageOf includeImages msg = Some u
                   ∧ roleOf msg agentId = User) as H.
  { intros includeImages u Hf. unfold findRecentImage in Hf.
    destruct (processMessageHistory h agentId includeImages) as [|e0 conv] eqn:Hc;
      [done|]. rewrite <- Hc in Hf.
    destruct (slice_suffix (- k) (processMessageHistory h agentId includeImages))
      as [n Hn]. rewrite Hn in Hf.
    apply scanBackwards_elem_of in Hf as (e & He & Hu).
    apply list_elem_of_lookup_1 in He as [i He]. rewrite lookup_drop in He.
    apply list_elem_of_lookup_2 in He.
    apply list_elem_of_omap in He as (msg & Hmsg & He).
    apply processMessage_inv in He as [Hr Hi].
    exists msg. split; [done|]. unfold userImage in Hu.
    rewrite Hr, Hi in Hu. destruct (roleOf msg agentId); [done|].
    destruct (imageOf includeImages msg) as [v|]; [|done].
    destruct (negb (String.eqb v "")); [|done]. by injection Hu as ->. }
  split.
  - destruct (findRecentImage _ k) as [u|] eqn:Hf; [|done].
    apply H in Hf as (msg & _ & Hi & _). by rewrite imageOf_false in Hi.
  - intros u Hf. apply H in Hf as (msg & Hmsg & Hi & Hr).
    apply imageOf_Some in Hi as (_ & Hm & Hu).
    apply roleOf_User in Hr as [Ha Hs]. by exists msg.
Qed.



(** X9.  [createSocialShareBlocks] numbers the blocks by position: there
    is one block per link, in the order of the links, the [order] fields are
    [0, 1, 2, ...] without gap, every block has type ['social_share'] and
    the URL of its link, and its platform is the lower-cased platform of the
    link, or the lower-cased default when the link names none.  Missing
    links give no block. *)
Theorem createSocialShareBlocks_numbered (toLowerCase : string → string)
    (links : list link) (defaultPlatform : string) :
  let blocks := createSocialShareBlocks toLowerCase (Some links) defaultPlatform in
  block_order <$> blocks = seq 0 (length links)
  ∧ block_url <$> blocks = link_url <$> links
  ∧ block_platform <$> blocks =
    (λ l, toLowerCase (platformOf l defaultPlatform)) <$> links
  ∧ Forall (λ b, block_type b = "social_share") blocks
  ∧ createSocialShareBlocks toLowerCase None defaultPlatform = [].
Proof.
  cbn zeta.
  assert (createSocialShareBlocks toLowerCase (Some links) defaultPlatform =
          imap (λ index l,
                  createSocialShareBlock toLowerCase (platformOf l defaultPlatform)
                    (link_url l) index) links) as ->.
  { by destruct links. }
  split_and!; [| | | |done].
  - rewrite fmap_imap. apply list_eq. intros i. rewrite list_lookup_imap.
    destruct (links !! i) as [l|] eqn:Hl; simpl.
    + apply lookup_lt_Some in Hl. by rewrite lookup_seq_lt.
    + apply lookup_ge_None in Hl. by rewrite lookup_seq_ge.
  - rewrite fmap_imap. apply list_eq. intros i.
    rewrite list_lookup_imap, list_lookup_fmap. by destruct (links !! i).
  - rewrite fmap_imap. apply list_eq. intros i.
    rewrite list_lookup_imap, list_lookup_fmap. by destruct (links !! i).
  - apply Forall_forall. intros b Hb.
    apply list_elem_of_lookup_1 in Hb as [i Hb].
    rewrite list_lookup_imap in Hb. destruct (links !! i); by simplify_eq/=.
Qed.

(** X10.  [validateWebhookPayload] is the stricter of the two validations:
    it accepts a payload exactly when [BaseWebhook.extractWebhookData]
    accepts it and [message.content] is present and not empty, and it then
    extracts the same chat id, agent id, message id and user message; a
    rejection carries an error text, an acceptance none.  So a message
    without text (an image alone) passes the pipeline of [BaseWebhook], with
    user message [''], and is rejected by the handlers that validate with
    this helper. *)
Theorem validateWebhookPayload_refines_extractWebhookData (b : body) :
  (valid (validateWebhookPayload b) = true ↔
     extractWebhookData b = Valid (dataOf b) ∧ truthy (message_content b) = true)
  ∧ (∀ v, validData (validateWebhookPayload b) = Some v →
       valid (validateWebhookPayload b) = true
       ∧ v_chatId v = chatId (dataOf b)
       ∧ v_agentId v = agentId (dataOf b)
       ∧ v_messageId v = messageId (dataOf b)
       ∧ v_userMessage v = userMessage (dataOf b)
       ∧ v_payload v = payload (dataOf b))
  ∧ (valid (validateWebhookPayload b) = false ↔
     is_Some (error (validateWebhookPayload b)))
  ∧ (valid (validateWebhookPayload b) = true ↔
     is_Some (validData (validateWebhookPayload b))).
Proof.
  unfold validateWebhookPayload, extractWebhookData.
  destruct (truthy (chat_id b)) eqn:Hc; cbn [negb].
  - destruct (truthy (message_content b)) eqn:Hm; cbn [negb valid error validData].
    + split_and!.
      * done.
      * intros v [= <-]. cbn. split_and!; try done.
        unfold or_else. by rewrite Hm.
      * split; [done|]. by intros [? ?].
      * split; [eauto|done].
    + split_and!.
      * split; [done|]. by intros [_ ?].
      * done.
      * split; [eauto|done].
      * split; [done|]. by intros [? ?].
  - cbn [valid error validData]. split_and!.
    + split; [done|]. by intros [? _].
    + done.
    + split; [eauto|done].
    + split; [done|]. by intros [? ?].
Qed.

End HelpersLaws.

(** ** Group response tracking: rounds, counts and isolation *)

Module TrackerLawsFacts.
Import Js JsFacts Tracker TrackerFacts TrackerViews.

Lemma set_add_elem (x y : string) (s : list string) :
  y ∈ set_add x s ↔ y = x ∨ y ∈ s.
Proof.
  unfold set_add. case_bool_decide as Hx.
  - split; [by right|]. by intros [->|?].
  - rewrite elem_of_app, list_elem_of_singleton. tauto.
Qed.

Lemma getUniqueUserIds_fold rawHistory agentId :
  getUniqueUserIds rawHistory agentId = foldl (countSender agentId) [] rawHistory.
Proof. done. Qed.

Lemma countSender_elem agentId acc msg u :
  u ∈ countSender agentId acc msg ↔ u ∈ acc ∨ sentBy agentId u msg.
Proof.
  unfold countSender, sentBy.
  destruct (rs_senderId msg) as [| |s] eqn:Hs; [split; [by left|by intros [?|[? _]]]..|].
  destruct (truthy (Str s)) eqn:Ht; simpl.
  - apply truthy_Str in Ht.
    case_bool_decide as Ha; simpl.
    + split; [by left|]. intros [?|([= <-] & _ & ? & _)]; done.
    + destruct (rs_isAgent msg); simpl.
      * split; [by left|]. by intros [?|(_ & _ & _ & ?)].
      * rewrite set_add_elem. split.
        -- intros [->|?]; [by right|by left].
        -- intros [?|([= <-] & _)]; [by right|by left].
  - split; [by left|]. intros [?|([= <-] & Hne & _)]; [done|].
    apply truthy_Str in Hne. congruence.
Qed.

Lemma foldl_countSender_elem agentId h acc u :
  u ∈ foldl (countSender agentId) acc h ↔
  u ∈ acc ∨ ∃ msg, msg ∈ h ∧ sentBy agentId u msg.
Proof.
  revert acc. induction h as [|msg h IH]; intros acc; simpl.
  - split; [by left|]. intros [?|(msg & Hm & _)]; [done|]. by apply elem_of_nil in Hm.
  - rewrite IH, countSender_elem. split.
    + intros [[?|?]|(m & Hm & ?)]; [by left|right..].
      * exists msg. split; [by left|done].
      * exists m. split; [by right|done].
    + intros [?|(m & Hm & ?)]; [by left; left|].
      apply elem_of_cons in Hm as [->|Hm]; [by left; right|].
      right. by exists m.
Qed.

Lemma answered_snoc us u : answered (us ++ [u]) = set_add u (answered us).
Proof. unfold answered. by rewrite foldl_app. Qed.

Lemma answered_elem us x : x ∈ answered us ↔ x ∈ us.
Proof.
  induction us as [|u us IH] using rev_ind.
  - done.
  - rewrite answered_snoc, set_add_elem, IH, elem_of_app, list_elem_of_singleton. tauto.
Qed.

Lemma answered_NoDup us : NoDup (answered us).
Proof.
  induction us as [|u us IH] using rev_ind.
  - constructor.
  - rewrite answered_snoc. by apply set_add_NoDup.
Qed.

Lemma runOps_snoc c os o f : runOps c (os ++ [o]) f = runOp c o (runOps c os f).
Proof. unfold runOps. by rewrite foldl_app. Qed.

Lemma noQuestion_generated suffix t :
  currentQuestionId t = Some ("question_" +:+ suffix) → noQuestion t = false.
Proof. unfold noQuestion. by intros ->. Qed.

(** The tracking state while the answers to a question come in. *)
Lemma getResponseState_answers c expected now suffix f us :
  getResponseState c
    (runOps c (OpRecord <$> us) (startQuestionTracking c expected now suffix f).2) =
  {| currentQuestionId := Some ("question_" +:+ suffix);
     currentQuestionTimestamp := Some now;
     expectedUserIds := expected;
     respondedUserIds := answered us;
     questionCount := questionCount (getResponseState c f) + 1 |}.
Proof.
  induction us as [|u us IH] using rev_ind.
  - rewrite fmap_nil. unfold runOps. cbn [foldl].
    by rewrite getResponseState_start.
  - rewrite fmap_app. change (OpRecord <$> [u]) with [OpRecord u].
    rewrite runOps_snoc. cbn [runOp].
    rewrite getResponseState_record, IH. cbn zeta.
    rewrite (noQuestion_generated suffix) by done. cbn [respondedUserIds].
    rewrite answered_snoc. unfold set_add.
    by destruct (bool_decide (u ∈ answered us)).
Qed.

(** What [recordUserResponse] answers, from the state it leaves. *)
Lemma recordUserResponse_allResponded c u f :
  (recordUserResponse c u f).1.1 =
  negb (noQuestion (getResponseState c f))
  && allRespondedOf (getResponseState c (recordUserResponse c u f).2).
Proof.
  rewrite getResponseState_record. unfold recordUserResponse. cbn zeta.
  destruct (noQuestion (getResponseState c f)); [done|].
  by destruct (bool_decide (u ∈ respondedUserIds (getResponseState c f))).
Qed.

Lemma allRespondedOf_spec t :
  allRespondedOf t = true ↔
  expectedUserIds t ≠ [] ∧ ∀ e, e ∈ expectedUserIds t → e ∈ respondedUserIds t.
Proof.
  unfold allRespondedOf. rewrite andb_true_iff, Nat.ltb_lt, forallb_forall.
  split.
  - intros [Hlen Hall]. split.
    + intros Hnil. rewrite Hnil in Hlen. simpl in Hlen. lia.
    + intros e He. apply list_elem_of_In in He.
      by apply Hall, bool_decide_eq_true in He.
  - intros [Hne Hall]. split.
    + destruct (expectedUserIds t); [done|simpl; lia].
    + intros e He. apply bool_decide_eq_true, Hall. by apply list_elem_of_In.
Qed.

Lemma questionCount_runOp c o f :
  questionCount (getResponseState c (runOp c o f)) =
  questionCount (getResponseState c f) + (if isStart o then 1 else 0).
Proof.
  destruct o as [expected now suffix|u|]; cbn [runOp isStart].
  - rewrite getResponseState_start. done.
  - rewrite getResponseState_record. cbn zeta.
    destruct (noQuestion _); [lia|]. destruct (bool_decide _); simpl; lia.
  - rewrite getResponseState_clear. simpl. lia.
Qed.

(** The other fields of the entry of a chat. *)
Lemma interviewFields_save c t f :
  interviewFields (interviewStateOrEmpty c (saveResponseState c t f)) =
  interviewFields (interviewStateOrEmpty c f).
Proof.
  unfold saveResponseState, setInterviewState, interviewStateOrEmpty at 1,
    getInterviewState.
  by rewrite lookup_insert_eq.
Qed.

End TrackerLawsFacts.

Module TrackerLaws.
Import Js JsFacts Tracker TrackerFacts TrackerViews TrackerLawsFacts.

(** X11.  [getUniqueUserIds] returns exactly the senders of the history
    that count as users, each once: an id is in the result if and only if
    some message of the history has it as its non-empty [senderId], is not
    flagged [isAgent], and the id differs from the agent id. *)
Theorem getUniqueUserIds_exactly_the_users (rawHistory : list rawSender)
    (agentId : ostr) :
  NoDup (getUniqueUserIds rawHistory agentId)
  ∧ ∀ u, u ∈ getUniqueUserIds rawHistory agentId ↔
         ∃ msg, msg ∈ rawHistory
                ∧ rs_senderId msg = Str u ∧ u ≠ ""
                ∧ Str u ≠ agentId ∧ rs_isAgent msg = false.
Proof.
  split; [apply getUniqueUserIds_NoDup|].
  intros u. rewrite getUniqueUserIds_fold, foldl_countSender_elem.
  split; [|by right].
  intros [H|H]; [by apply elem_of_nil in H|done].
Qed.

(** X12.  [questionCount] counts the questions asked in a chat: after any
    sequence of [startQuestionTracking], [recordUserResponse] and
    [clearQuestionTracking] calls for the chat it has grown by the number of
    [startQuestionTracking] calls; recording and clearing never change
    it. *)
Theorem questionCount_counts_started_questions (chatId : string)
    (ops : list trackerOp) (f : stateFile) :
  questionCount (getResponseState chatId (runOps chatId ops f)) =
  questionCount (getResponseState chatId f)
  + Z.of_nat (length (List.filter isStart ops)).
Proof.
  induction ops as [|o ops IH] using rev_ind.
  - simpl. lia.
  - rewrite runOps_snoc, questionCount_runOp, IH, List.filter_app, length_app.
    simpl. destruct (isStart o); simpl; lia.
Qed.

(** X13.  A round of answers.  After [startQuestionTracking(chatId,
    expected)] and the answers of the users [us], in any order and with any
    repetitions, [recordUserResponse(chatId, u)] reports [allResponded]
    exactly when [expected] is not empty and each of its ids is among
    [us] and [u]; the stored [respondedUserIds] then holds exactly the ids
    that answered, each once. *)
Theorem recordUserResponse_completes_round (chatId : string)
    (expected : list string) (now : Z) (suffix : string) (f : stateFile)
    (us : list string) (u : string) :
  let asked := (startQuestionTracking chatId expected now suffix f).2 in
  let before := runOps chatId (OpRecord <$> us) asked in
  let after := (recordUserResponse chatId u before).2 in
  ((recordUserResponse chatId u before).1.1 = true ↔
     expected ≠ [] ∧ ∀ e, e ∈ expected → e ∈ us ++ [u])
  ∧ (∀ x, x ∈ respondedUserIds (getResponseState chatId after) ↔ x ∈ us ++ [u])
  ∧ NoDup (respondedUserIds (getResponseState chatId after))
  ∧ expectedUserIds (getResponseState chatId after) = expected.
Proof.
  cbn zeta.
  pose proof (getResponseState_answers chatId expected now suffix f (us ++ [u])) as Hs.
  rewrite fmap_app in Hs. change (OpRecord <$> [u]) with [OpRecord u] in Hs.
  rewrite runOps_snoc in Hs. cbn [runOp] in Hs.
  rewrite recordUserResponse_allResponded, Hs.
  rewrite getResponseState_answers.
  rewrite (noQuestion_generated suffix) by done. cbn [negb andb].
  rewrite allRespondedOf_spec. cbn [expectedUserIds respondedUserIds].
  split_and!.
  - by setoid_rewrite answered_elem.
  - intros x. apply answered_elem.
  - apply answered_NoDup.
  - done.
Qed.

(** X14.  When [recordUserResponse] reports [allResponded] and the expected
    list names no id twice (as the list [getUniqueUserIds] yields),
    [isWaitingForResponses] is false afterwards: the handler that then
    replies is never told to keep waiting. *)
Theorem allResponded_ends_waiting (chatId userId : string) (f : stateFile) :
  NoDup (expectedUserIds (getResponseState chatId f)) →
  (recordUserResponse chatId userId f).1.1 = true →
  isWaitingForResponses chatId (recordUserResponse chatId userId f).2 = false.
Proof.
  intros Hnd Hall.
  rewrite recordUserResponse_allResponded in Hall.
  apply andb_true_iff in Hall as [Hq Hall].
  apply allRespondedOf_spec in Hall as [_ Hall].
  assert (expectedUserIds (getResponseState chatId (recordUserResponse chatId userId f).2)
          = expectedUserIds (getResponseState chatId f)) as He.
  { rewrite getResponseState_record. cbn zeta.
    destruct (noQuestion _); [done|]. by destruct (bool_decide _). }
  rewrite He in Hall.
  apply (NoDup_submseteq _ _ Hnd), submseteq_length in Hall.
  unfold isWaitingForResponses. cbn zeta. rewrite He.
  apply andb_false_iff. right. apply Nat.ltb_ge. lia.
Qed.

Lemma allResponded_ends_waiting_witness :
  let f := (recordUserResponse "chat" "A"
              (startQuestionTracking "chat" ["A"; "B"] 0 "0_abc" ∅).2).2 in
  NoDup (expectedUserIds (getResponseState "chat" f))
  ∧ (recordUserResponse "chat" "B" f).1.1 = true
  ∧ isWaitingForResponses "chat" (recordUserResponse "chat" "B" f).2 = false.
Proof.
  assert (NoDup (expectedUserIds (getResponseState "chat"
            (recordUserResponse "chat" "A"
               (startQuestionTracking "chat" ["A"; "B"] 0 "0_abc" ∅).2).2))) as Hnd.
  { vm_compute. compute_done. }
  assert ((recordUserResponse "chat" "B"
             (recordUserResponse "chat" "A"
                (startQuestionTracking "chat" ["A"; "B"] 0 "0_abc" ∅).2).2).1.1 = true)
    as Hall by (vm_compute; reflexivity).
  split_and!; [exact Hnd|exact Hall|].
  exact (allResponded_ends_waiting "chat" "B" _ Hnd Hall).
Defined.

(** X15.  The tracker keeps to its own data: a call for one chat changes
    the entry of no other chat, and in the entry of its own chat it changes
    the [questionResponseTracking] object only, never the interview
    fields. *)
Theorem tracker_touches_only_its_tracking (chatId : string) (o : trackerOp)
    (f : stateFile) :
  (∀ other, other ≠ chatId → runOp chatId o f !! other = f !! other)
  ∧ interviewFields (interviewStateOrEmpty chatId (runOp chatId o f)) =
    interviewFields (interviewStateOrEmpty chatId f).
Proof.
  split.
  - intros other Hne.
    destruct o as [expected now suffix|u|]; cbn [runOp].
    + unfold startQuestionTracking, saveResponseState, setInterviewState. simpl.
      by rewrite lookup_insert_ne.
    + unfold recordUserResponse. cbn zeta.
      destruct (noQuestion _); [done|].
      destruct (bool_decide _); [done|]. simpl.
      unfold saveResponseState, setInterviewState. by rewrite lookup_insert_ne.
    + unfold clearQuestionTracking, setInterviewState. by rewrite lookup_insert_ne.
  - destruct o as [expected now suffix|u|]; cbn [runOp].
    + unfold startQuestionTracking. simpl. apply interviewFields_save.
    + unfold recordUserResponse. cbn zeta.
      destruct (noQuestion _); [done|].
      destruct (bool_decide _); [done|]. simpl. apply interviewFields_save.
    + unfold clearQuestionTracking, setInterviewState, interviewStateOrEmpty at 1,
        getInterviewState.
      by rewrite lookup_insert_eq.
Qed.

(** X16.  Answering twice is answering once: a second
    [recordUserResponse(chatId, userId)] right after the first returns what
    the first returned and leaves the file as the first left it. *)
Theorem recordUserResponse_twice (chatId userId : string) (f : stateFile) :
  recordUserResponse chatId userId (recordUserResponse chatId userId f).2 =
  recordUserResponse chatId userId f.
Proof.
  unfold recordUserResponse at 2 3. cbn zeta.
  destruct (noQuestion (getResponseState chatId f)) eqn:Hq.
  { cbn [snd]. unfold recordUserResponse. cbn zeta. by rewrite Hq. }
  destruct (bool_decide (userId ∈ respondedUserIds (getResponseState chatId f))) eqn:Hu.
  { cbn [negb snd]. unfold recordUserResponse. cbn zeta. by rewrite Hq, Hu. }
  cbn [negb snd].
  unfold recordUserResponse. cbn zeta.
  rewrite getResponseState_save.
  unfold noQuestion in *. cbn [currentQuestionId respondedUserIds]. rewrite Hq.
  rewrite bool_decide_eq_true_2; [done|].
  apply elem_of_app. right. by apply list_elem_of_singleton.
Qed.

End TrackerLaws.

(** ** The group flow: one reply per round *)

Module GroupFlowFacts.
Import Js JsFacts Tracker TrackerFacts TrackerViews TrackerLawsFacts GroupFlow.

Lemma simulateAll_cons agentId chatId rawHistory m rest f :
  simulateAll agentId chatId rawHistory (m :: rest) f =
  let r := simulateWebhookProcessing agentId chatId (m.1.1) rawHistory (m.1.2) (m.2) f in
  let rs := simulateAll agentId chatId rawHistory rest r.2 in
  (r.1 :: rs.1, rs.2).
Proof.
  destruct m as [[s now] suffix]. cbn [simulateAll fst snd].
  destruct (simulateWebhookProcessing agentId chatId s rawHistory now suffix f)
    as [d f1]. cbn [fst snd].
  by destruct (simulateAll agentId chatId rawHistory rest f1) as [ds f2].
Qed.

Lemma asking_waiting chatId expected responded f :
  asking chatId expected responded f →
  NoDup expected → NoDup responded →
  (∀ x, x ∈ responded → x ∈ expected) →
  (∃ e, e ∈ expected ∧ e ∉ responded) →
  isWaitingForResponses chatId f = true.
Proof.
  intros (q & ts & n & Hq & Hs) Hexp Hresp Hinc Hex.
  apply isWaitingForResponses_counts. rewrite Hs. cbn.
  assert (length responded < length expected)%nat as Hlt.
  { pose proof (length_lt_properSubset
      {| currentQuestionId := Some q; currentQuestionTimestamp := ts;
         expectedUserIds := expected; respondedUserIds := responded;
         questionCount := n |}) as H.
    cbn in H. apply H; [done..|]. by split. }
  split_and!; [done|lia|done].
Qed.

(** What [recordUserResponse] does while a question is asked. *)
Lemma asking_record chatId expected responded f u :
  asking chatId expected responded f →
  (recordUserResponse chatId u f).1.1 =
    allRespondedOf {| currentQuestionId := None; currentQuestionTimestamp := None;
                      expectedUserIds := expected;
                      respondedUserIds := set_add u responded;
                      questionCount := 0 |}
  ∧ asking chatId expected (set_add u responded) (recordUserResponse chatId u f).2.
Proof.
  intros (q & ts & n & Hq & Hs).
  assert (noQuestion (getResponseState chatId f) = false) as Hnq.
  { rewrite Hs. unfold noQuestion. cbn. by apply String.eqb_neq. }
  assert (getResponseState chatId (recordUserResponse chatId u f).2 =
          {| currentQuestionId := Some q; currentQuestionTimestamp := ts;
             expectedUserIds := expected;
             respondedUserIds := set_add u responded;
             questionCount := n |}) as Hafter.
  { rewrite getResponseState_record. cbn zeta. rewrite Hnq, Hs.
    cbn [respondedUserIds currentQuestionId currentQuestionTimestamp
         expectedUserIds questionCount].
    unfold set_add. by destruct (bool_decide (u ∈ responded)). }
  split.
  - rewrite recordUserResponse_allResponded, Hnq, Hafter. done.
  - by exists q, ts, n.
Qed.

Lemma simulate_group agentId chatId senderId rawHistory now suffix f :
  (1 < length (getUniqueUserIds rawHistory agentId))%nat →
  simulateWebhookProcessing agentId chatId senderId rawHistory now suffix f =
  if isWaitingForResponses chatId f then
    let r := recordUserResponse chatId senderId f in
    let state := getResponseState chatId r.2 in
    let remaining :=
      Z.of_nat (length (expectedUserIds state))
      - Z.of_nat (length (respondedUserIds state)) in
    if negb r.1.1 then
      ({| shouldRespond := false; why := Waiting;
          remainingCount := Some remaining; startedTracking := false |}, r.2)
    else
      ({| shouldRespond := true; why := AllResponded;
          remainingCount := None; startedTracking := false |},
       clearQuestionTracking chatId r.2)
  else
    ({| shouldRespond := true; why := QuestionAsked;
        remainingCount := None; startedTracking := true |},
     (startQuestionTracking chatId (getUniqueUserIds rawHistory agentId)
        now suffix f).2).
Proof.
  intros Hg. unfold simulateWebhookProcessing. cbn zeta.
  apply Nat.ltb_lt in Hg. rewrite Hg. cbn [negb].
  destruct (isWaitingForResponses chatId f); [|done].
  by destruct (recordUserResponse chatId senderId f) as [[a t] f1].
Qed.

(** The messages of a round after the question. *)
Lemma simulateAll_round agentId chatId rawHistory
    (msgs : list (string * Z * string)) (last : string * Z * string) :
  let users := getUniqueUserIds rawHistory agentId in
  (1 < length users)%nat →
  ∀ responded f,
    asking chatId users responded f →
    NoDup responded →
    (∀ x, x ∈ responded → x ∈ users) →
    (∀ u, u ∈ ((λ m, m.1.1) <$> msgs) ++ [last.1.1] → u ∈ users) →
    (∃ e, e ∈ users ∧ (e ∉ responded) ∧ (e ∉ (λ m, m.1.1) <$> msgs)) →
    (∀ e, e ∈ users → e ∈ responded ∨ e ∈ ((λ m, m.1.1) <$> msgs) ++ [last.1.1]) →
    let r := simulateAll agentId chatId rawHistory (msgs ++ [last]) f in
    shouldRespond <$> r.1 = replicate (length msgs) false ++ [true]
    ∧ why <$> r.1 = replicate (length msgs) Waiting ++ [AllResponded]
    ∧ isWaitingForResponses chatId r.2 = false.
Proof.
  intros users Hg.
  assert (NoDup users) as Hnd by apply getUniqueUserIds_NoDup.
  induction msgs as [|m msgs IH]; intros responded f Hask Hresp Hinc Hin Hex Hall.
  - cbn [app fmap list_fmap length replicate] in *. cbn zeta.
    rewrite simulateAll_cons. cbn zeta. cbn [simulateAll fst snd].
    rewrite simulate_group by done.
    destruct Hex as (e & He & Hne & _).
    rewrite (asking_waiting chatId users responded f) by eauto.
    destruct (asking_record chatId users responded f (last.1.1) Hask) as [Hr Hask'].
    cbn zeta. rewrite Hr.
    assert (allRespondedOf
              {| currentQuestionId := None; currentQuestionTimestamp := None;
                 expectedUserIds := users;
                 respondedUserIds := set_add (last.1.1) responded;
                 questionCount := 0 |} = true) as ->.
    { apply allRespondedOf_spec. cbn. split.
      - intros Hnil. fold users in Hnil. rewrite Hnil in He. by apply elem_of_nil in He.
      - intros x Hx. apply set_add_elem.
        destruct (Hall x Hx) as [?|Hl]; [by right|].
        apply list_elem_of_singleton in Hl. by left. }
    cbn [negb fst snd fmap list_fmap]. split_and!; [done|done|].
    unfold isWaitingForResponses. cbn zeta.
    rewrite getResponseState_clear. done.
  - cbn [app fmap list_fmap length replicate] in *. cbn zeta.
    rewrite simulateAll_cons. cbn zeta.
    rewrite simulate_group by done.
    destruct Hex as (e & He & Hne & Hne').
    rewrite (asking_waiting chatId users responded f) by eauto.
    destruct (asking_record chatId users responded f (m.1.1) Hask) as [Hr Hask'].
    cbn zeta. rewrite Hr.
    apply not_elem_of_cons in Hne' as [Hem Hne'].
    assert (allRespondedOf
              {| currentQuestionId := None; currentQuestionTimestamp := None;
                 expectedUserIds := users;
                 respondedUserIds := set_add (m.1.1) responded;
                 questionCount := 0 |} = false) as ->.
    { apply not_true_is_false. intros [_ H]%allRespondedOf_spec. cbn in H.
      apply H, set_add_elem in He as [?|?]; done. }
    cbn [negb fst snd].
    specialize (IH (set_add (m.1.1) responded) (recordUserResponse chatId (m.1.1) f).2).
    destruct IH as (IH1 & IH2 & IH3).
    + done.
    + by apply set_add_NoDup.
    + intros x [->|?]%set_add_elem; [|by apply Hinc].
      apply Hin. by left.
    + intros u Hu. apply Hin. by right.
    + exists e. split_and!; [done| |done].
      intros [?|?]%set_add_elem; done.
    + intros x Hx. destruct (Hall x Hx) as [?|Hx'].
      * left. apply set_add_elem. by right.
      * apply elem_of_cons in Hx' as [->|?]; [|by right].
        left. apply set_add_elem. by left.
    + cbn zeta in IH1, IH2, IH3. rewrite !fmap_cons, IH1, IH2. done.
Qed.

End GroupFlowFacts.

Module GroupFlowLaws.
Import Js JsFacts Tracker TrackerFacts TrackerViews TrackerLawsFacts GroupFlow GroupFlowFacts.

(** X17.  One reply per round.  In a chat whose history shows at least two
    users and in which no question is pending, the flow of
    [simulateWebhookProcessing] answers the first message and starts
    tracking; to the messages that follow, all from users of the history, it
    gives no reply as long as some user has not written, and it replies to
    the message with which every user has written; after that reply nothing
    is pending. *)
Theorem group_round_answers_once (agentId : ostr) (chatId : string)
    (rawHistory : list rawSender) (f : stateFile)
    (first : string * Z * string) (msgs : list (string * Z * string))
    (last : string * Z * string) :
  let users := getUniqueUserIds rawHistory agentId in
  let senders := (λ m, m.1.1) <$> msgs in
  (1 < length users)%nat →
  isWaitingForResponses chatId f = false →
  (∀ u, u ∈ senders ++ [last.1.1] → u ∈ users) →
  (∃ e, e ∈ users ∧ e ∉ senders) →
  (∀ e, e ∈ users → e ∈ senders ++ [last.1.1]) →
  let r := simulateAll agentId chatId rawHistory (first :: msgs ++ [last]) f in
  shouldRespond <$> r.1 = true :: replicate (length msgs) false ++ [true]
  ∧ why <$> r.1 = QuestionAsked :: replicate (length msgs) Waiting ++ [AllResponded]
  ∧ isWaitingForResponses chatId r.2 = false.
Proof.
  intros users senders Hg Hw Hin Hex Hall.
  cbn zeta. rewrite simulateAll_cons. cbn zeta.
  rewrite simulate_group by done. rewrite Hw. cbn [fst snd].
  destruct first as [[s0 now] suffix]. cbn [fst snd].
  destruct Hex as (e & He & Hne).
  destruct (simulateAll_round agentId chatId rawHistory msgs last Hg []
              (startQuestionTracking chatId users now suffix f).2)
    as (H1 & H2 & H3).
  - exists ("question_" +:+ suffix), (Some now),
      (questionCount (getResponseState chatId f) + 1).
    split; [done|]. by rewrite getResponseState_start.
  - constructor.
  - intros x Hx. by apply elem_of_nil in Hx.
  - done.
  - exists e. split_and!; [done| |done]. intros Hx. by apply elem_of_nil in Hx.
  - intros x Hx. right. by apply Hall.
  - cbn zeta in H1, H2, H3. fold users. rewrite !fmap_cons, H1, H2. done.
Qed.

Lemma group_round_answers_once_witness :
  let h := [ {| rs_senderId := Str "user-alice"; rs_isAgent := false |};
             {| rs_senderId := Str "user-bob"; rs_isAgent := false |};
             {| rs_senderId := Str "user-charlie"; rs_isAgent := false |} ] in
  let msgs := [ ("user-bob", 1, "1_b"); ("user-charlie", 2, "2_c") ] in
  let r := simulateAll (Str "mandy-agent-id") "test-webhook-group-123" h
             (("user-alice", 0, "0_a") :: msgs ++ [("user-alice", 3, "3_a")]) ∅ in
  shouldRespond <$> r.1 = [true; false; false; true]
  ∧ why <$> r.1 = [QuestionAsked; Waiting; Waiting; AllResponded]
  ∧ isWaitingForResponses "test-webhook-group-123" r.2 = false.
Proof.
  apply (group_round_answers_once (Str "mandy-agent-id") "test-webhook-group-123"
           [ {| rs_senderId := Str "user-alice"; rs_isAgent := false |};
             {| rs_senderId := Str "user-bob"; rs_isAgent := false |};
             {| rs_senderId := Str "user-charlie"; rs_isAgent := false |} ]
           ∅ ("user-alice", 0, "0_a")
           [ ("user-bob", 1, "1_b"); ("user-charlie", 2, "2_c") ]
           ("user-alice", 3, "3_a")).
  - vm_compute. lia.
  - vm_compute. reflexivity.
  - intros u Hu. cbn in Hu.
    repeat (apply elem_of_cons in Hu as [->|Hu]; [compute_done|]).
    by apply elem_of_nil in Hu.
  - exists "user-alice". split; compute_done.
  - intros e He.
    change (e ∈ ["user-alice"; "user-bob"; "user-charlie"]) in He.
    repeat (apply elem_of_cons in He as [->|He]; [compute_done|]).
    by apply elem_of_nil in He.
Defined.

End GroupFlowLaws.

(** ** The pipeline: [chat.started], status codes, the store, the envelope *)

Module WebhookLawsFacts.
Import Js JsFacts Dedup DedupFacts Webhook WebhookFacts WebhookSpec.

(** A body without calls to the deduplication helpers leaves the store
    as it is. *)
Lemma runProg_asyncOnly_store {R} env n now pm (p : prog R) :
  asyncOnly p → (runProg env n now pm p).1.1.1 = pm.
Proof.
  revert n. induction p as [r|c k IH|c k IH]; intros n Hp; simpl in *; [done|done|].
  specialize (IH (env n c) (S n) (Hp _)).
  by destruct (runProg env (S n) now pm (k (env n c))) as [[[pm' evs] n'] r].
Qed.

(** The store after an invocation. *)
Lemma run_store ag env now pm b :
  (run ag env now pm b).1.1 =
  if bool_decide (event b ≠ Str "chat.started")
     && truthy (chat_id b) && negb (isDuplicateMessage (message_id b) pm)
  then markMessageProcessed (message_id b) now pm
  else pm.
Proof.
  destruct (decide (event b = Str "chat.started")) as [Hev|Hev].
  { rewrite bool_decide_eq_false_2 by (by intros ?).
    rewrite run_eq. cbn [fst].
    by apply runProg_asyncOnly_store, asyncOnly_handle_chatStarted. }
  rewrite bool_decide_eq_true_2 by done. cbn [andb].
  destruct (truthy (chat_id b)) eqn:Hc; cbn [andb].
  - rewrite run_eq, (runProg_handle ag env 0 now pm b Hev Hc). cbn zeta.
    destruct (isDuplicateMessage (message_id b) pm); [done|]. cbn [negb].
    destruct (historyStep env 0 (dataOf b)) as [[hevs n1] conversation].
    by destruct (env n1 _).
  - unfold run. by rewrite handle_invalid.
Qed.

(** The response to a message event. *)
Lemma run_response ag env now pm b :
  event b ≠ Str "chat.started" →
  (run ag env now pm b).2 =
  if negb (truthy (chat_id b)) then
    validationResponse "Missing chat.id in webhook payload"
  else if isDuplicateMessage (message_id b) pm then skippedResponse (message_id b)
  else
    match env (historyStep env 0 (dataOf b)).1.2
            (ProcessRequest (dataOf b) (historyStep env 0 (dataOf b)).2) with
    | Throw e => errorResponse e
    | Return result => successResponse ag (chat_id b) result
    end.
Proof.
  intros Hev.
  destruct (truthy (chat_id b)) eqn:Hc; cbn [negb].
  - rewrite run_eq, (runProg_handle ag env 0 now pm b Hev Hc). cbn zeta.
    destruct (isDuplicateMessage (message_id b) pm); [done|].
    destruct (historyStep env 0 (dataOf b)) as [[hevs n1] conversation].
    cbn [fst snd]. by destruct (env n1 _).
  - unfold run. by rewrite handle_invalid.
Qed.

End WebhookLawsFacts.

Module WebhookLaws.
Import Js JsFacts Dedup DedupFacts Webhook WebhookFacts WebhookSpec WebhookLawsFacts.

(** X18.  The [chat.started] flow.  An invocation on a [chat.started]
    event never reads or writes the deduplication store and calls neither
    the history collaborator nor the processing hook.  Without a chat id (at
    the root or in [chatMetadata]) it answers 400; when
    [agent.getWelcomeMessage] throws it answers 500; in a test chat it
    answers 200 without sending; otherwise it sends the welcome message
    exactly once and answers 200 when the delivery resolves and 500, with
    [event: 'chat.started'], when it rejects - and then no error
    notification is attempted. *)
Theorem chat_started_flow (ag : agent) (env : environment) (now : Z)
    (pm : processedMessages) (b : body) :
  event b = Str "chat.started" →
  let chatId := or_else (root_chatId b) (meta_chatId b) in
  let userName := or_else (root_userName b) (meta_userName b) in
  let isAnonymous := orV (root_isAnonymous b) (meta_isAnonymous b) in
  run ag env now pm b =
  if negb (truthy chatId) then
    (pm, [], validationResponse "Missing chatId in webhook payload")
  else
    match getWelcomeMessage ag userName isAnonymous with
    | Throw e => (pm, [], chatStartedErrorResponse e)
    | Return welcomeMessage =>
        if truthyV (isTestChat chatId) then (pm, [], chatStartedResponse ag userName)
        else
          (pm, [Invokes (SendMessage chatId (VStr welcomeMessage) VUndefined)],
           match env O (SendMessage chatId (VStr welcomeMessage) VUndefined) with
           | Throw e => chatStartedErrorResponse e
           | Return _ => chatStartedResponse ag userName
           end)
    end.
Proof.
  intros Hev. cbn zeta. unfold run, handle, handleTry, handleChatStarted.
  rewrite bool_decide_eq_true_2 by done.
  destruct (negb (truthy (or_else (root_chatId b) (meta_chatId b)))); [done|].
  destruct (getWelcomeMessage ag _ _) as [e|w]; [done|].
  destruct (truthyV (isTestChat (or_else (root_chatId b) (meta_chatId b)))); [done|].
  simpl. by destruct (env O _) as [e|v].
Qed.

Lemma chat_started_flow_witness :
  let b := {| event := Str "chat.started";
              chat_id := Undefined; agent_id := Undefined;
              message_id := Undefined; message_content := Undefined;
              message_media_url := Undefined;
              root_chatId := Undefined; meta_chatId := Str "chat-1";
              root_userName := Str "Ann"; meta_userName := Undefined;
              root_isAnonymous := VUndefined; meta_isAnonymous := VUndefined |} in
  run sampleAgent failing 0 ∅ b =
  (∅, [Invokes (SendMessage (Str "chat-1") (VStr "Hi! I am Mandy.") VUndefined)],
   chatStartedErrorResponse "Request failed with status code 500").
Proof.
  exact (chat_started_flow sampleAgent failing 0 ∅
           {| event := Str "chat.started";
              chat_id := Undefined; agent_id := Undefined;
              message_id := Undefined; message_content := Undefined;
              message_media_url := Undefined;
              root_chatId := Undefined; meta_chatId := Str "chat-1";
              root_userName := Str "Ann"; meta_userName := Undefined;
              root_isAnonymous := VUndefined; meta_isAnonymous := VUndefined |}
           eq_refl).
Defined.

(** X19.  The status code of a message event.  For a request that is no
    [chat.started] event, [handle] answers 400 exactly when [chat.id] is
    missing, 500 exactly when the request is valid, no duplicate, and the
    processing hook throws, and 200 in every other case: for a duplicate,
    and whenever the hook returns - also when the history fetch or the
    delivery of the reply failed. *)
Theorem status_of_message_event (ag : agent) (env : environment) (now : Z)
    (pm : processedMessages) (b : body) :
  event b ≠ Str "chat.started" →
  let r := (run ag env now pm b).2 in
  let hook := ProcessRequest (dataOf b) (historyStep env 0 (dataOf b)).2 in
  let answer := env (historyStep env 0 (dataOf b)).1.2 hook in
  (status r = 400 ↔ truthy (chat_id b) = false)
  ∧ (status r = 500 ↔
       truthy (chat_id b) = true
       ∧ isDuplicateMessage (message_id b) pm = false
       ∧ ∃ e, answer = Throw e)
  ∧ (status r = 200 ↔
       truthy (chat_id b) = true
       ∧ (isDuplicateMessage (message_id b) pm = true
          ∨ ∃ result, answer = Return result)).
Proof.
  intros Hev. cbn zeta. rewrite run_response by done.
  destruct (truthy (chat_id b)); cbn [negb].
  - destruct (isDuplicateMessage (message_id b) pm).
    + unfold skippedResponse; cbn [status]. split_and!.
      * done.
      * split; [done|]. by intros (_ & ? & _).
      * split; [|done]. intros _. split; [done|by left].
    + destruct (env _ _) as [e|result].
      * unfold errorResponse; cbn [status]. split_and!.
        -- done.
        -- split; [|done]. intros _. split_and!; [done|done|by exists e].
        -- split; [done|]. intros (_ & [?|[? ?]]); done.
      * unfold successResponse; cbn [status]. split_and!.
        -- done.
        -- split; [done|]. intros (_ & _ & [? ?]). done.
        -- split; [|done]. intros _. split; [done|]. right. by exists result.
  - unfold validationResponse; cbn [status]. split_and!.
    + done.
    + split; [done|]. by intros (? & _).
    + split; [done|]. by intros (? & _).
Qed.

Lemma status_of_message_event_witness :
  let b := messageEvent (Str "chat-1") (Str "m1") in
  let r := (run sampleAgent failing 0 ∅ b).2 in
  status r = 500.
Proof.
  apply (status_of_message_event sampleAgent failing 0 ∅
           (messageEvent (Str "chat-1") (Str "m1")));
    [discriminate|].
  split_and!; [reflexivity|reflexivity|]. by exists "boom".
Defined.

(** X20.  [handle] changes the deduplication store by marking its own
    message and in no other way: every entry that was in the store is still
    there with its timestamp, and an id that was not in the store is there
    afterwards only if it is the non-empty id of the message of this
    request, a valid message event, and then with the time of this
    invocation. *)
Theorem handle_only_marks_its_message (ag : agent) (env : environment) (now : Z)
    (pm : processedMessages) (b : body) :
  let pm' := (run ag env now pm b).1.1 in
  (∀ k ts, pm !! k = Some ts → pm' !! k = Some ts)
  ∧ (∀ k, pm !! k = None →
       pm' !! k = None
       ∨ (event b ≠ Str "chat.started"
          ∧ truthy (chat_id b) = true
          ∧ message_id b = Str k ∧ k ≠ ""
          ∧ pm' !! k = Some now)).
Proof.
  cbn zeta. rewrite run_store.
  destruct (bool_decide (event b ≠ Str "chat.started")) eqn:Hev; cbn [andb];
    [|split; [done|by left]].
  apply bool_decide_eq_true in Hev.
  destruct (truthy (chat_id b)) eqn:Hc; cbn [andb]; [|split; [done|by left]].
  destruct (isDuplicateMessage (message_id b) pm) eqn:Hdup; cbn [negb];
    [split; [done|by left]|].
  destruct (truthy (message_id b)) eqn:Hm; last first.
  { rewrite mark_falsy by done. split; [done|by left]. }
  apply truthy_inv in Hm as (m & Hm & Hne). rewrite Hm in *.
  rewrite mark_Str by done. rewrite isDuplicate_Str in Hdup by done.
  apply bool_decide_eq_false in Hdup. apply eq_None_not_Some in Hdup.
  split.
  - intros k ts Hk. rewrite lookup_insert_ne; [done|]. intros ->. congruence.
  - intros k Hk. destruct (decide (k = m)) as [->|Hkm].
    + right. by rewrite lookup_insert_eq.
    + left. by rewrite lookup_insert_ne.
Qed.

(** X21.  The envelope of a successful reply is
    [{ success: true, agent, ...result, testMode }]: it answers 200, its
    [testMode] is always the boolean "the chat id starts with 'test-'",
    whatever the result says, every other field of the result of the
    processing hook is passed on as it is - so a result that carries its own
    [success] or [agent] overrides the values of the pipeline - and
    [success: true] and the agent name appear when the result has no such
    field. *)
Theorem success_envelope_fields (ag : agent) (env : environment) (now : Z)
    (pm : processedMessages) (b : body) (chat : string) (result : object) :
  event b ≠ Str "chat.started" →
  chat_id b = Str chat → chat ≠ "" →
  isDuplicateMessage (message_id b) pm = false →
  env (historyStep env 0 (dataOf b)).1.2
      (ProcessRequest (dataOf b) (historyStep env 0 (dataOf b)).2) = Return result →
  let r := (run ag env now pm b).2 in
  status r = 200
  ∧ envelope r !! "testMode" = Some (VBool (startsWith "test-" chat))
  ∧ (∀ k v, k ≠ "testMode" → result !! k = Some v → envelope r !! k = Some v)
  ∧ (result !! "success" = None → envelope r !! "success" = Some (VBool true))
  ∧ (result !! "agent" = None →
       envelope r !! "agent" = Some (VStr (agent_name ag))).
Proof.
  intros Hev Hchat Hne Hdup Hhook. cbn zeta.
  rewrite run_response by done.
  assert (truthy (chat_id b) = true) as Hc by (rewrite Hchat; by apply truthy_Str).
  rewrite Hc, Hdup, Hhook. cbn [negb].
  unfold successResponse; cbn [status envelope]. unfold successEnvelope.
  assert (isTestChat (chat_id b) = VBool (startsWith "test-" chat)) as ->.
  { rewrite Hchat. unfold isTestChat. rewrite <- Hchat, Hc. done. }
  split_and!.
  - done.
  - by rewrite lookup_insert_eq.
  - intros k v Hk Hr. rewrite lookup_insert_ne by done.
    apply lookup_union_Some_l. done.
  - intros Hr. rewrite lookup_insert_ne by done.
    rewrite lookup_union_r by done. done.
  - intros Hr. rewrite lookup_insert_ne by done.
    rewrite lookup_union_r by done. done.
Qed.

Lemma success_envelope_fields_witness :
  let b := messageEvent (Str "test-chat") (Str "m1") in
  let env : environment :=
    λ _ c, match c return outcome string (reply c) with
           | GetMessageHistory _ _ _ => Return None
           | ProcessRequest _ _ =>
               Return {[ "response" := VStr "Hello!"; "success" := VBool false;
                         "testMode" := VStr "no" ]}
           | SendMessage _ _ _ => Return VNull
           end in
  let r := (run sampleAgent env 0 ∅ b).2 in
  status r = 200
  ∧ envelope r !! "testMode" = Some (VBool true)
  ∧ envelope r !! "success" = Some (VBool false)
  ∧ envelope r !! "agent" = Some (VStr "Mandy").
Proof.
  cbn zeta.
  pose proof (success_envelope_fields sampleAgent
           (λ _ c, match c return outcome string (reply c) with
                   | GetMessageHistory _ _ _ => Return None
                   | ProcessRequest _ _ =>
                       Return {[ "response" := VStr "Hello!"; "success" := VBool false;
                                 "testMode" := VStr "no" ]}
                   | SendMessage _ _ _ => Return VNull
                   end)
           0 ∅ (messageEvent (Str "test-chat") (Str "m1")) "test-chat"
           {[ "response" := VStr "Hello!"; "success" := VBool false;
              "testMode" := VStr "no" ]}
           ltac:(discriminate) eq_refl ltac:(discriminate) eq_refl eq_refl)
    as (H1 & H2 & H3 & _ & H5).
  split_and!; [exact H1|exact H2|by apply H3|by apply H5].
Defined.

(** X22.  [MandyWebhook.sendResponse] never throws and makes at most one
    delivery attempt: none in a test chat or for a result flagged [sent] or
    carrying an [imageUrl]; otherwise exactly one, with the response of the
    result, or with the fallback text when the result has no response
    (where [BaseWebhook.sendResponse] sends nothing).  When that attempt
    fails there is no second one: the helper it calls swallows the failure,
    so the retry with the simpler message is never reached. *)
Theorem mandy_sendResponse_sends_once (env : environment) (n : nat) (now : Z)
    (pm : processedMessages) (chatId : ostr) (result : object) :
  runProg env n now pm (Mandy.sendResponse chatId result) =
  if truthyV (isTestChat chatId)
     || truthyV (field result "sent")
     || truthyV (field result "imageUrl")
  then (pm, [], n, Return tt)
  else (pm, [Invokes (Mandy.delivery chatId result)], S n, Return tt).
Proof.
  unfold Mandy.sendResponse, Mandy.delivery, helpersSendResponse.
  destruct (truthyV (isTestChat chatId)); [done|].
  destruct (truthyV (field result "sent")); [done|].
  destruct (truthyV (field result "imageUrl")); [done|]. cbn [orb].
  destruct (truthyV (field result "response")); simpl;
    by destruct (env n _) as [e|v].
Qed.

End WebhookLaws.

(** ** The store on the event loop *)

Module EventLoopLawsFacts.
Import Js JsFacts Dedup DedupFacts Webhook WebhookFacts EventLoop EventLoopFacts.

(** What the first turn of an invocation does to the store. *)
Lemma runSync_handle_store ag b now pm :
  (runSync now pm (handle ag b)).1.1 =
  if bool_decide (event b ≠ Str "chat.started")
     && truthy (chat_id b) && negb (isDuplicateMessage (message_id b) pm)
  then markMessageProcessed (message_id b) now pm
  else pm.
Proof.
  destruct (decide (event b = Str "chat.started")) as [Hev|Hev].
  { rewrite bool_decide_eq_false_2 by (by intros ?).
    by rewrite runSync_asyncOnly by (by apply asyncOnly_handle_chatStarted). }
  rewrite bool_decide_eq_true_2 by done. cbn [andb].
  destruct (truthy (chat_id b)) eqn:Hc; cbn [andb];
    [|by rewrite handle_invalid].
  destruct (handle_valid ag b Hev Hc) as (rest & Hrest & _ & -> & Hfresh).
  cbn [runSync helperExec].
  destruct (isDuplicateMessage (message_id b) pm); [done|].
  rewrite Hfresh. cbn [runSync helperExec negb].
  by rewrite runSync_asyncOnly.
Qed.

End EventLoopLawsFacts.

Module EventLoopLaws.
Import Js JsFacts Dedup DedupFacts Webhook WebhookFacts EventLoop EventLoopFacts
  EventLoopLawsFacts.

(** X23.  The store holds only what was received.  On the event loop, after
    any sequence of arrivals, resumptions of suspended invocations, runs of
    the clean-up timer and passages of time from start-up, every entry of
    [processedMessages] has a non-empty id and a timestamp that is not in
    the future, and it was set by an invocation of the pool: a request that
    is no [chat.started] event, has a chat id, carries that id as its
    [message.id], and arrived at the time of the timestamp. *)
Theorem store_holds_only_received_messages (ag : agent) (acts : list action)
    (t0 : Z) :
  let s := execAll ag acts (initial t0) in
  ∀ m ts,
    store s !! m = Some ts →
    m ≠ "" ∧ ts ≤ clock s
    ∧ ∃ i t,
        pool s !! i = Some t
        ∧ event (t_body t) ≠ Str "chat.started"
        ∧ truthy (chat_id (t_body t)) = true
        ∧ message_id (t_body t) = Str m
        ∧ t_arrival t = ts.
Proof.
  cbn zeta.
  set (received := λ s : system,
         ∀ m ts,
           store s !! m = Some ts →
           m ≠ "" ∧ ts ≤ clock s
           ∧ ∃ i t,
               pool s !! i = Some t
               ∧ event (t_body t) ≠ Str "chat.started"
               ∧ truthy (chat_id (t_body t)) = true
               ∧ message_id (t_body t) = Str m
               ∧ t_arrival t = ts).
  assert (∀ a s, invariant s → received s → received (exec ag a s)) as Hstep.
  { intros a s Hinv Hrec m ts. destruct a as [b|i answer| |ms]; unfold exec.
    - pose proof (runSync_handle_store ag b (clock s) (store s)) as Hst.
      destruct (runSync (clock s) (store s) (handle ag b)) as [[pm' evs] p].
      cbn [fst snd] in Hst. cbn [store clock pool]. rewrite Hst. clear Hst.
      assert (store s !! m = Some ts →
              m ≠ "" ∧ ts ≤ clock s
              ∧ ∃ i t, (pool s ++ [mkTask b (clock s) p]) !! i = Some t
                       ∧ event (t_body t) ≠ Str "chat.started"
                       ∧ truthy (chat_id (t_body t)) = true
                       ∧ message_id (t_body t) = Str m ∧ t_arrival t = ts) as Hold.
      { intros Hm. destruct (Hrec m ts Hm) as (Hne & Hle & i & t & Hi & Ht).
        split_and!; [done|done|]. exists i, t. split; [|done].
        by apply lookup_app_l_Some. }
      destruct (bool_decide (event b ≠ Str "chat.started")) eqn:Hev; cbn [andb];
        [|done].
      apply bool_decide_eq_true in Hev.
      destruct (truthy (chat_id b)) eqn:Hc; cbn [andb]; [|done].
      destruct (isDuplicateMessage (message_id b) (store s)); cbn [negb]; [done|].
      destruct (truthy (message_id b)) eqn:Hmid;
        [|by rewrite mark_falsy].
      apply truthy_inv in Hmid as (m' & Hmid & Hne'). rewrite Hmid, mark_Str by done.
      destruct (decide (m' = m)) as [->|Hmm].
      + rewrite lookup_insert_eq. intros [= <-].
        split_and!; [done|lia|]. exists (length (pool s)), (mkTask b (clock s) p).
        split; [|done]. by rewrite lookup_app_r, Nat.sub_diag.
      + by rewrite lookup_insert_ne.
    - destruct (pool s !! i) as [t|] eqn:Hi; [|by apply Hrec].
      destruct (t_code t) as [r|c k|c k] eqn:Hcode; [by apply Hrec..|].
      pose proof (inv_async s Hinv i t Hi) as Ha. rewrite Hcode in Ha. simpl in Ha.
      rewrite (runSync_asyncOnly _ _ _ (Ha (answer c))). cbn [store clock pool].
      intros Hm. destruct (Hrec m ts Hm) as (Hne & Hle & j & tj & Hj & Ht).
      split_and!; [done|done|].
      destruct (decide (j = i)) as [->|Hji].
      + exists i, (mkTask (t_body t) (t_arrival t) (k (answer c))).
        split; [apply list_lookup_insert_eq; by apply lookup_lt_Some in Hi|].
        rewrite Hi in Hj. injection Hj as <-. done.
      + exists j, tj. split; [|done]. by rewrite list_lookup_insert_ne.
    - cbn [store clock pool]. rewrite sweep_lookup.
      destruct (store s !! m) as [ts'|] eqn:Hm; [|done].
      case_decide; [done|]. intros [= <-]. by apply Hrec.
    - cbn [store clock pool]. intros Hm.
      destruct (Hrec m ts Hm) as (Hne & Hle & Hex). split_and!; [done|lia|done]. }
  assert (∀ s, invariant s → received s → received (execAll ag acts s)) as Hall.
  { induction acts as [|a acts IH]; intros s Hinv Hrec; simpl; [done|].
    apply IH; [by apply invariant_exec|by apply Hstep]. }
  apply Hall; [apply invariant_initial|].
  intros m ts Hm. simpl in Hm. by rewrite lookup_empty in Hm.
Qed.

Lemma store_holds_only_received_messages_witness :
  let s := execAll sampleAgent
             [Arrive (messageEvent (Str "chat-1") (Str "m1")); Tick 1000; Sweep]
             (initial 0) in
  store s !! "m1" = Some 0
  ∧ "m1" ≠ "" ∧ 0 ≤ clock s
  ∧ ∃ i t,
      pool s !! i = Some t
      ∧ event (t_body t) ≠ Str "chat.started"
      ∧ truthy (chat_id (t_body t)) = true
      ∧ message_id (t_body t) = Str "m1"
      ∧ t_arrival t = 0.
Proof.
  cbn zeta.
  assert (store (execAll sampleAgent
                   [Arrive (messageEvent (Str "chat-1") (Str "m1")); Tick 1000; Sweep]
                   (initial 0)) !! "m1" = Some 0) as H
    by (vm_compute; reflexivity).
  split; [exact H|].
  exact (store_holds_only_received_messages sampleAgent
           [Arrive (messageEvent (Str "chat-1") (Str "m1")); Tick 1000; Sweep]
           0 "m1" 0 H).
Defined.

End EventLoopLaws.

(** ** The delivery client: construction and the media payload *)

Module ClientLaws.
Import Js JsFacts Client ClientFacts ClientSetup.

(** X24.  The constructor checks presence only.  It throws exactly when
    the API key, the agent id or the API URL is missing or empty; a client
    it returns has non-empty credentials and URL, and the agent name
    ['unknown'] when none is given.  It accepts the placeholder values that
    [_validateApiKey] rejects: for a constructed client the validation fails
    exactly when the key or the agent id starts with ['your_'] or ['YOUR_']
    or is the text ['undefined'] or ['null'], and every [sendMessage] of
    such a client throws without a request. *)
Theorem constructor_checks_presence_only (o : options) :
  ((∃ cfg, construct o = Return cfg) ↔
     truthy (opt_apiKey o) = true ∧ truthy (opt_agentId o) = true
     ∧ truthy (opt_apiUrl o) = true)
  ∧ ∀ cfg, construct o = Return cfg →
      apiKey cfg ≠ "" ∧ agentId cfg ≠ "" ∧ apiUrl cfg ≠ "" ∧ agentName cfg ≠ ""
      ∧ (truthy (opt_agentName o) = false → agentName cfg = "unknown")
      ∧ (validateApiKey cfg = None ↔
           placeholderText (apiKey cfg) = false
           ∧ placeholderText (agentId cfg) = false)
      ∧ (validateApiKey cfg ≠ None →
           ∀ chatId content blocks net,
             (sendMessage cfg chatId content blocks net).2 = []).
Proof.
  unfold construct.
  destruct (truthy (opt_apiKey o)) eqn:Hk; cbn [negb];
    [|split; [split; [by intros [? ?]|by intros (? & _)]|done]].
  destruct (truthy (opt_agentId o)) eqn:Ha; cbn [negb];
    [|split; [split; [by intros [? ?]|by intros (_ & ? & _)]|done]].
  destruct (truthy (opt_apiUrl o)) eqn:Hu; cbn [negb];
    [|split; [split; [by intros [? ?]|by intros (_ & _ & ?)]|done]].
  split; [split; [done|eauto]|].
  intros cfg [= <-]. cbn [apiKey agentId apiUrl agentName].
  apply truthy_inv in Hk as (k & -> & Hk).
  apply truthy_inv in Ha as (a & -> & Ha).
  apply truthy_inv in Hu as (u & -> & Hu).
  cbn [text].
  assert (text (or_else (opt_agentName o) (Str "unknown")) ≠ ""
          ∧ (truthy (opt_agentName o) = false →
             text (or_else (opt_agentName o) (Str "unknown")) = "unknown"))
    as [Hn1 Hn2].
  { unfold or_else. destruct (truthy (opt_agentName o)) eqn:Hn.
    - apply truthy_inv in Hn as (n & -> & Hn). done.
    - done. }
  split_and!; [done..| |].
  - unfold validateApiKey, isPlaceholder. cbn [apiKey agentId].
    apply String.eqb_neq in Hk, Ha. rewrite Hk, Ha. cbn [orb].
    fold (placeholderText k). fold (placeholderText a).
    destruct (placeholderText k); [split; [done|by intros [? _]]|].
    destruct (placeholderText a); [split; [done|by intros [_ ?]]|].
    done.
  - intros Hv chatId content blocks net. unfold sendMessage.
    by destruct (validateApiKey _).
Qed.

(** X25.  The request of [sendMediaMessage].  With configured credentials
    the call makes exactly one request, without a time-out, whose payload
    has message type ['media'] and a media object with the given URL and a
    content type that is never empty: the one of the options, or
    ['image/png'] when the options give none or an empty one.  The
    dimensions are sent together or not at all: the payload carries width
    and height exactly when both are given and neither is [0]. *)
Theorem sendMediaMessage_payload (cfg : config) (chatId content mediaUrl : string)
    (options : mediaOptions) (net : network) :
  validateApiKey cfg = None →
  ∃ body m,
    (sendMediaMessage cfg chatId content mediaUrl options net).2 =
      [Post 1 (sendUrl cfg) body None]
    ∧ p_chatId body = chatId ∧ p_content body = content
    ∧ p_messageType body = Some "media"
    ∧ p_media body = Some m
    ∧ media_url m = mediaUrl
    ∧ media_contentType m ≠ ""
    ∧ media_contentType m =
      (if truthy (opt_contentType options)
       then ClientSetup.text (opt_contentType options) else "image/png")
    ∧ (∀ w h, media_dimensions m = Some (w, h) ↔
         opt_width options = Some w ∧ opt_height options = Some h
         ∧ w ≠ 0 ∧ h ≠ 0).
Proof.
  intros Hv. unfold sendMediaMessage. rewrite Hv.
  eexists _, _. split; [by destruct (net 1%nat)|].
  cbn [p_chatId p_content p_messageType p_media media_url media_contentType
       media_dimensions].
  split_and!; [done..| | |].
  - unfold or_else. destruct (truthy (opt_contentType options)) eqn:Ht; [|done].
    by apply truthy_inv in Ht as (s & -> & Hs).
  - unfold or_else. destruct (truthy (opt_contentType options)) eqn:Ht; [|done].
    by apply truthy_inv in Ht as (s & -> & Hs).
  - intros w h.
    destruct (opt_width options) as [w'|], (opt_height options) as [h'|];
      try (split; [done|by intros (? & ? & _)]).
    unfold truthyNumber.
    destruct (Z.eqb_spec w' 0), (Z.eqb_spec h' 0); cbn [negb andb].
    + split; [done|]. intros ([= ->] & _ & ? & _). done.
    + split; [done|]. intros ([= ->] & _ & ? & _). done.
    + split; [done|]. intros (_ & [= ->] & _ & ?). done.
    + split; [by intros [= -> ->]|]. by intros ([= ->] & [= ->] & _).
Qed.

Lemma sendMediaMessage_payload_witness :
  ∃ body m,
    (sendMediaMessage configured "chat-1" "hello" "https://img/1.png"
       {| opt_width := Some 0; opt_height := Some 600; opt_contentType := Str "" |}
       (scripted [])).2 =
      [Post 1 (sendUrl configured) body None]
    ∧ p_chatId body = "chat-1" ∧ p_content body = "hello"
    ∧ p_messageType body = Some "media"
    ∧ p_media body = Some m
    ∧ media_url m = "https://img/1.png"
    ∧ media_contentType m ≠ ""
    ∧ media_contentType m = "image/png"
    ∧ (∀ w h, media_dimensions m = Some (w, h) ↔
         Some 0 = Some w ∧ Some 600 = Some h ∧ w ≠ 0 ∧ h ≠ 0).
Proof.
  exact (sendMediaMessage_payload configured "chat-1" "hello" "https://img/1.png"
           {| opt_width := Some 0; opt_height := Some 600; opt_contentType := Str "" |}
           (scripted []) eq_refl).
Defined.

End ClientLaws.

(** ** Profiles, matches and per-question responses *)

Module StorageFacts.
Import Js JsFacts Storage.

Lemma find_snoc {A} (p : A → bool) (l : list A) (x : A) :
  List.find p (l ++ [x]) =
  match List.find p l with
  | Some y => Some y
  | None => if p x then Some x else None
  end.
Proof.
  induction l as [|y l IH]; simpl; [done|].
  by destruct (p y).
Qed.

Lemma existsb_find {A} (p : A → bool) (l : list A) :
  existsb p l = true ↔ is_Some (List.find p l).
Proof.
  induction l as [|y l IH]; simpl.
  - split; [done|]. by intros [? ?].
  - destruct (p y); simpl; [|done]. split; eauto.
Qed.

Lemma findIndex_Some {A} (p : A → bool) (l : list A) (i : nat) :
  findIndex p l = Some i →
  ∃ x, l !! i = Some x ∧ p x = true.
Proof.
  revert i. induction l as [|y l IH]; intros i; simpl; [done|].
  destruct (p y) eqn:Hy.
  - intros [= <-]. by exists y.
  - destruct (findIndex p l) as [j|]; simpl; [|done].
    intros [= <-]. by apply IH.
Qed.

Lemma findIndex_None {A} (p : A → bool) (l : list A) :
  findIndex p l = None ↔ Forall (λ x, p x = false) l.
Proof.
  induction l as [|y l IH]; simpl; [by split|].
  destruct (p y) eqn:Hy.
  - split; [done|]. intros [? _]%Forall_cons. congruence.
  - destruct (findIndex p l) as [j|]; simpl.
    + split; [done|]. intros [_ H]%Forall_cons. by apply IH in H.
    + split; [|done]. intros _. constructor; [done|]. by apply IH.
Qed.

Lemma findIndex_existsb {A} (p : A → bool) (l : list A) :
  existsb p l = bool_decide (is_Some (findIndex p l)).
Proof.
  destruct (findIndex p l) as [i|] eqn:Hi.
  - rewrite bool_decide_eq_true_2 by eauto.
    apply findIndex_Some in Hi as (x & Hx & Hp).
    apply List.existsb_exists. exists x. split; [|done].
    by apply list_elem_of_In, list_elem_of_lookup_2 with i.
  - rewrite bool_decide_eq_false_2 by (by intros [? ?]).
    apply findIndex_None in Hi. rewrite Forall_forall in Hi.
    apply not_true_is_false. intros (x & Hx & Hp)%List.existsb_exists.
    apply list_elem_of_In, Hi in Hx. congruence.
Qed.

(** [samePair] compares unordered pairs of names. *)
Lemma samePair_spec a b :
  samePair a b = true ↔
  (group1Name b = group1Name a ∧ group2Name b = group2Name a)
  ∨ (group1Name b = group2Name a ∧ group2Name b = group1Name a).
Proof.
  unfold samePair.
  rewrite orb_true_iff, !andb_true_iff, !String.eqb_eq. done.
Qed.

Lemma samePair_names a a' b :
  group1Name a' = group1Name a → group2Name a' = group2Name a →
  samePair a' b = samePair a b.
Proof. unfold samePair. by intros -> ->. Qed.

Lemma samePair_sym a b : samePair a b = samePair b a.
Proof.
  apply eq_true_iff_eq. rewrite !samePair_spec.
  split; intros [[-> ->]|[-> ->]]; auto.
Qed.

Lemma samePair_trans a b c :
  samePair a b = true → samePair b c = true → samePair a c = true.
Proof.
  rewrite !samePair_spec.
  intros [[H1 H2]|[H1 H2]] [[H3 H4]|[H3 H4]]; rewrite H3, H4, H1, H2; auto.
Qed.

Lemma saveMatch_file m nowIso suffix ms :
  (saveMatch m nowIso suffix ms).2 =
  match findIndex (samePair m) ms with
  | Some i => <[i := matchToSave m nowIso suffix]> ms
  | None => ms ++ [matchToSave m nowIso suffix]
  end.
Proof. done. Qed.

(** *** Per-question responses *)








End StorageFacts.

Module StorageLaws.
Import Js JsFacts Storage StorageFacts.

(** X26.  The first profile of a chat wins.  [saveGroupProfile] appends
    and never replaces, and [getProfileByChatId] returns the first profile
    with the chat id: once a chat has a profile, [getProfileByChatId] keeps
    returning that profile whatever is saved afterwards, also for the same
    chat; for a chat without a profile it returns the saved profile when
    that is for this chat.  The saved profile is its argument with a fresh
    [id], [createdAt] and [profileVersion: '1.0']. *)
Theorem first_profile_of_chat_wins (chatId : string) (p : profile)
    (suffix nowIso : string) (groups : list profile) :
  let saved := saveGroupProfile p suffix nowIso groups in
  getProfileByChatId chatId saved.2 =
    match getProfileByChatId chatId groups with
    | Some old => Some old
    | None =>
        if bool_decide (profile_chatId p = Str chatId) then Some saved.1 else None
    end
  ∧ getAllProfiles saved.2 = getAllProfiles groups ++ [saved.1]
  ∧ groupName saved.1 = groupName p
  ∧ profile_chatId saved.1 = profile_chatId p
  ∧ profile_fields saved.1 = profile_fields p
  ∧ profile_id saved.1 = Str ("group_" +:+ suffix)
  ∧ profileVersion saved.1 = Str "1.0".
Proof.
  cbn zeta. unfold saveGroupProfile, getProfileByChatId, getAllProfiles. cbn [fst snd].
  split_and!; try done.
  rewrite find_snoc. done.
Qed.

(** X27.  Group names are compared without regard to case, and the two
    look-ups agree: [groupNameExists(name)] is true exactly when
    [getProfileByGroupName(name)] finds a profile; the profile found is the
    first of the file whose non-empty name equals [name] after lower-casing;
    two names with the same lower-case form get the same answers; and a
    profile saved under a non-empty name exists under that name. *)
Theorem group_name_lookups_agree (toLowerCase : string → string) (name : string)
    (groups : list profile) :
  (groupNameExists toLowerCase name groups = true ↔
     is_Some (getProfileByGroupName toLowerCase name groups))
  ∧ (∀ g, getProfileByGroupName toLowerCase name groups = Some g →
       g ∈ groups
       ∧ ∃ n, groupName g = Str n ∧ n ≠ "" ∧ toLowerCase n = toLowerCase name)
  ∧ (∀ name', toLowerCase name' = toLowerCase name →
       groupNameExists toLowerCase name' groups
         = groupNameExists toLowerCase name groups
       ∧ getProfileByGroupName toLowerCase name' groups
         = getProfileByGroupName toLowerCase name groups)
  ∧ (∀ p suffix nowIso,
       groupName p = Str name → name ≠ "" →
       groupNameExists toLowerCase name (saveGroupProfile p suffix nowIso groups).2
         = true).
Proof.
  split_and!.
  - apply existsb_find.
  - intros g Hg. apply List.find_some in Hg as [Hin Hn].
    split; [by apply list_elem_of_In|].
    unfold named in Hn. destruct (groupName g) as [| |n] eqn:Hg; try done.
    apply andb_true_iff in Hn as [Ht He].
    exists n. split_and!; [done|by apply truthy_Str|by apply String.eqb_eq].
  - intros name' Hn.
    assert (∀ g, named toLowerCase name' g = named toLowerCase name g) as Heq.
    { intros g. unfold named. by rewrite Hn. }
    unfold groupNameExists, getProfileByGroupName.
    induction groups as [|g gs [IH1 IH2]]; [done|].
    simpl. rewrite Heq, IH1, IH2. done.
  - intros p suffix nowIso Hp Hne.
    unfold groupNameExists, saveGroupProfile. cbn [snd].
    rewrite List.existsb_app. apply orb_true_iff. right. simpl.
    unfold named. cbn [groupName]. rewrite Hp.
    rewrite (proj2 (truthy_Str name) Hne), String.eqb_refl. done.
Qed.

(** X28.  [saveMatch] keeps one entry per pair of groups.  When no two
    entries of the file are for the same unordered pair of names, this still
    holds after [saveMatch]: a match for a pair that is in the file, in
    either order, replaces the entry of that pair in place, and the file
    grows by one exactly when the pair is new; the entries of the other
    pairs stay where they are.  The call throws a [TypeError], after the
    file has been written, exactly when the match has no
    [compatibility]. *)
Theorem saveMatch_keeps_one_entry_per_pair (m : matchResult)
    (nowIso suffix : string) (ms : list matchResult) :
  onePerPair ms →
  let saved := (saveMatch m nowIso suffix ms).2 in
  onePerPair saved
  ∧ length saved = (if existsb (samePair m) ms then length ms else S (length ms))
  ∧ (∃ i, saved !! i = Some (matchToSave m nowIso suffix)
          ∧ ((i < length ms)%nat →
             ∃ old, ms !! i = Some old ∧ samePair m old = true))
  ∧ (∀ i x, ms !! i = Some x → samePair m x = false → saved !! i = Some x)
  ∧ ((saveMatch m nowIso suffix ms).1 = Throw TypeError ↔ compatibility m = None).
Proof.
  intros Hone. cbn zeta. rewrite saveMatch_file, findIndex_existsb.
  assert (∀ x, samePair (matchToSave m nowIso suffix) x = samePair m x) as Hsame.
  { intros x. by apply samePair_names. }
  split_and!.
  - destruct (findIndex (samePair m) ms) as [i|] eqn:Hi.
    + apply findIndex_Some in Hi as (old & Hold & Hp).
      intros a b ma mb Ha Hb Hab.
      apply list_lookup_insert_Some in Ha as [(<- & <- & _)|[Hia Ha]];
        apply list_lookup_insert_Some in Hb as [(<- & <- & _)|[Hib Hb]].
      * done.
      * rewrite Hsame in Hab. apply (Hone i b old mb); [done|done|].
        apply (samePair_trans old m mb); [|done].
        by rewrite samePair_sym.
      * rewrite samePair_sym, Hsame in Hab. symmetry.
        apply (Hone i a old ma); [done|done|].
        apply (samePair_trans old m ma); [|done].
        by rewrite samePair_sym.
      * by apply (Hone a b ma mb).
    + apply findIndex_None in Hi. rewrite Forall_forall in Hi.
      intros a b ma mb Ha Hb Hab.
      apply lookup_app_Some in Ha as [Ha|[Hla Ha]];
        apply lookup_app_Some in Hb as [Hb|[Hlb Hb]].
      * by apply (Hone a b ma mb).
      * apply list_lookup_singleton_Some in Hb as [_ <-].
        rewrite samePair_sym, Hsame in Hab.
        apply list_elem_of_lookup_2, Hi in Ha. congruence.
      * apply list_lookup_singleton_Some in Ha as [_ <-].
        rewrite Hsame in Hab.
        apply list_elem_of_lookup_2, Hi in Hb. congruence.
      * apply list_lookup_singleton_Some in Ha as [Ha _].
        apply list_lookup_singleton_Some in Hb as [Hb _]. lia.
  - destruct (findIndex (samePair m) ms) as [i|] eqn:Hi.
    + rewrite bool_decide_eq_true_2 by eauto. by rewrite length_insert.
    + rewrite bool_decide_eq_false_2 by (by intros [? ?]).
      rewrite length_app. simpl. lia.
  - destruct (findIndex (samePair m) ms) as [i|] eqn:Hi.
    + apply findIndex_Some in Hi as (old & Hold & Hp).
      exists i. split; [|by eauto].
      apply list_lookup_insert_eq. by apply lookup_lt_Some in Hold.
    + exists (length ms). split; [|lia].
      by rewrite lookup_app_r, Nat.sub_diag.
  - intros i x Hx Hp.
    destruct (findIndex (samePair m) ms) as [j|] eqn:Hj.
    + apply findIndex_Some in Hj as (old & Hold & Hp').
      rewrite list_lookup_insert_ne; [done|]. intros ->. congruence.
    + by apply lookup_app_l_Some.
  - unfold saveMatch. cbn [fst]. destruct (compatibility m); by split.
Qed.

Lemma saveMatch_keeps_one_entry_per_pair_witness :
  let old := {| group1Name := "Owls"; group2Name := "Foxes";
                matchedAt := Str "2025-01-01T00:00:00.000Z";
                match_id := Str "match_1_a"; compatibility := Some "71";
                match_fields := ∅ |} in
  let m := {| group1Name := "Foxes"; group2Name := "Owls";
              matchedAt := Undefined; match_id := Undefined;
              compatibility := Some "84"; match_fields := ∅ |} in
  let saved := (saveMatch m "2025-02-02T00:00:00.000Z" "2_b" [old]).2 in
  onePerPair [old] ∧ onePerPair saved ∧ length saved = 1%nat.
Proof.
  cbn zeta.
  assert (onePerPair
            [ {| group1Name := "Owls"; group2Name := "Foxes";
                 matchedAt := Str "2025-01-01T00:00:00.000Z";
                 match_id := Str "match_1_a"; compatibility := Some "71";
                 match_fields := ∅ |} ]) as Hone.
  { intros i j mi mj Hi Hj _.
    apply list_lookup_singleton_Some in Hi as [-> _].
    by apply list_lookup_singleton_Some in Hj as [-> _]. }
  split; [exact Hone|].
  pose proof (saveMatch_keeps_one_entry_per_pair
                {| group1Name := "Foxes"; group2Name := "Owls";
                   matchedAt := Undefined; match_id := Undefined;
                   compatibility := Some "84"; match_fields := ∅ |}
                "2025-02-02T00:00:00.000Z" "2_b" _ Hone) as (H1 & H2 & _).
  split; [exact H1|exact H2].
Defined.

(** X29.  A saved match is listed for both of its groups:
    [getMatchesForGroup], which compares names without regard to case,
    returns after [saveMatch(m)] the entry written for [m] both for
    [m.group1Name] and for [m.group2Name], and in general exactly the
    entries of the file one of whose group names equals the given name after
    lower-casing. *)
Theorem saved_match_is_listed_for_both_groups (toLowerCase : string → string)
    (m : matchResult) (nowIso suffix : string) (ms : list matchResult) :
  let saved := (saveMatch m nowIso suffix ms).2 in
  matchToSave m nowIso suffix ∈ getMatchesForGroup toLowerCase (group1Name m) saved
  ∧ matchToSave m nowIso suffix ∈ getMatchesForGroup toLowerCase (group2Name m) saved
  ∧ ∀ name x,
      x ∈ getMatchesForGroup toLowerCase name saved ↔
      x ∈ saved
      ∧ (toLowerCase (group1Name x) = toLowerCase name
         ∨ toLowerCase (group2Name x) = toLowerCase name).
Proof.
  cbn zeta.
  assert (∀ name x l,
            x ∈ getMatchesForGroup toLowerCase name l ↔
            x ∈ l ∧ (toLowerCase (group1Name x) = toLowerCase name
                     ∨ toLowerCase (group2Name x) = toLowerCase name)) as Hspec.
  { intros name x l. unfold getMatchesForGroup, getAllMatches.
    rewrite list_elem_of_In, List.filter_In, <- list_elem_of_In.
    by rewrite orb_true_iff, !String.eqb_eq. }
  assert (matchToSave m nowIso suffix ∈ (saveMatch m nowIso suffix ms).2) as Hin.
  { rewrite saveMatch_file.
    destruct (findIndex (samePair m) ms) as [i|] eqn:Hi.
    - apply findIndex_Some in Hi as (old & Hold & _).
      apply list_elem_of_lookup_2 with i, list_lookup_insert_eq.
      by apply lookup_lt_Some in Hold.
    - apply elem_of_app. right. by apply list_elem_of_singleton. }
  split_and!.
  - apply Hspec. split; [done|by left].
  - apply Hspec. split; [done|by right].
  - intros name x. apply Hspec.
Qed.


End StorageLaws.

(** ** The tests of the helpers and of the group flow, replayed *)

Module ReplayHelpers.
Import Js Dedup Tracker Webhook Helpers GroupFlow.

(** *** [tests/test-video-deduplication.js] *)

Definition payload (chat message content : ostr) : body :=
  {| event := Str "message.received";
     chat_id := chat;
     agent_id := Str "agent-789";
     message_id := message;
     message_content := content;
     message_media_url := Undefined;
     root_chatId := Undefined;
     meta_chatId := Undefined;
     root_userName := Undefined;
     meta_userName := Undefined;
     root_isAnonymous := VUndefined;
     meta_isAnonymous := VUndefined |}.

(** Test 1: a valid payload, one without chat, one without message. *)
Example test_payload_validation :
  valid (validateWebhookPayload (payload (Str "chat-123") (Str "msg-456") (Str "Hello!")))
    = true
  ∧ error (validateWebhookPayload (payload Undefined Undefined (Str "Hello!")))
    = Some "Missing chat.id in webhook payload"
  ∧ error (validateWebhookPayload (payload (Str "chat-123") Undefined Undefined))
    = Some "Missing message.content in webhook payload".
Proof. vm_compute. by split_and!. Qed.

(** Test 2: marking a message makes it a duplicate and is counted. *)
Example test_deduplication_stats :
  let pm := markMessageProcessed (Str "test-msg-1") 1000 ∅ in
  isDuplicateMessage (Str "test-msg-1") ∅ = false
  ∧ isDuplicateMessage (Str "test-msg-1") pm = true
  ∧ totalTracked (getDeduplicationStats pm) = 1%nat
  ∧ expiryMs (getDeduplicationStats pm) / 1000 / 60 = 5.
Proof. vm_compute. by split_and!. Qed.

(** Test 4: three of the four messages of the mock history are kept, the
    one with an object as content is skipped. *)
Example test_history_processing :
  processMessageHistory
    [ {| content := ContentText "Hello!"; isAgent := false;
         senderId := Str "user-1"; senderName := Str "John"; mediaUrl := Undefined |};
      {| content := ContentText "Hi there!"; isAgent := true;
         senderId := Str "agent-1"; senderName := Undefined; mediaUrl := Undefined |};
      {| content := ContentText "How are you?"; isAgent := false;
         senderId := Str "user-1"; senderName := Str "John"; mediaUrl := Undefined |};
      {| content := ContentObject; isAgent := false;
         senderId := Str "user-1"; senderName := Undefined; mediaUrl := Undefined |} ]
    (Str "agent-1") false
  = [ {| conv_role := User; conv_content := "John: Hello!"; conv_imageUrl := None |};
      {| conv_role := Assistant; conv_content := "Hi there!"; conv_imageUrl := None |};
      {| conv_role := User; conv_content := "John: How are you?";
         conv_imageUrl := None |} ].
Proof. vm_compute. reflexivity. Qed.

(** Tests 5 and 6: blocks for three links, the third with the default
    platform; no blocks for no links. *)
Example test_social_share_blocks :
  createSocialShareBlocks asciiToLowerCase
    (Some [ {| link_platform := Str "instagram"; link_url := Str "https://instagram.com/1" |};
            {| link_platform := Str "tiktok"; link_url := Str "https://tiktok.com/2" |};
            {| link_platform := Undefined; link_url := Str "https://youtube.com/3" |} ])
    "youtube"
  = [ {| block_type := "social_share"; block_platform := "instagram";
         block_url := Str "https://instagram.com/1"; block_order := 0 |};
      {| block_type := "social_share"; block_platform := "tiktok";
         block_url := Str "https://tiktok.com/2"; block_order := 1 |};
      {| block_type := "social_share"; block_platform := "youtube";
         block_url := Str "https://youtube.com/3"; block_order := 2 |} ]
  ∧ createSocialShareBlocks asciiToLowerCase (Some []) "tiktok" = []
  ∧ createSocialShareBlocks asciiToLowerCase None "tiktok" = [].
Proof. vm_compute. by split_and!. Qed.

(** *** [tests/test-image-context-tracking.js] *)

Definition mockConversationWithMultipleImages : list convMessage :=
  [ {| conv_role := User; conv_content := "[Image]";
       conv_imageUrl := Some "https://example.com/image1.jpg" |};
    {| conv_role := Assistant;
       conv_content := "I've applied a natural makeup look with a subtle pink lipstick.";
       conv_imageUrl := None |};
    {| conv_role := User; conv_content := "[Image]";
       conv_imageUrl := Some "https://example.com/image2.jpg" |};
    {| conv_role := User; conv_content := "[Image]";
       conv_imageUrl := Some "https://example.com/image3.jpg" |};
    {| conv_role := User;
       conv_content := "Can you make them slimmer and the lips blue";
       conv_imageUrl := None |};
    {| conv_role := Assistant;
       conv_content := "Would you like me to proceed with these changes?";
       conv_imageUrl := None |};
    {| conv_role := User; conv_content := "Yes"; conv_imageUrl := None |} ].

(** Tests 1 and 2: the most recent image and the previous request. *)
Example test_image_context :
  findRecentImage (Some mockConversationWithMultipleImages) 5
    = Some "https://example.com/image3.jpg"
  ∧ extractPreviousMakeupRequest asciiToLowerCase
      (Some mockConversationWithMultipleImages) 10
    = Some "Can you make them slimmer and the lips blue".
Proof. vm_compute. by split_and!. Qed.

(** With a look-back of two entries the images are out of reach; with a
    look-back of [0] the whole conversation is searched. *)
Example test_image_lookback_bounds :
  findRecentImage (Some mockConversationWithMultipleImages) 2 = None
  ∧ findRecentImage (Some mockConversationWithMultipleImages) 0
    = Some "https://example.com/image3.jpg".
Proof. vm_compute. by split_and!. Qed.

(** *** [test-group-webhook-flow.js] *)

Definition flowHistory : list rawSender :=
  [ {| rs_senderId := Str "user-alice"; rs_isAgent := false |};
    {| rs_senderId := Str "user-bob"; rs_isAgent := false |};
    {| rs_senderId := Str "user-charlie"; rs_isAgent := false |} ].

(** Messages 1 to 8: two rounds of a chat of three. *)
Example test_group_chat_flow :
  let r := simulateAll (Str "mandy-agent-id") "test-webhook-group-123" flowHistory
             [ ("user-alice", 1, "1_a"); ("user-bob", 2, "2_b");
               ("user-charlie", 3, "3_c"); ("user-alice", 4, "4_d");
               ("user-bob", 5, "5_e"); ("user-charlie", 6, "6_f");
               ("user-alice", 7, "7_g"); ("user-bob", 8, "8_h") ] ∅ in
  shouldRespond <$> r.1 = [true; false; false; true; true; false; false; true]
  ∧ remainingCount <$> r.1
    = [None; Some 2; Some 1; None; None; Some 2; Some 1; None]
  ∧ questionCount (getResponseState "test-webhook-group-123" r.2) = 2.
Proof. vm_compute. by split_and!. Qed.

(** *** The match file *)

(** A match saved for a pair that is in the file in the other order
    replaces the entry; a match without [compatibility] is written and the
    call throws. *)
Example saveMatch_upsert :
  let old := Storage.mkMatchResult "Owls" "Foxes" (Str "2025-01-01T00:00:00.000Z")
               (Str "match_1_a") (Some "71") ∅ in
  let m := Storage.mkMatchResult "Foxes" "Owls" Undefined Undefined None ∅ in
  Storage.saveMatch m "2025-02-02T00:00:00.000Z" "2_b" [old]
  = (Throw Storage.TypeError,
     [ Storage.mkMatchResult "Foxes" "Owls" (Str "2025-02-02T00:00:00.000Z")
         (Str "match_2_b") None ∅ ]).
Proof. vm_compute. reflexivity. Qed.

End ReplayHelpers.

